(** * Sandbox orchestrator: port allocation, sandbox lifecycle, adapter
      and path cleaning, embedded from the Python sources

    The model:
    - [Paths]: [clean_path] of local_tool_base.py and local_api.py, with
      the pieces of Python's [re] and [posixpath] they call.
    - [Ports]: [PortManager] of local_sandbox_manager.py.
    - [Engine]: the container engine as the code sees it through its
      client, and the surroundings the code does not decide.
    - [Manager]: [LocalSandboxManager] of local_sandbox_manager.py, as
      state passing over a world made of the manager and the engine.
    - [Adapter]: [LocalApiAdapter] of local_api_adapter.py.
    - [Scenario]: concrete worlds; [Props]: the predicates the properties
      are stated with.
    - [ManagerListing]: [list_sandboxes] of local_sandbox_manager.py;
      [AdapterLifecycle]: the lifecycle calls and the health check of
      local_api_adapter.py;
      [PathGuards]: the guarded file calls of local_tool_base.py;
      [Router]: endpoints of local_api.py;
      [Cases]: more worlds; [Notions]: more predicates.

    The properties: [PortFacts], [CallFacts] (reasoning about calls),
    [ManagerFacts], [WaitFacts] (the readiness probe), [AdapterFacts],
    [PathFacts]; then [PortPolicy], [LifecycleFacts], [ListingFacts],
    [AdapterLifecycleFacts], [HealthFacts],
    [PathGuardFacts], [RouterFacts].

    A Python [str] is kept as the Stdlib [string] of its UTF-8 bytes: every
    character the code below inspects is ASCII, and an ASCII byte never
    occurs inside a multi-byte UTF-8 sequence, so searching, splitting and
    filtering on those characters act alike on bytes and on code points. *)

From Stdlib Require Import ZArith Ascii.
From stdpp Require Import base tactics option list strings gmap pretty.

Local Open Scope string_scope.
Local Open Scope Z_scope.
Local Open Scope list_scope.

(* ===================================================================== *)
(** * Path cleaning                                                       *)
(* ===================================================================== *)

Module Paths.

(** ** Python string primitives *)

(** [s.startswith(prefix)] *)
Fixpoint startswith (prefix s : string) : bool :=
  match prefix, s with
  | EmptyString, _ => true
  | String a p', String b s' => bool_decide (a = b) && startswith p' s'
  | String _ _, EmptyString => false
  end.

(** [s.split(sep)] for a one-character separator: never the empty list,
    [''.split('/') = ['']]. *)
Fixpoint split (sep : ascii) (s : string) : list string :=
  match s with
  | EmptyString => [EmptyString]
  | String c s' =>
      if bool_decide (c = sep) then EmptyString :: split sep s'
      else match split sep s' with
           | [] => [String c EmptyString]
           | x :: xs => String c x :: xs
           end
  end.

(** [sep.join(comps)] *)
Fixpoint join (sep : string) (comps : list string) : string :=
  match comps with
  | [] => EmptyString
  | [x] => x
  | x :: xs => x +:+ sep +:+ join sep xs
  end.

(** [sep * n] *)
Fixpoint repeat_str (sep : string) (n : nat) : string :=
  match n with
  | O => EmptyString
  | S n' => sep +:+ repeat_str sep n'
  end.

(** The character class of the first [re.sub] of [clean_path]: the seven
    characters less-than, greater-than, colon, double quote (code 34),
    bar, question mark and star, each replaced by the empty string. *)
Definition dangerous (c : ascii) : bool :=
  bool_decide (c = "<"%char) || bool_decide (c = ">"%char)
  || bool_decide (c = ":"%char) || bool_decide (c = "034"%char)
  || bool_decide (c = "|"%char) || bool_decide (c = "?"%char)
  || bool_decide (c = "*"%char).

(** [re.sub] with that class and the empty replacement. *)
Fixpoint strip_dangerous (s : string) : string :=
  match s with
  | EmptyString => EmptyString
  | String c s' =>
      if dangerous c then strip_dangerous s' else String c (strip_dangerous s')
  end.

(** [re.sub(r'/+', '/', path)]: every maximal run of slashes becomes one. *)
Fixpoint collapse_slashes (s : string) : string :=
  match s with
  | EmptyString => EmptyString
  | String c s' =>
      if bool_decide (c = "/"%char) then
        match s' with
        | String "/"%char _ => collapse_slashes s'
        | _ => String c (collapse_slashes s')
        end
      else String c (collapse_slashes s')
  end.

(** ** [os.path.normpath] (posixpath.py of the Python standard library)

    <<
    if path == '': return '.'
    initial_slashes = path.startswith('/')
    if initial_slashes and path.startswith('//') and not path.startswith('///'):
        initial_slashes = 2
    comps = path.split('/'); new_comps = []
    for comp in comps:
        if comp in ('', '.'): continue
        if (comp != '..' or (not initial_slashes and not new_comps) or
                (new_comps and new_comps[-1] == '..')):
            new_comps.append(comp)
        elif new_comps:
            new_comps.pop()
    path = '/'.join(new_comps)
    if initial_slashes: path = '/' * initial_slashes + path
    return path or '.'
    >> *)

Definition normpath_step (initial_slashes : nat) (new_comps : list string)
    (comp : string) : list string :=
  if bool_decide (comp = "" ∨ comp = ".") then new_comps
  else if bool_decide (comp ≠ "..")
          || (bool_decide (initial_slashes = 0%nat) && bool_decide (new_comps = []))
          || bool_decide (last new_comps = Some "..")
  then new_comps ++ [comp]
  else match new_comps with
       | [] => new_comps
       | _ :: _ => removelast new_comps
       end.

Definition initial_slashes_of (path : string) : nat :=
  if startswith "/" path then
    if startswith "//" path && negb (startswith "///" path) then 2%nat else 1%nat
  else 0%nat.

Definition normpath (path : string) : string :=
  if bool_decide (path = "") then "."
  else
    let initial_slashes := initial_slashes_of path in
    let new_comps :=
      fold_left (normpath_step initial_slashes) (split "/" path) [] in
    let path := repeat_str "/" initial_slashes +:+ join "/" new_comps in
    if bool_decide (path = "") then "." else path.

(** The three-way choice both [clean_path]s share:
    <<
    if not path.startswith('/workspace'):
        if path.startswith('/'): path = '/workspace' + path
        else:                    path = '/workspace/' + path
    >> *)
Definition reparent (path : string) : string :=
  if startswith "/workspace" path then path
  else if startswith "/" path then "/workspace" +:+ path
  else "/workspace/" +:+ path.

(** ** [LocalSandboxToolsBase.clean_path] (local_tool_base.py) *)
Module ToolBase.
Definition clean_path (path : string) : string :=
    if bool_decide (path = "") then "/workspace"
    else
      let path := strip_dangerous path in
      let path := normpath path in
      let path := reparent path in
      collapse_slashes path.

(** [validate_path]: the check the tool primitives run on the cleaned
      path before dispatching. ['..' in path] is a substring test. *)
Fixpoint contains (needle s : string) : bool :=
    startswith needle s ||
    match s with
    | EmptyString => false
    | String _ s' => contains needle s'
    end.

Definition validate_path (path : string) : bool :=
    if bool_decide (path = "") then false
    else if contains ".." path || startswith "~" path then false
    else if negb (startswith "/workspace" (normpath path)) then false
    else true.
End ToolBase.

(** ** [clean_path] of the HTTP router (local_api.py)

    [urllib.parse.unquote] is a function of the Python standard library;
    the results below hold for whatever string it returns. *)
Module Api.
Section WithUnquote.
Variable unquote : string → string.

Definition clean_path (path : string) : string :=
      if bool_decide (path = "") then "/workspace"
      else
        let path := unquote path in
        let path := normpath path in
        reparent path.
End WithUnquote.
End Api.

(** The components of a path: what lies between its slashes. A [..]
    token of a path is a component equal to [".."]. *)
Definition components (path : string) : list string := split "/" path.

(** [c in s] for a character. *)
Fixpoint has_char (c : ascii) (s : string) : bool :=
  match s with
  | EmptyString => false
  | String a s' => bool_decide (a = c) || has_char c s'
  end.

(** A component [normpath] keeps for an absolute path. *)
Definition resolved (x : string) : Prop := x ≠ ".." ∧ has_char "/" x = false.

(** A path that climbs above its start: normalised, it begins with a
    [..] component. Only a relative path can. *)
Definition climbs (path : string) : Prop :=
  head (components (normpath path)) = Some "..".

End Paths.

(* ===================================================================== *)
(** * Exceptions and results                                              *)
(* ===================================================================== *)

(** The exception classes the sources raise or catch. [DockerNotFound] is
    [docker.errors.NotFound]; [DockerAPIError] stands for every other
    error of the engine client. All of them are subclasses of Python's
    [Exception]. *)
Inductive exn : Type :=
| ValueError (msg : string)
| RuntimeError (msg : string)
| KeyError (key : string)
| IndexError (msg : string)
| TypeError (msg : string)
| DockerNotFound (msg : string)
| DockerAPIError (msg : string).

(** [str(e)] *)
Definition str_of_exn (e : exn) : string :=
  match e with
  | ValueError msg | RuntimeError msg | IndexError msg | TypeError msg
  | DockerNotFound msg | DockerAPIError msg => msg
  | KeyError key => "'" +:+ key +:+ "'"
  end.

Definition is_ValueError (e : exn) : bool :=
  match e with ValueError _ => true | _ => false end.

Definition is_DockerNotFound (e : exn) : bool :=
  match e with DockerNotFound _ => true | _ => false end.

(** How a call ends: it returns, it raises, or the bounded model of one
    of its loops ran out of iterations ([OutOfFuel], which the results on
    the readiness probe show never to happen). *)
Inductive result (A : Type) : Type :=
| Ok (a : A)
| Raise (e : exn)
| OutOfFuel.
Arguments Ok {A} a.
Arguments Raise {A} e.
Arguments OutOfFuel {A}.

(* ===================================================================== *)
(** * The port manager                                                    *)
(* ===================================================================== *)

Module Ports.

(** [self.port_ranges] is a dict, iterated in insertion order: an
    association list from role to the inclusive pair (start, end).
    [self.allocated_ports] is a set of integers. *)
Record PortManager : Type := {
  allocated_ports : gset Z;
  port_ranges : list (string * (Z * Z));
}.

(** [PortManager.__init__] *)
Definition PortManager_init : PortManager :=
  {| allocated_ports := ∅;
     port_ranges := [ ("vnc", (15901, 16000));
                      ("novnc", (16080, 16179));
                      ("browser_api", (17788, 17887));
                      ("file_server", (18080, 18179)) ] |}.

(** [range(start, end + 1)] *)
Definition range_inclusive (start end_ : Z) : list Z :=
  seqZ start (end_ + 1 - start).

(** The inner [for port in range(start, end + 1)] with its [break]: the
    first port of the range that is not allocated, if any. *)
Definition first_free (allocated : gset Z) (start end_ : Z) : option Z :=
  snd <$> list_find (λ port, port ∉ allocated) (range_inclusive start end_).

(** The outer [for service, (start, end) in self.port_ranges.items()].
    Each port found is added to the set at once; the [else] of the inner
    loop raises, and nothing is undone on that path. *)
Fixpoint allocate_loop (ranges : list (string * (Z * Z)))
    (allocated : gset Z) (ports : gmap string Z)
    : result (gmap string Z) * gset Z :=
  match ranges with
  | [] => (Ok ports, allocated)
  | (service, (start, end_)) :: rest =>
      match first_free allocated start end_ with
      | Some port =>
          allocate_loop rest ({[port]} ∪ allocated) (<[service := port]> ports)
      | None =>
          (Raise (RuntimeError ("No available ports for service " +:+ service)),
           allocated)
      end
  end.

(** [PortManager.allocate_ports]: [project_id] only feeds the log line. *)
Definition allocate_ports (project_id : string) (pm : PortManager)
    : result (gmap string Z) * PortManager :=
  let '(r, allocated) := allocate_loop (port_ranges pm) (allocated_ports pm) ∅ in
  (r, {| allocated_ports := allocated; port_ranges := port_ranges pm |}).

(** [PortManager.release_ports]: [discard] every value of the dict. *)
Definition release_ports (ports : gmap string Z) (pm : PortManager) : PortManager :=
  {| allocated_ports :=
       foldr (λ port allocated, allocated ∖ {[port]}) (allocated_ports pm)
             (snd <$> map_to_list ports);
     port_ranges := port_ranges pm |}.

(** The four roles of a sandbox. *)
Definition roles : list string := ["vnc"; "novnc"; "browser_api"; "file_server"].

(** [n] successful calls of [allocate_ports] in a row; the ports handed out
    are forgotten, as when their sandboxes stay alive. *)
Fixpoint allocate_many (n : nat) (pm : PortManager) : PortManager :=
  match n with
  | O => pm
  | S n' => allocate_many n' (snd (allocate_ports "p" pm))
  end.

End Ports.

(* ===================================================================== *)
(** * The container engine and the world the manager runs in              *)
(* ===================================================================== *)

Module Engine.

(** One entry of a list under [attrs['NetworkSettings']['Ports'][key]].
    The engine reports [HostPort] as a decimal string and the code reads it
    through [int(...)]; the integer is kept here. *)
Record HostBinding : Type := {
  HostIp : string;
  HostPort : Z;
}.

(** What the engine knows of a container, which is also what a client
    handle caches between two [reload()]s. [network_ports] is the table
    [attrs['NetworkSettings']['Ports']] in the order of its items; a value
    [None] of that table is the empty list here (the code only tests its
    truth value). *)
Record Container : Type := {
  id : string;
  name : string;
  status : string;
  labels : gmap string string;
  network_ports : list (string * list HostBinding);
}.

(** The keyword arguments of [containers.run] that the engine model acts
    on; the fixed ones (shm_size, cap_add, ...) are left out. *)
Record RunSpec : Type := {
  spec_image : string;
  spec_name : string;
  spec_ports : list (string * Z);
  spec_environment : list (string * string);
  spec_volumes : list (string * string);
  spec_network : string;
  spec_labels : gmap string string;
}.

(** [ExecResult] of the engine client. *)
Record ExecResult : Type := {
  exit_code : Z;
  output : string;
}.

(** Every call that leaves the process, in the order made. *)
Inductive Event : Type :=
| EvGet (container_name : string)
| EvList (label : string)
| EvRun (container_name : string)
| EvReload (container_id : string)
| EvStart (container_id : string)
| EvStop (container_id : string)
| EvRemove (container_id : string)
| EvVolumeGet (volume : string)
| EvVolumeCreate (volume : string)
| EvVolumeRemove (volume : string)
| EvExec (container_id command workdir : string)
| EvSleep (seconds : Z).

Definition is_exec (ev : Event) : bool :=
  match ev with EvExec _ _ _ => true | _ => false end.

(** [datetime]: naive (as [datetime.now()] gives) or carrying an offset,
    with the instant in microseconds. Ordering a naive against an aware
    one raises [TypeError]. *)
Inductive datetime : Type :=
| Naive (us : Z)
| Aware (us : Z).

(** What the code does not decide. Each function sees the history of
    calls so far (newest first), so its answers may change over time.
    - [fault]: whether an engine call fails for a reason of the engine's
      own (daemon unreachable, image missing, host port taken, ...);
    - [exec_reply], [exec_took]: what a command run inside a container
      answers (an exception of the client or a result), and how long it
      takes (microseconds);
    - [sleep_lag]: how much longer than asked a sleep lasts;
    - [fromisoformat], [isoformat]: the two [datetime] conversions of the
      Python standard library; [None] is [ValueError]. *)
Record Env : Type := {
  fault : list Event → option string;
  exec_reply : list Event → exn + ExecResult;
  exec_took : list Event → N;
  sleep_lag : list Event → N;
  fromisoformat : string → option datetime;
  isoformat : datetime → string;
}.

(** The engine's own state. *)
Record State : Type := {
  engine_containers : list Container;
  engine_volumes : gset string;
  next_id : nat;
}.

End Engine.

Module Manager.
Import Ports Engine.

(** [SandboxConfig] *)
Record SandboxConfig : Type := {
  project_id : string;
  vnc_password : string;
  resolution : string;
  cpu_limit : Z;
  memory_limit : string;
  disk_limit : string;
  auto_stop_hours : Z;
}.

(** [SandboxConfig(project_id=project_id)] *)
Definition default_config (project_id : string) : SandboxConfig :=
  {| project_id := project_id; vnc_password := "vncpassword";
     resolution := "1024x768x24"; cpu_limit := 2; memory_limit := "4g";
     disk_limit := "10g"; auto_stop_hours := 24 |}.

(** A value of [self.containers]. [container] is the client handle: the
    snapshot taken at the last [reload()]. *)
Record Entry : Type := {
  container : Container;
  ports : gmap string Z;
  config : SandboxConfig;
  created_at : datetime;
  volume_name : string;
}.

Inductive Level : Type := WARNING | ERROR.

(** The dict [get_sandbox] returns. *)
Record SandboxView : Type := {
  view_id : string;
  view_name : string;
  view_status : string;
  view_ports : gmap string (Z * Z);
  view_created_at : string;
  view_config : SandboxConfig;
  view_urls : gmap string string;
}.

(** [LocalWorkspace] of the adapter, built from such a dict. *)
Record LocalWorkspace : Type := {
  ws_id : string;
  ws_name : string;
  ws_project_id : string;
  ws_status : string;
  ws_created_at : string;
  ws_urls : gmap string string;
  ws_ports : gmap string (Z * Z);
  _sandbox_info : SandboxView;
}.

(** The process and what surrounds it: the manager's two attributes, the
    adapter's cache, the engine, the clock ([time.time()], microseconds),
    the calls made so far (newest first) and the warnings and errors
    logged (newest first; [info] and [debug] lines are not kept). *)
Record World : Type := {
  containers : gmap string Entry;
  port_manager : PortManager;
  workspaces_cache : gmap string LocalWorkspace;
  engine : State;
  env : Env;
  clock : Z;
  history : list Event;
  log : list (Level * string);
}.

Definition set_containers (f : gmap string Entry → gmap string Entry) (w : World) : World :=
  {| containers := f (containers w); port_manager := port_manager w;
     workspaces_cache := workspaces_cache w; engine := engine w; env := env w;
     clock := clock w; history := history w; log := log w |}.

Definition set_port_manager (f : PortManager → PortManager) (w : World) : World :=
  {| containers := containers w; port_manager := f (port_manager w);
     workspaces_cache := workspaces_cache w; engine := engine w; env := env w;
     clock := clock w; history := history w; log := log w |}.

Definition set_workspaces_cache
    (f : gmap string LocalWorkspace → gmap string LocalWorkspace) (w : World) : World :=
  {| containers := containers w; port_manager := port_manager w;
     workspaces_cache := f (workspaces_cache w); engine := engine w; env := env w;
     clock := clock w; history := history w; log := log w |}.

Definition set_engine (f : State → State) (w : World) : World :=
  {| containers := containers w; port_manager := port_manager w;
     workspaces_cache := workspaces_cache w; engine := f (engine w); env := env w;
     clock := clock w; history := history w; log := log w |}.

Definition set_clock (f : Z → Z) (w : World) : World :=
  {| containers := containers w; port_manager := port_manager w;
     workspaces_cache := workspaces_cache w; engine := engine w; env := env w;
     clock := f (clock w); history := history w; log := log w |}.

Definition set_history (f : list Event → list Event) (w : World) : World :=
  {| containers := containers w; port_manager := port_manager w;
     workspaces_cache := workspaces_cache w; engine := engine w; env := env w;
     clock := clock w; history := f (history w); log := log w |}.

Definition set_log (f : list (Level * string) → list (Level * string)) (w : World) : World :=
  {| containers := containers w; port_manager := port_manager w;
     workspaces_cache := workspaces_cache w; engine := engine w; env := env w;
     clock := clock w; history := history w; log := f (log w) |}.

(** ** The monad of calls: state passing over [World], three endings *)

Definition M (A : Type) : Type := World → result A * World.

#[export] Instance M_ret : MRet M := λ A a w, (Ok a, w).

#[export] Instance M_bind : MBind M := λ A B k m w,
  match m w with
  | (Ok a, w') => k a w'
  | (Raise e, w') => (Raise e, w')
  | (OutOfFuel, w') => (OutOfFuel, w')
  end.

Definition raise {A} (e : exn) : M A := λ w, (Raise e, w).

Definition out_of_fuel {A} : M A := λ w, (OutOfFuel, w).

(** [try: body  except Exception as e: handler e] *)
Definition try_except {A} (body : M A) (handler : exn → M A) : M A := λ w,
  match body w with
  | (Raise e, w') => handler e w'
  | other => other
  end.

Definition gets {A} (f : World → A) : M A := λ w, (Ok (f w), w).

Definition modify (f : World → World) : M unit := λ w, (Ok tt, f w).

(** [logger.warning(msg)], [logger.error(msg)] *)
Definition logger (lvl : Level) (msg : string) : M unit :=
  modify (set_log (cons (lvl, msg))).

(** [d[key]] on a dict: [KeyError] when absent. *)
Definition getitem {V} (d : gmap string V) (key : string) : M V :=
  match d !! key with
  | Some v => mret v
  | None => raise (KeyError key)
  end.

(** [l[i]] on a list: [IndexError] when out of range. *)
Definition getindex (l : list string) (i : nat) : M string :=
  match l !! i with
  | Some v => mret v
  | None => raise (IndexError "list index out of range")
  end.

(** [time.time()] *)
Definition time_time : M Z := gets clock.

(** [datetime.now()] *)
Definition datetime_now : M datetime := gets (λ w, Naive (clock w)).

(** [await asyncio.sleep(seconds)]: the clock moves by the time asked and
    by the lag the surroundings add. *)
Definition sleep (seconds : Z) : M unit := λ w,
  let h := EvSleep seconds :: history w in
  (Ok tt,
   set_clock (λ t, t + seconds * 1000000 + Z.of_N (sleep_lag (env w) h))
     (set_history (λ _, h) w)).

(** ** Engine calls

    Each call is recorded, may fail by [fault], and otherwise acts on the
    engine's state as the engine documents. *)
Definition engine_call (ev : Event) : M unit := λ w,
  let h := ev :: history w in
  match fault (env w) h with
  | Some msg => (Raise (DockerAPIError msg), set_history (λ _, h) w)
  | None => (Ok tt, set_history (λ _, h) w)
  end.

Definition find_by_name (nm : string) (cs : list Container) : option Container :=
  snd <$> list_find (λ c, name c = nm) cs.

Definition find_by_id (cid : string) (cs : list Container) : option Container :=
  snd <$> list_find (λ c, id c = cid) cs.

(** [self.docker.containers.get(name)] *)
Definition containers_get (nm : string) : M Container :=
  engine_call (EvGet nm);;
  cs ← gets (λ w, engine_containers (engine w));
  match find_by_name nm cs with
  | Some c => mret c
  | None => raise (DockerNotFound ("No such container: " +:+ nm))
  end.

(** [self.docker.containers.list(all=True, filters={'label': key})] *)
Definition containers_list (key : string) : M (list Container) :=
  engine_call (EvList key);;
  cs ← gets (λ w, engine_containers (engine w));
  mret (filter (λ c, is_Some (labels c !! key)) cs).

(** [container.reload()]: the refreshed handle. *)
Definition reload (c : Container) : M Container :=
  engine_call (EvReload (id c));;
  cs ← gets (λ w, engine_containers (engine w));
  match find_by_id (id c) cs with
  | Some c' => mret c'
  | None => raise (DockerNotFound ("No such container: " +:+ id c))
  end.

Definition with_status (st : string) (c : Container) : Container :=
  {| id := id c; name := name c; status := st; labels := labels c;
     network_ports := network_ports c |}.

Definition update_container (cid : string) (f : Container → Container) (s : State) : State :=
  {| engine_containers :=
       (λ c, if bool_decide (id c = cid) then f c else c) <$> engine_containers s;
     engine_volumes := engine_volumes s; next_id := next_id s |}.

Definition drop_container (cid : string) (s : State) : State :=
  {| engine_containers := filter (λ c, id c ≠ cid) (engine_containers s);
     engine_volumes := engine_volumes s; next_id := next_id s |}.

Definition known (c : Container) : M unit :=
  cs ← gets (λ w, engine_containers (engine w));
  match find_by_id (id c) cs with
  | Some _ => mret tt
  | None => raise (DockerNotFound ("No such container: " +:+ id c))
  end.

(** [container.start()] *)
Definition container_start (c : Container) : M unit :=
  engine_call (EvStart (id c));; known c;;
  modify (set_engine (update_container (id c) (with_status "running"))).

(** [container.stop()] *)
Definition container_stop (c : Container) : M unit :=
  engine_call (EvStop (id c));; known c;;
  modify (set_engine (update_container (id c) (with_status "exited"))).

(** [container.remove(force=True)] *)
Definition container_remove (c : Container) : M unit :=
  engine_call (EvRemove (id c));; known c;;
  modify (set_engine (drop_container (id c))).

(** [self.docker.volumes.get(name)] *)
Definition volumes_get (v : string) : M string :=
  engine_call (EvVolumeGet v);;
  vs ← gets (λ w, engine_volumes (engine w));
  if bool_decide (v ∈ vs) then mret v
  else raise (DockerNotFound ("No such volume: " +:+ v)).

Definition set_volumes (f : gset string → gset string) (s : State) : State :=
  {| engine_containers := engine_containers s;
     engine_volumes := f (engine_volumes s); next_id := next_id s |}.

(** [self.docker.volumes.create(name)] *)
Definition volumes_create (v : string) : M unit :=
  engine_call (EvVolumeCreate v);;
  modify (set_engine (set_volumes (λ vs, {[v]} ∪ vs))).

(** [volume.remove()] *)
Definition volume_remove (v : string) : M unit :=
  engine_call (EvVolumeRemove v);;
  vs ← gets (λ w, engine_volumes (engine w));
  if bool_decide (v ∈ vs)
  then modify (set_engine (set_volumes (λ vs, vs ∖ {[v]})))
  else raise (DockerNotFound ("No such volume: " +:+ v)).

(** The engine after [container.start()] succeeded on the container just
    created under the name of [c]: that container is [c], running. *)
Definition started (c : Container) (s : State) : State :=
  {| engine_containers :=
       (λ x, if bool_decide (name x = name c) then c else x) <$> engine_containers s;
     engine_volumes := engine_volumes s; next_id := next_id s |}.

(** [self.docker.containers.run(..., detach=True)] with the container
    configuration. The client creates the container, then starts it. The
    engine refuses a name already in use, and then nothing is created. A
    start that the engine refuses (a host port that is already bound, say)
    raises and leaves the created container in the engine: it does not
    run and publishes nothing. Otherwise the container runs and publishes
    the ports asked for. *)
Definition containers_run (spec : RunSpec) : M Container :=
  engine_call (EvRun (spec_name spec));;
  s ← gets engine;
  match find_by_name (spec_name spec) (engine_containers s) with
  | Some _ =>
      raise (DockerAPIError
               ("Conflict. The container name " +:+ spec_name spec
                +:+ " is already in use"))
  | None =>
      let c := {| id := "c" +:+ pretty (next_id s);
                  name := spec_name spec;
                  status := "running";
                  labels := spec_labels spec;
                  network_ports :=
                    (λ '(internal, host),
                       (internal, [ {| HostIp := "0.0.0.0"; HostPort := host |} ]))
                    <$> spec_ports spec |} in
      let created := {| id := id c; name := name c; status := "created";
                        labels := labels c; network_ports := [] |} in
      modify (set_engine (λ s,
        {| engine_containers := engine_containers s ++ [created];
           engine_volumes := engine_volumes s;
           next_id := S (next_id s) |}));;
      engine_call (EvStart (id c));;
      modify (set_engine (started c));;
      mret c
  end.

(** [container.exec_run(command, workdir=workdir)]: what happens inside
    the container is the surroundings' to say. *)
Definition exec_run (c : Container) (command workdir : string) : M ExecResult := λ w,
  let h := EvExec (id c) command workdir :: history w in
  (match exec_reply (env w) h with inl e => Raise e | inr r => Ok r end,
   set_clock (λ t, t + Z.of_N (exec_took (env w) h)) (set_history (λ _, h) w)).


(** ** [LocalSandboxManager] *)

(** [_format_ports]: role to (internal port, external port). *)
Definition internal_port_of (service : string) : Z :=
  default 8000
    (({[ "vnc" := 5901; "novnc" := 6080;
         "browser_api" := 7788; "file_server" := 8080 ]} : gmap string Z)
       !! service).

Definition _format_ports (ports : gmap string Z) : gmap string (Z * Z) :=
  map_imap (λ service port, Some (internal_port_of service, port)) ports.

(** [_generate_service_urls]: subscripts the dict four times, so a dict
    that lacks a role raises [KeyError]. *)
Definition _generate_service_urls (ports : gmap string Z) : M (gmap string string) :=
  vnc ← getitem ports "vnc";
  novnc ← getitem ports "novnc";
  browser_api ← getitem ports "browser_api";
  file_server ← getitem ports "file_server";
  mret ({[ "vnc" := "vnc://localhost:" +:+ pretty vnc;
           "novnc" := "http://localhost:" +:+ pretty novnc;
           "browser_api" := "http://localhost:" +:+ pretty browser_api;
           "file_server" := "http://localhost:" +:+ pretty file_server ]}).

(** [_extract_ports_from_container] *)
Definition port_mapping : gmap string string :=
  {[ "5901/tcp" := "vnc"; "6080/tcp" := "novnc";
     "7788/tcp" := "browser_api"; "8080/tcp" := "file_server" ]}.

Definition extract_step (ports : gmap string Z)
    (item : string * list HostBinding) : gmap string Z :=
  let '(internal_port, bindings) := item in
  match bindings, port_mapping !! internal_port with
  | b :: _, Some service_name => <[service_name := HostPort b]> ports
  | _, _ => ports
  end.

Definition _extract_ports_from_container (c : Container) : gmap string Z :=
  fold_left extract_step (network_ports c) ∅.

Definition with_container (c : Container) (e : Entry) : Entry :=
  {| container := c; ports := ports e; config := config e;
     created_at := created_at e; volume_name := volume_name e |}.

(** The first branch of [get_sandbox], [if project_id in self.containers].
    [container.reload()] refreshes the very handle the cache entry holds. *)
Definition get_sandbox_cached (project_id : string) (container_info : Entry)
    : M SandboxView :=
  c ← reload (container container_info);
  modify (set_containers (<[project_id := with_container c container_info]>));;
  e ← gets env;
  urls ← _generate_service_urls (ports container_info);
  mret {| view_id := id c; view_name := name c; view_status := status c;
          view_ports := _format_ports (ports container_info);
          view_created_at := isoformat e (created_at container_info);
          view_config := config container_info;
          view_urls := urls |}.

(** The [created_at] of a rebuilt entry:
    [datetime.fromisoformat(labels.get('suna.created_at', datetime.now().isoformat()))] *)
Definition recovered_created_at (c : Container) : M datetime :=
  now ← datetime_now;
  e ← gets env;
  let text := default (isoformat e now) (labels c !! "suna.created_at") in
  match fromisoformat e text with
  | Some d => mret d
  | None => raise (ValueError ("Invalid isoformat string: '" +:+ text +:+ "'"))
  end.

(** The second half of [get_sandbox]: look the container up by name and
    rebuild the cache entry from its labels. [Some] is the [return] inside
    the [try]; [None] is falling out of it, by the label test or by
    [except docker.errors.NotFound: pass]. The call
    [await self.get_sandbox(project_id)] made after the entry is stored
    takes the first branch, which is called here directly. *)
Definition get_sandbox_recover (project_id : string) : M (option SandboxView) :=
  try_except
    (c ← containers_get ("suna-sandbox-" +:+ project_id);
     if bool_decide (labels c !! "suna.project_id" = Some project_id) then
       let ports := _extract_ports_from_container c in
       let config := default_config project_id in
       created ← recovered_created_at c;
       let container_info :=
         {| container := c; ports := ports; config := config;
            created_at := created;
            volume_name := "suna-workspace-" +:+ project_id |} in
       modify (set_containers (<[project_id := container_info]>));;
       view ← get_sandbox_cached project_id container_info;
       mret (Some view)
     else mret None)
    (λ e, if is_DockerNotFound e then mret None else raise e).

(** [LocalSandboxManager.get_sandbox] *)
Definition get_sandbox (project_id : string) : M SandboxView :=
  cs ← gets containers;
  match cs !! project_id with
  | Some container_info => get_sandbox_cached project_id container_info
  | None =>
      r ← get_sandbox_recover project_id;
      match r with
      | Some view => mret view
      | None =>
          raise (ValueError ("Sandbox for project " +:+ project_id +:+ " not found"))
      end
  end.

(** *** The readiness probe, [_wait_for_services] *)

Definition seconds (n : Z) : Z := n * 1000000.

(** The [try]/[except Exception] both loops wrap around their command:
    whether [container.exec_run(command, workdir="/")] came back with exit
    code 0; an exception counts as not ready. *)
Definition probe (c : Container) (command : string) : M bool :=
  try_except
    (r ← exec_run c command "/";
     mret (bool_decide (exit_code r = 0)))
    (λ _, mret false).

(** First loop: [while time.time() - start_time < 30], leaving by [break]
    once [pgrep supervisord] exits with 0. The value is [supervisord_ready].
    At most 15 sleeps of 2 seconds fit in the 30 seconds, so 16 tests of
    the loop condition are always enough. *)
Fixpoint supervisord_loop (fuel : nat) (c : Container) (start_time : Z) : M bool :=
  match fuel with
  | O => out_of_fuel
  | S fuel' =>
      now ← time_time;
      if bool_decide (now - start_time < seconds 30) then
        ready ← probe c "pgrep supervisord";
        if (ready : bool) then mret true
        else sleep 2;; supervisord_loop fuel' c start_time
      else mret false
  end.

(** [services_to_check], in the order of the dict literal. *)
Definition services_to_check : list (string * Z) :=
  [ ("vnc", 5901); ("novnc", 6080); ("file_server", 8080); ("browser_api", 7788) ].

Definition probe_command (port : Z) : string := "nc -z localhost " +:+ pretty port.

(** The [for service, port in services_to_check.items()] of one round.
    [services_ready] is the dict of the roles found ready, as the list of
    its keys; the second component is [all_ready]. *)
Fixpoint probe_round (c : Container) (to_check : list (string * Z))
    (services_ready : list string) (all_ready : bool) : M (list string * bool) :=
  match to_check with
  | [] => mret (services_ready, all_ready)
  | (service, port) :: rest =>
      if bool_decide (service ∉ services_ready) then
        ok ← probe c (probe_command port);
        if (ok : bool) then probe_round c rest (services_ready ++ [service]) all_ready
        else probe_round c rest services_ready false
      else probe_round c rest services_ready all_ready
  end.

(** [repr] of a list of role names, as an f-string prints it. *)
Definition repr_list (l : list string) : string :=
  "[" +:+ Paths.join ", " ((λ s, "'" +:+ s +:+ "'") <$> l) +:+ "]".

Definition timeout_message (services_ready : list string) : string :=
  let missing_services :=
    filter (λ s, s ∉ services_ready) (fst <$> services_to_check) in
  "Timeout waiting for services. Ready: " +:+ repr_list services_ready
  +:+ ", Missing: " +:+ repr_list missing_services.

(** Second loop: [while time.time() - start_time < timeout], with its
    [break] when a round found every role ready and its [else] when the
    time is up. Every round that does not break sleeps 3 seconds. *)
Fixpoint services_loop (fuel : nat) (c : Container) (start_time timeout : Z)
    (services_ready : list string) : M unit :=
  match fuel with
  | O => out_of_fuel
  | S fuel' =>
      now ← time_time;
      if bool_decide (now - start_time < seconds timeout) then
        '(services_ready, all_ready) ←
          probe_round c services_to_check services_ready true;
        if (all_ready : bool) then mret tt
        else sleep 3;; services_loop fuel' c start_time timeout services_ready
      else logger WARNING (timeout_message services_ready)
  end.

(** [_wait_for_services(container, timeout)] *)
Definition _wait_for_services (c : Container) (timeout : Z) : M unit :=
  start_time ← time_time;
  supervisord_ready ← supervisord_loop 16 c start_time;
  (if (supervisord_ready : bool) then mret tt
   else logger WARNING "Supervisord may not be running properly");;
  services_loop (Z.to_nat (timeout / 3) + 2) c start_time timeout [];;
  sleep 5.

(** *** [create_sandbox] *)

(** The [container_config] dict. Building it subscripts [ports] and the
    split resolution, and reads the clock twice for the labels. *)
Definition container_config (config : SandboxConfig) (container_name volume_name : string)
    (ports : gmap string Z) : M RunSpec :=
  vnc ← getitem ports "vnc";
  novnc ← getitem ports "novnc";
  browser_api ← getitem ports "browser_api";
  file_server ← getitem ports "file_server";
  width ← getindex (Paths.split "x" (resolution config)) 0;
  height ← getindex (Paths.split "x" (resolution config)) 1;
  e ← gets env;
  created ← datetime_now;
  now ← datetime_now;
  let auto_stop_at :=
    match now with
    | Naive t | Aware t => Naive (t + seconds (auto_stop_hours config * 3600))
    end in
  mret {| spec_image := "local-suna-sandbox:latest";
          spec_name := container_name;
          spec_ports := [ ("5901/tcp", vnc); ("6080/tcp", novnc);
                          ("7788/tcp", browser_api); ("8080/tcp", file_server) ];
          spec_environment :=
            [ ("VNC_PASSWORD", vnc_password config);
              ("RESOLUTION", resolution config);
              ("RESOLUTION_WIDTH", width);
              ("RESOLUTION_HEIGHT", height);
              ("WORKSPACE_PATH", "/workspace");
              ("DISPLAY", ":99");
              ("PYTHONUNBUFFERED", "1");
              ("CHROME_PERSISTENT_SESSION", "true");
              ("ANONYMIZED_TELEMETRY", "false") ];
          spec_volumes := [ (volume_name, "/workspace") ];
          spec_network := "suna-sandbox-network";
          spec_labels :=
            {[ "suna.project_id" := project_id config;
               "suna.created_at" := isoformat e created;
               "suna.auto_stop_at" := isoformat e auto_stop_at ]} |}.

(** [self.port_manager.allocate_ports(project_id)] on the world. *)
Definition port_manager_allocate (project_id : string) : M (gmap string Z) := λ w,
  let '(r, pm) := allocate_ports project_id (port_manager w) in
  (r, set_port_manager (λ _, pm) w).

(** The [try] of [create_sandbox] up to the readiness probe: volume,
    configuration, [containers.run], [_wait_for_services]. *)
Definition create_sandbox_launch (config : SandboxConfig) (container_name : string)
    (ports : gmap string Z) : M Container :=
  let volume_name := "suna-workspace-" +:+ project_id config in
  try_except (volumes_get volume_name;; mret tt)
    (λ e, if is_DockerNotFound e then volumes_create volume_name else raise e);;
  spec ← container_config config container_name volume_name ports;
  c ← containers_run spec;
  _wait_for_services c 120;;
  mret c.

(** The whole body of that [try]: then the cache entry is stored and the
    container id returned. *)
Definition create_sandbox_try (config : SandboxConfig) (container_name : string)
    (ports : gmap string Z) : M string :=
  let project_id := project_id config in
  c ← create_sandbox_launch config container_name ports;
  now ← datetime_now;
  modify (set_containers
            (<[project_id := {| container := c; ports := ports; config := config;
                                created_at := now;
                                volume_name := "suna-workspace-" +:+ project_id |}]>));;
  mret (id c).

(** [LocalSandboxManager.create_sandbox] *)
Definition create_sandbox (config : SandboxConfig) : M string :=
  let project_id := project_id config in
  let container_name := "suna-sandbox-" +:+ project_id in
  cs ← gets containers;
  if bool_decide (is_Some (cs !! project_id)) then
    raise (ValueError ("Sandbox for project " +:+ project_id +:+ " already exists"))
  else
    ports ← port_manager_allocate project_id;
    try_except (create_sandbox_try config container_name ports)
      (λ e,
         modify (set_port_manager (release_ports ports));;
         logger ERROR ("Failed to create sandbox for project " +:+ project_id
                       +:+ ": " +:+ str_of_exn e);;
         raise e).

(** The engine's half of [delete_sandbox]: stop (any exception
    swallowed by the bare [except]), remove with force, then remove the
    volume unless it is not found. *)
Definition delete_sandbox_engine (container_info : Entry) : M unit :=
  let c := container container_info in
  try_except (container_stop c) (λ _, mret tt);;
  container_remove c;;
  try_except
    (volume ← volumes_get (volume_name container_info);
     volume_remove volume)
    (λ e, if is_DockerNotFound e then mret tt else raise e).

(** [LocalSandboxManager.delete_sandbox] *)
Definition delete_sandbox (project_id : string) : M unit :=
  cs ← gets containers;
  match cs !! project_id with
  | Some container_info =>
      delete_sandbox_engine container_info;;
      modify (set_port_manager (release_ports (ports container_info)));;
      modify (set_containers (delete project_id))
  | None =>
      raise (ValueError ("Sandbox for project " +:+ project_id +:+ " not found"))
  end.

(** [LocalSandboxManager.stop_sandbox] *)
Definition stop_sandbox (project_id : string) : M unit :=
  cs ← gets containers;
  match cs !! project_id with
  | Some container_info => container_stop (container container_info)
  | None =>
      raise (ValueError ("Sandbox for project " +:+ project_id +:+ " not found"))
  end.

(** [LocalSandboxManager.start_sandbox]: the handle read after
    [get_sandbox] is the one it has just reloaded. *)
Definition start_sandbox (project_id : string) : M unit :=
  sandbox_info ← get_sandbox project_id;
  cs ← gets containers;
  container_info ← getitem cs project_id;
  let c := container container_info in
  if bool_decide (status c ≠ "running") then
    container_start c;;
    _wait_for_services c 120
  else mret tt.

(** *** [cleanup_expired_sandboxes] *)

(** [current_time > auto_stop_at] *)
Definition datetime_gt (a b : datetime) : M bool :=
  match a, b with
  | Naive x, Naive y | Aware x, Aware y => mret (bool_decide (x > y))
  | _, _ => raise (TypeError "can't compare offset-naive and offset-aware datetimes")
  end.

(** The first [for container in containers]. *)
Fixpoint collect_expired (current_time : datetime) (cs : list Container)
    (expired_projects : list string) : M (list string) :=
  match cs with
  | [] => mret expired_projects
  | c :: rest =>
      match labels c !! "suna.auto_stop_at" with
      | Some auto_stop_at_str =>
          if bool_decide (auto_stop_at_str ≠ "") then
            e ← gets env;
            match fromisoformat e auto_stop_at_str with
            | Some auto_stop_at =>
                past ← datetime_gt current_time auto_stop_at;
                match past, labels c !! "suna.project_id" with
                | true, Some project_id =>
                    if bool_decide (project_id ≠ "")
                    then collect_expired current_time rest (expired_projects ++ [project_id])
                    else collect_expired current_time rest expired_projects
                | _, _ => collect_expired current_time rest expired_projects
                end
            | None =>
                logger WARNING ("Invalid auto_stop_at format: " +:+ auto_stop_at_str);;
                collect_expired current_time rest expired_projects
            end
          else collect_expired current_time rest expired_projects
      | None => collect_expired current_time rest expired_projects
      end
  end.

(** The second [for project_id in expired_projects]. *)
Fixpoint delete_expired (expired_projects : list string) : M unit :=
  match expired_projects with
  | [] => mret tt
  | project_id :: rest =>
      try_except (delete_sandbox project_id)
        (λ e, logger ERROR ("Failed to cleanup sandbox " +:+ project_id
                            +:+ ": " +:+ str_of_exn e));;
      delete_expired rest
  end.

(** [LocalSandboxManager.cleanup_expired_sandboxes] *)
Definition cleanup_expired_sandboxes : M unit :=
  current_time ← datetime_now;
  cs ← containers_list "suna.auto_stop_at";
  expired_projects ← collect_expired current_time cs [];
  delete_expired expired_projects.

(** [LocalSandboxManager.__init__] once the engine has answered: empty
    cache, fresh port manager. *)
Definition manager_init (s : State) (e : Env) (now : Z) : World :=
  {| containers := ∅; port_manager := PortManager_init; workspaces_cache := ∅;
     engine := s; env := e; clock := now; history := []; log := [] |}.

End Manager.

(* ===================================================================== *)
(** * The workspace adapter                                               *)
(* ===================================================================== *)

Module Adapter.
Import Ports Engine Manager.

(** [LocalWorkspace.__init__] *)
Definition LocalWorkspace_init (project_id : string) (sandbox_info : SandboxView)
    : LocalWorkspace :=
  {| ws_id := project_id;
     ws_name := "workspace-" +:+ project_id;
     ws_project_id := project_id;
     ws_status := view_status sandbox_info;
     ws_created_at := view_created_at sandbox_info;
     ws_urls := view_urls sandbox_info;
     ws_ports := view_ports sandbox_info;
     _sandbox_info := sandbox_info |}.

(** [LocalApiAdapter.get_workspace]: two handlers, [except ValueError]
    and [except Exception], and both return [None]. *)
Definition get_workspace (project_id : string) : M (option LocalWorkspace) :=
  try_except
    (sandbox_info ← get_sandbox project_id;
     let workspace := LocalWorkspace_init project_id sandbox_info in
     modify (set_workspaces_cache (<[project_id := workspace]>));;
     mret (Some workspace))
    (λ e,
       if is_ValueError e then mret None
       else
         logger ERROR ("Failed to get workspace for project " +:+ project_id
                       +:+ ": " +:+ str_of_exn e);;
         mret None).

(** The dict [execute_command] returns. *)
Record CommandResult : Type := {
  cr_exit_code : Z;
  cr_stdout : string;
  cr_stderr : string;
  cr_success : bool;
}.

(** The dict of every [except Exception as e] around a command. *)
Definition failure_of (e : exn) : CommandResult :=
  {| cr_exit_code := -1; cr_stdout := ""; cr_stderr := str_of_exn e;
     cr_success := false |}.

(** The dict of the branch [if container.status != 'running']. *)
Definition not_running (st : string) : CommandResult :=
  {| cr_exit_code := -1; cr_stdout := "";
     cr_stderr := "Container is not running (status: " +:+ st +:+ ")";
     cr_success := false |}.

(** The first four statements of the [try] of
    [LocalApiAdapter.execute_command]: resolve the project, take the handle
    from [self.sandbox_manager.containers[project_id]] and [reload()] it.
    The handle is the one of the cache entry, so the refreshed handle is
    stored back. *)
Definition inspect_container (project_id : string) : M Container :=
  sandbox_info ← get_sandbox project_id;
  cs ← gets containers;
  container_info ← getitem cs project_id;
  c ← reload (container container_info);
  modify (set_containers (<[project_id := with_container c container_info]>));;
  mret c.

(** The body of that [try]. [result.output] is taken as already decoded
    text. *)
Definition execute_command_try (project_id command workdir : string)
    : M CommandResult :=
  c ← inspect_container project_id;
  if bool_decide (status c ≠ "running") then
    logger WARNING ("Container " +:+ id c +:+ " is not running, status: "
                    +:+ status c);;
    mret (not_running (status c))
  else
    r ← exec_run c command workdir;
    mret {| cr_exit_code := exit_code r; cr_stdout := output r; cr_stderr := "";
            cr_success := bool_decide (exit_code r = 0) |}.

(** [LocalApiAdapter.execute_command] *)
Definition execute_command (project_id command workdir : string) : M CommandResult :=
  try_except (execute_command_try project_id command workdir)
    (λ e,
       logger ERROR ("Failed to execute command in workspace " +:+ project_id
                     +:+ ": " +:+ str_of_exn e);;
       mret (failure_of e)).

(** The two callers of the adapter, [LocalSandbox.execute_command]
    (local_sandbox.py) and [LocalSandboxToolsBase.execute_command]
    (local_tool_base.py). Each first makes sure of a sandbox, by a call
    whose only part here is that it returns or raises, then delegates
    inside a [try] whose handler builds the failure dict. *)
Section Callers.
Variable acquire_workspace : string → M unit.
Variable acquire_sandbox : string → M unit.

Definition sandbox_execute_command (project_id command workdir : string)
    : M CommandResult :=
  try_except
    (acquire_workspace project_id;;
     execute_command project_id command workdir)
    (λ e,
       logger ERROR ("Failed to execute command in sandbox " +:+ project_id
                     +:+ ": " +:+ str_of_exn e);;
       mret (failure_of e)).

Definition tool_execute_command (project_id command workdir : string)
    : M CommandResult :=
  try_except
    (acquire_sandbox project_id;;
     let workdir := Paths.ToolBase.clean_path workdir in
     sandbox_execute_command project_id command workdir)
    (λ e,
       logger ERROR ("Failed to execute command '" +:+ command +:+ "' in "
                     +:+ project_id +:+ ": " +:+ str_of_exn e);;
       mret (failure_of e)).
End Callers.

End Adapter.

(* ===================================================================== *)
(** * Concrete worlds                                                     *)
(* ===================================================================== *)

(** The worlds the examples below run in. *)
Module Scenario.
Import Ports Engine Manager.

(** The instants the scenario's calendar knows, in microseconds since the
    epoch, with their ISO texts. *)
Definition known_dates : list (string * Z) :=
  [ ("2024-01-01T00:00:00", 1704067200000000);
    ("2024-01-02T00:00:00", 1704153600000000);
    ("2026-11-04T00:00:00", 1793750400000000);
    ("2026-11-05T00:00:00", 1793836800000000);
    ("2030-01-01T00:00:00", 1893456000000000) ].

Definition scenario_fromisoformat (text : string) : option datetime :=
  Naive <$> (list_to_map known_dates : gmap string Z) !! text.

Definition scenario_isoformat (d : datetime) : string :=
  match d with
  | Naive t | Aware t =>
      default "1970-01-01T00:00:00"
        (fst <$> (snd <$> list_find (λ kv, snd kv = t) known_dates))
  end.

(** Quiet surroundings: the engine never fails of its own, every command
    exits with 0 at once, sleeps last exactly as asked. *)
Definition quiet_env : Env :=
  {| fault := λ _, None;
     exec_reply := λ _, inr {| exit_code := 0; output := "" |};
     exec_took := λ _, 0%N;
     sleep_lag := λ _, 0%N;
     fromisoformat := scenario_fromisoformat;
     isoformat := scenario_isoformat |}.

(** The same with the engine's daemon unreachable: every call fails. *)
Definition down_env : Env :=
  {| fault := λ _, Some "Error while fetching server API version: Connection refused";
     exec_reply := exec_reply quiet_env;
     exec_took := exec_took quiet_env;
     sleep_lag := sleep_lag quiet_env;
     fromisoformat := scenario_fromisoformat;
     isoformat := scenario_isoformat |}.

(** 2026-11-04T00:00:00 *)
Definition now : Z := 1793750400000000.

(** A sandbox container a manager created on 2024-01-01 for project [p1],
    due to stop a day later, still running. *)
Definition old_container : Container :=
  {| id := "4f2a"; name := "suna-sandbox-p1"; status := "running";
     labels := {[ "suna.project_id" := "p1";
                  "suna.created_at" := "2024-01-01T00:00:00";
                  "suna.auto_stop_at" := "2024-01-02T00:00:00" ]};
     network_ports :=
       [ ("5901/tcp", [ {| HostIp := "0.0.0.0"; HostPort := 15901 |} ]);
         ("6080/tcp", [ {| HostIp := "0.0.0.0"; HostPort := 16080 |} ]);
         ("7788/tcp", [ {| HostIp := "0.0.0.0"; HostPort := 17788 |} ]);
         ("8080/tcp", [ {| HostIp := "0.0.0.0"; HostPort := 18080 |} ]) ] |}.

Definition empty_engine : State :=
  {| engine_containers := []; engine_volumes := ∅; next_id := 0 |}.

Definition old_engine : State :=
  {| engine_containers := [old_container];
     engine_volumes := {[ "suna-workspace-p1" ]};
     next_id := 1 |}.

(** The same container with its volume gone. *)
Definition old_engine_no_volume : State :=
  {| engine_containers := [old_container]; engine_volumes := ∅; next_id := 1 |}.

(** A manager just started over an empty engine. *)
Definition fresh : World := manager_init empty_engine quiet_env now.

(** A manager just started (empty cache, no port allocated) over an engine
    that still holds [old_container]: the process was restarted. *)
Definition restarted : World := manager_init old_engine quiet_env now.

Definition restarted_no_volume : World :=
  manager_init old_engine_no_volume quiet_env now.

(** A manager started while the daemon is unreachable. *)
Definition unreachable : World := manager_init old_engine down_env now.

(** [fresh] after [create_sandbox] for [p1], and after [stop_sandbox]. *)
Definition created : World := snd (create_sandbox (default_config "p1") fresh).

Definition stopped : World := snd (stop_sandbox "p1" created).

(** Two more containers: one due to stop in 2030, one whose
    [suna.auto_stop_at] label is no timestamp. *)
Definition future_container : Container :=
  {| id := "77aa"; name := "suna-sandbox-p2"; status := "running";
     labels := {[ "suna.project_id" := "p2";
                  "suna.created_at" := "2026-11-04T00:00:00";
                  "suna.auto_stop_at" := "2030-01-01T00:00:00" ]};
     network_ports := [] |}.

Definition malformed_container : Container :=
  {| id := "88bb"; name := "suna-sandbox-p3"; status := "running";
     labels := {[ "suna.project_id" := "p3";
                  "suna.created_at" := "2026-11-04T00:00:00";
                  "suna.auto_stop_at" := "tomorrow" ]};
     network_ports := [] |}.

(** [created], two months later (2027-01-15), with those two containers
    beside the sandbox of [p1], which was due on 2026-11-05. *)
Definition mixed : World :=
  set_clock (λ _, 1800000000000000)
    (set_engine
       (λ s, {| engine_containers :=
                  engine_containers s ++ [future_container; malformed_container];
                engine_volumes := engine_volumes s;
                next_id := next_id s |})
       created).

End Scenario.

(* ===================================================================== *)
(** * The vocabulary of the properties                                    *)
(* ===================================================================== *)

Module Props.
Import Ports Engine Manager.

(** [preserves R m]: whatever the world, [m] leaves it [R]-related to the
    one it started in, however it ends. *)
Definition preserves {A} (R : relation World) (m : M A) : Prop :=
  ∀ w, R w (snd (m w)).

(** [keeps P m]: a world that satisfies [P] still does after [m],
    however [m] ends. *)
Definition keeps {A} (P : World → Prop) (m : M A) : Prop :=
  ∀ w, P w → P (snd (m w)).

(** [total m]: the call always ends, by returning or by raising. *)
Definition total {A} (m : M A) : Prop := ∀ w, fst (m w) ≠ OutOfFuel.

(** [returns m Q]: whenever [m] returns, its value satisfies [Q]. *)
Definition returns {A} (m : M A) (Q : A → Prop) : Prop :=
  ∀ w a, fst (m w) = Ok a → Q a.

(** The manager's own two attributes are as they were. *)
Definition same_manager (w w' : World) : Prop :=
  containers w' = containers w ∧ port_manager w' = port_manager w.

(** The port manager is as it was. *)
Definition same_port_manager (w w' : World) : Prop :=
  port_manager w' = port_manager w.

(** The surroundings answer by the same functions. *)
Definition same_env (w w' : World) : Prop := env w' = env w.

(** Calls were made since, none of them an exec. *)
Definition no_exec_since (w w' : World) : Prop :=
  ∃ new, history w' = new ++ history w ∧ Forall (λ ev, is_exec ev = false) new.

(** The engine holds the same containers, in the same states. *)
Definition same_engine_containers (w w' : World) : Prop :=
  engine_containers (engine w') = engine_containers (engine w).

(** ** Ports held by live sandboxes *)

(** The live sandbox [pid] holds host port [port] for [role]. A live
    sandbox is an entry of the manager's cache. *)
Definition holds (w : World) (pid role : string) (port : Z) : Prop :=
  ∃ e, containers w !! pid = Some e ∧ ports e !! role = Some port.

(** The declared inclusive ranges. *)
Definition in_declared_range (role : string) (port : Z) : Prop :=
  (role = "vnc" ∧ 15901 ≤ port ≤ 16000)
  ∨ (role = "novnc" ∧ 16080 ≤ port ≤ 16179)
  ∨ (role = "browser_api" ∧ 17788 ≤ port ≤ 17887)
  ∨ (role = "file_server" ∧ 18080 ≤ port ≤ 18179).

(** What holds of the ports along every run of creations and deletions:
    the ranges are the declared ones, and every port a live sandbox holds
    is in its role's range, is held once, and is marked allocated. *)
Record port_invariant (w : World) : Prop := {
  inv_ranges : port_ranges (port_manager w) = port_ranges PortManager_init;
  inv_in_range : ∀ pid role port,
    holds w pid role port → in_declared_range role port;
  inv_unique : ∀ pid1 role1 pid2 role2 port,
    holds w pid1 role1 port → holds w pid2 role2 port →
    pid1 = pid2 ∧ role1 = role2;
  inv_allocated : ∀ pid role port,
    holds w pid role port → port ∈ allocated_ports (port_manager w);
}.

(** The engine, the clock and the surroundings change behind the
    manager's back; the manager's attributes, its log and the record of
    its calls do not. *)
Definition surroundings_moved (s : State) (e : Env) (t : Z) (w : World) : World :=
  {| containers := containers w; port_manager := port_manager w;
     workspaces_cache := workspaces_cache w; engine := s; env := e;
     clock := t; history := history w; log := log w |}.

(** The worlds a manager can be in: started over any engine, then any
    sequence of the calls that allocate or release ports
    ([create_sandbox], [delete_sandbox], [cleanup_expired_sandboxes]), of
    [stop_sandbox], of [get_sandbox] on a project the cache holds, and of
    moves of the surroundings. *)
Inductive reachable : World → Prop :=
| reach_init (s : State) (e : Env) (t : Z) : reachable (manager_init s e t)
| reach_create (cfg : SandboxConfig) (w : World) :
    reachable w → reachable (snd (create_sandbox cfg w))
| reach_delete (pid : string) (w : World) :
    reachable w → reachable (snd (delete_sandbox pid w))
| reach_cleanup (w : World) :
    reachable w → reachable (snd (cleanup_expired_sandboxes w))
| reach_stop (pid : string) (w : World) :
    reachable w → reachable (snd (stop_sandbox pid w))
| reach_get (pid : string) (w : World) :
    reachable w → is_Some (containers w !! pid) →
    reachable (snd (get_sandbox pid w))
| reach_surroundings (s : State) (e : Env) (t : Z) (w : World) :
    reachable w → reachable (surroundings_moved s e t w).

(** ** Probes along a history *)

(** Whether the exec that the history [h] ends with (its head is the
    newest call) came back with exit code 0. *)
Definition exec_ok (e : Env) (h : list Event) : bool :=
  match exec_reply e h with
  | inr r => bool_decide (exit_code r = 0)
  | inl _ => false
  end.

(** Among the calls [new] made on top of [old], an exec of [command] that
    came back with exit code 0. *)
Fixpoint succeeded (e : Env) (old new : list Event) (command : string) : bool :=
  match new with
  | [] => false
  | ev :: rest =>
      match ev with
      | EvExec _ cmd _ => bool_decide (cmd = command) && exec_ok e (ev :: rest ++ old)
      | _ => false
      end
      || succeeded e old rest command
  end.

(** No command is run again after a run of it came back with exit code 0. *)
Fixpoint never_reprobed (e : Env) (old new : list Event) : bool :=
  match new with
  | [] => true
  | ev :: rest =>
      match ev with
      | EvExec _ cmd _ => negb (succeeded e old rest cmd)
      | _ => true
      end
      && never_reprobed e old rest
  end.

(** What the readiness probe keeps true of the calls [new] it has made
    since it was entered on top of [old], with [ready] the roles it has
    marked ready: no command was run again after it had come back with
    exit code 0; apart from the supervisor's [pgrep], the commands that
    came back with 0 are the port probes of the roles marked ready. *)
Record probes_tracked (e : Env) (old new : list Event) (ready : list string)
    : Prop := {
  tracked_once : never_reprobed e old new = true;
  tracked_only : ∀ cmd,
    succeeded e old new cmd = true →
    cmd = "pgrep supervisord"
    ∨ ∃ s p, (s, p) ∈ services_to_check ∧ cmd = probe_command p ∧ s ∈ ready;
  tracked_ready : ∀ s p,
    (s, p) ∈ services_to_check → s ∈ ready →
    succeeded e old new (probe_command p) = true;
}.

(** Where a call stands that was entered with history [old] and log
    [lg] in surroundings [e]: it has made the calls [new] since, and has
    logged nothing. *)
Record probing (e : Env) (old : list Event) (lg : list (Level * string))
    (w : World) (new : list Event) : Prop := {
  probing_history : history w = new ++ old;
  probing_env : env w = e;
  probing_log : log w = lg;
}.

(** The invariant of every dict [execute_command] returns. *)
Definition success_iff_zero (r : Adapter.CommandResult) : Prop :=
  Adapter.cr_success r = bool_decide (Adapter.cr_exit_code r = 0).

End Props.

(* ===================================================================== *)
(** * Listing the sandboxes                                               *)
(* ===================================================================== *)

Module ManagerListing.
Import Ports Engine Manager.

(** [d[k] = v] on a dict, kept as the list of its items in insertion
    order: a key already present keeps its place and takes the new value. *)
Fixpoint dict_set {V} (k : string) (v : V) (d : list (string * V)) : list (string * V) :=
  match d with
  | [] => [(k, v)]
  | (k', v') :: rest =>
      if bool_decide (k' = k) then (k, v) :: rest else (k', v') :: dict_set k v rest
  end.

(** The [for container in containers] of [list_sandboxes]: a project
    whose [get_sandbox] raises is logged and left out. *)
Fixpoint list_sandboxes_loop (cs : list Container)
    (sandboxes : list (string * SandboxView)) : M (list (string * SandboxView)) :=
  match cs with
  | [] => mret sandboxes
  | c :: rest =>
      match labels c !! "suna.project_id" with
      | Some project_id =>
          if bool_decide (project_id ≠ "") then
            sandboxes ←
              try_except
                (sandbox_info ← get_sandbox project_id;
                 mret (dict_set project_id sandbox_info sandboxes))
                (λ e,
                   logger WARNING ("Failed to get info for sandbox " +:+ project_id
                                   +:+ ": " +:+ str_of_exn e);;
                   mret sandboxes);
            list_sandboxes_loop rest sandboxes
          else list_sandboxes_loop rest sandboxes
      | None => list_sandboxes_loop rest sandboxes
      end
  end.

(** [LocalSandboxManager.list_sandboxes] *)
Definition list_sandboxes : M (list (string * SandboxView)) :=
  cs ← containers_list "suna.project_id";
  list_sandboxes_loop cs [].

End ManagerListing.

(* ===================================================================== *)
(** * The workspace adapter: lifecycle and health                         *)
(* ===================================================================== *)

Module AdapterLifecycle.
Import Ports Engine Manager Adapter ManagerListing.

(** The keyword arguments [create_workspace] reads from its [**kwargs],
    each present or not; any other keyword is ignored by the code. *)
Record Kwargs : Type := {
  kw_vnc_password : option string;
  kw_resolution : option string;
  kw_cpu_limit : option Z;
  kw_memory_limit : option string;
  kw_auto_stop_hours : option Z;
}.

Definition no_kwargs : Kwargs :=
  {| kw_vnc_password := None; kw_resolution := None; kw_cpu_limit := None;
     kw_memory_limit := None; kw_auto_stop_hours := None |}.

(** The [SandboxConfig] built from them; [disk_limit] is never passed. *)
Definition config_of (project_id : string) (kwargs : Kwargs) : SandboxConfig :=
  {| project_id := project_id;
     vnc_password := default "vncpassword" (kw_vnc_password kwargs);
     resolution := default "1024x768x24" (kw_resolution kwargs);
     cpu_limit := default 2 (kw_cpu_limit kwargs);
     memory_limit := default "4g" (kw_memory_limit kwargs);
     disk_limit := "10g";
     auto_stop_hours := default 24 (kw_auto_stop_hours kwargs) |}.

(** [LocalApiAdapter.create_workspace] *)
Definition create_workspace (project_id : string) (kwargs : Kwargs) : M LocalWorkspace :=
  let config := config_of project_id kwargs in
  try_except
    (container_id ← create_sandbox config;
     sandbox_info ← get_sandbox project_id;
     let workspace := LocalWorkspace_init project_id sandbox_info in
     modify (set_workspaces_cache (<[project_id := workspace]>));;
     mret workspace)
    (λ e,
       logger ERROR ("Failed to create workspace for project " +:+ project_id
                     +:+ ": " +:+ str_of_exn e);;
       raise e).

(** The cache update [start_workspace] and [stop_workspace] share:
    <<
    if project_id in self._workspaces_cache:
        sandbox_info = await self.sandbox_manager.get_sandbox(project_id)
        self._workspaces_cache[project_id] = LocalWorkspace(project_id, sandbox_info)
    >> *)
Definition refresh_cached (project_id : string) : M unit :=
  cache ← gets workspaces_cache;
  if bool_decide (is_Some (cache !! project_id)) then
    sandbox_info ← get_sandbox project_id;
    modify (set_workspaces_cache
              (<[project_id := LocalWorkspace_init project_id sandbox_info]>))
  else mret tt.

(** [LocalApiAdapter.start_workspace] *)
Definition start_workspace (project_id : string) : M bool :=
  try_except
    (start_sandbox project_id;;
     refresh_cached project_id;;
     mret true)
    (λ e,
       logger ERROR ("Failed to start workspace for project " +:+ project_id
                     +:+ ": " +:+ str_of_exn e);;
       mret false).

(** [LocalApiAdapter.stop_workspace] *)
Definition stop_workspace (project_id : string) : M bool :=
  try_except
    (stop_sandbox project_id;;
     refresh_cached project_id;;
     mret true)
    (λ e,
       logger ERROR ("Failed to stop workspace for project " +:+ project_id
                     +:+ ": " +:+ str_of_exn e);;
       mret false).

(** [LocalApiAdapter.delete_workspace] *)
Definition delete_workspace (project_id : string) : M bool :=
  try_except
    (delete_sandbox project_id;;
     modify (set_workspaces_cache (delete project_id));;
     mret true)
    (λ e,
       logger ERROR ("Failed to delete workspace for project " +:+ project_id
                     +:+ ": " +:+ str_of_exn e);;
       mret false).

(** The [for project_id, sandbox_info in sandboxes.items()] of
    [list_workspaces]. *)
Fixpoint list_workspaces_loop (sandboxes : list (string * SandboxView))
    (workspaces : list LocalWorkspace) : M (list LocalWorkspace) :=
  match sandboxes with
  | [] => mret workspaces
  | (project_id, sandbox_info) :: rest =>
      let workspace := LocalWorkspace_init project_id sandbox_info in
      modify (set_workspaces_cache (<[project_id := workspace]>));;
      list_workspaces_loop rest (workspaces ++ [workspace])
  end.

(** [LocalApiAdapter.list_workspaces] *)
Definition list_workspaces : M (list LocalWorkspace) :=
  try_except
    (sandboxes ← list_sandboxes;
     list_workspaces_loop sandboxes [])
    (λ e,
       logger ERROR ("Failed to list workspaces: " +:+ str_of_exn e);;
       mret []).

(** [LocalApiAdapter.create_directory]: the path goes into the command
    as it is. *)
Definition create_directory (project_id path : string) : M bool :=
  try_except
    (result ← execute_command project_id ("mkdir -p " +:+ path) "/";
     mret (cr_success result))
    (λ e,
       logger ERROR ("Failed to create directory in workspace " +:+ project_id
                     +:+ ": " +:+ str_of_exn e);;
       mret false).

(** What [health_check] returns: the dict with a [reason], or the dict
    with the four probes. [services] is the dict [services_status] in the
    order its keys were set. *)
Inductive Health : Type :=
| Unhealthy (reason : string)
| Checked (healthy : bool) (services : list (string * bool))
    (workspace_status : string) (urls : gmap string string).

(** [LocalApiAdapter.health_check] *)
Definition health_check (project_id : string) : M Health :=
  try_except
    (workspace ← get_workspace project_id;
     match workspace with
     | None => mret (Unhealthy "Workspace not found")
     | Some workspace =>
         if bool_decide (ws_status workspace ≠ "running") then
           mret (Unhealthy ("Workspace status: " +:+ ws_status workspace))
         else
           vnc_check ← execute_command project_id "nc -z localhost 5901" "/workspace";
           novnc_check ← execute_command project_id "nc -z localhost 6080" "/workspace";
           file_server_check ←
             execute_command project_id "nc -z localhost 8080" "/workspace";
           browser_api_check ←
             execute_command project_id "nc -z localhost 7788" "/workspace";
           let services_status :=
             [ ("vnc", cr_success vnc_check);
               ("novnc", cr_success novnc_check);
               ("file_server", cr_success file_server_check);
               ("browser_api", cr_success browser_api_check) ] in
           mret (Checked (forallb snd services_status) services_status
                   (ws_status workspace) (ws_urls workspace))
     end)
    (λ e,
       logger ERROR ("Health check failed for workspace " +:+ project_id
                     +:+ ": " +:+ str_of_exn e);;
       mret (Unhealthy (str_of_exn e))).

End AdapterLifecycle.

(* ===================================================================== *)
(** * The path guards of the tools and of the router                      *)
(* ===================================================================== *)

Module PathGuards.
Import Ports Engine Manager Adapter Paths.

(** ** The file primitives of [LocalSandboxToolsBase] (local_tool_base.py)

    [self.execute_command] is [Adapter.tool_execute_command], with the
    two acquisition steps it is parameterised by. Each primitive cleans
    its path before anything else; [clean_path] cannot raise, so the
    [except] handler always sees the cleaned path. *)
Section Tool.
Variable acquire_workspace acquire_sandbox : string → M unit.
Variable project_id : string.

(** [self.execute_command(command)], the working directory left to its
    default. *)
Definition execute_command (command : string) : M CommandResult :=
  tool_execute_command acquire_workspace acquire_sandbox project_id command "/workspace".

(** [delete_file] *)
Definition delete_file (file_path : string) : M bool :=
  let file_path := ToolBase.clean_path file_path in
  try_except
    (if negb (ToolBase.validate_path file_path) then
       logger ERROR ("Invalid file path: " +:+ file_path);;
       mret false
     else
       result ← execute_command ("rm -f '" +:+ file_path +:+ "'");
       mret (cr_success result))
    (λ e,
       logger ERROR ("Error deleting file " +:+ file_path +:+ ": " +:+ str_of_exn e);;
       mret false).

(** [delete_directory] *)
Definition delete_directory (directory : string) : M bool :=
  let directory := ToolBase.clean_path directory in
  try_except
    (if negb (ToolBase.validate_path directory) then
       logger ERROR ("Invalid directory path: " +:+ directory);;
       mret false
     else if bool_decide (directory = "/workspace") then
       logger ERROR "Cannot delete workspace root directory";;
       mret false
     else
       result ← execute_command ("rm -rf '" +:+ directory +:+ "'");
       mret (cr_success result))
    (λ e,
       logger ERROR ("Error deleting directory " +:+ directory +:+ ": "
                     +:+ str_of_exn e);;
       mret false).

End Tool.

(** ** [validate_path] of the HTTP router (local_api.py): here the tilde
    is looked for anywhere in the path. *)
Module Api.
Definition validate_path (path : string) : bool :=
    if bool_decide (path = "") then false
    else if ToolBase.contains ".." path || ToolBase.contains "~" path then false
    else if negb (startswith "/workspace" (normpath path)) then false
    else true.
End Api.

End PathGuards.

(* ===================================================================== *)
(** * The router                                                          *)
(* ===================================================================== *)

Module Router.
Import Ports Engine Manager Adapter.

(** What a handler of the router raises: fastapi's [HTTPException], or
    any other exception. Both are subclasses of [Exception]. *)
Inductive Raised : Type :=
| HTTPException (status_code : Z) (detail : string)
| Uncaught (e : exn).

(** How a handler ends. *)
Inductive Outcome (A : Type) : Type :=
| Returned (a : A)
| Failed (r : Raised)
| Unfinished.
Arguments Returned {A} a.
Arguments Failed {A} r.
Arguments Unfinished {A}.

Definition R (A : Type) : Type := World → Outcome A * World.

#[export] Instance R_ret : MRet R := λ A a w, (Returned a, w).

#[export] Instance R_bind : MBind R := λ A B k m w,
  match m w with
  | (Returned a, w') => k a w'
  | (Failed r, w') => (Failed r, w')
  | (Unfinished, w') => (Unfinished, w')
  end.

(** A call into the manager or the adapter. *)
Definition lift {A} (m : M A) : R A := λ w,
  match m w with
  | (Ok a, w') => (Returned a, w')
  | (Raise e, w') => (Failed (Uncaught e), w')
  | (OutOfFuel, w') => (Unfinished, w')
  end.

Definition fail {A} (r : Raised) : R A := λ w, (Failed r, w).

(** [try: body  except ...], the handlers given as one function of what
    was raised. *)
Definition try_ {A} (body : R A) (handler : Raised → R A) : R A := λ w,
  match body w with
  | (Failed r, w') => handler r w'
  | other => other
  end.

(** The two handlers most endpoints end with:
    <<
    except HTTPException:
        raise
    except Exception as e:
        ...
    >> *)
Definition or_reraise {A} (handler : exn → R A) (r : Raised) : R A :=
  match r with
  | HTTPException status_code detail => fail (HTTPException status_code detail)
  | Uncaught e => handler e
  end.

(** [LocalSandbox] of local_sandbox.py, as [LocalSandbox.__init__]
    leaves it. *)
Record LocalSandbox : Type := {
  sandbox_project_id : string;
  _workspace : option LocalWorkspace;
  _session_started : bool;
}.

Definition LocalSandbox_init (project_id : string) : LocalSandbox :=
  {| sandbox_project_id := project_id; _workspace := None; _session_started := false |}.

(** A value of the dict [get_sandbox] returns. *)
Inductive Value : Type :=
| Str (s : string)
| PortsDict (ports : gmap string (Z * Z))
| ConfigDict (config : SandboxConfig)
| UrlsDict (urls : gmap string string).

(** [sandbox_info.get(key)] on that dict: its keys are [id], [name],
    [status], [ports], [created_at], [config] and [urls]. *)
Definition view_get (sandbox_info : SandboxView) (key : string) : option Value :=
  if bool_decide (key = "id") then Some (Str (view_id sandbox_info))
  else if bool_decide (key = "name") then Some (Str (view_name sandbox_info))
  else if bool_decide (key = "status") then Some (Str (view_status sandbox_info))
  else if bool_decide (key = "ports") then Some (PortsDict (view_ports sandbox_info))
  else if bool_decide (key = "created_at") then Some (Str (view_created_at sandbox_info))
  else if bool_decide (key = "config") then Some (ConfigDict (view_config sandbox_info))
  else if bool_decide (key = "urls") then Some (UrlsDict (view_urls sandbox_info))
  else None.

(** [sandbox_info[key]] *)
Definition view_getitem (sandbox_info : SandboxView) (key : string) : R Value :=
  match view_get sandbox_info key with
  | Some v => mret v
  | None => fail (Uncaught (KeyError key))
  end.

(** The arguments given to [SandboxResponse]; what pydantic then makes of
    them is not modelled. *)
Record SandboxResponse : Type := {
  response_project_id : Value;
  response_status : Value;
  response_container_id : option Value;
  response_urls : Value;
  response_created_at : option Value;
  response_updated_at : option Value;
}.

(** [not x] for the value of a call to a method that has no [return]:
    the value is [None], which is falsy. *)
Definition truth_of_None (x : unit) : bool := false.

Section Endpoints.
(** [str(e)] of an [HTTPException] is the library's to say. *)
Variable str_of_HTTPException : Z → string → string.

Definition str_of_raised (r : Raised) : string :=
  match r with
  | HTTPException status_code detail => str_of_HTTPException status_code detail
  | Uncaught e => str_of_exn e
  end.

(** [get_project_sandbox]: one handler, [except Exception], around a
    body that raises an [HTTPException] itself. A [LocalWorkspace] is an
    object without [__bool__] or [__len__], so [not workspace] tells
    [None] from a workspace. *)
Definition get_project_sandbox (project_id : string) : R LocalSandbox :=
  try_
    (workspace ← lift (get_workspace project_id);
     match workspace with
     | None =>
         fail (HTTPException 404 ("Sandbox not found for project " +:+ project_id))
     | Some workspace =>
         let sandbox := LocalSandbox_init project_id in
         mret {| sandbox_project_id := sandbox_project_id sandbox;
                 _workspace := Some workspace;
                 _session_started := _session_started sandbox |}
     end)
    (λ e,
       lift (logger ERROR ("Failed to get sandbox for project " +:+ project_id
                           +:+ ": " +:+ str_of_raised e));;
       fail (HTTPException 500 ("Failed to get sandbox: " +:+ str_of_raised e))).

End Endpoints.

(** [bool(sandbox_info)]: a dict is falsy when empty, and this one always
    has its seven keys. *)
Definition truth_of_view (sandbox_info : SandboxView) : bool := true.

(** [GET /sandbox/{project_id}] *)
Definition get_sandbox (project_id : string) : R SandboxResponse :=
  try_
    (sandbox_info ← lift (Manager.get_sandbox project_id);
     if negb (truth_of_view sandbox_info) then
       fail (HTTPException 404 ("Sandbox not found for project " +:+ project_id))
     else
       project_id' ← view_getitem sandbox_info "project_id";
       status ← view_getitem sandbox_info "status";
       mret {| response_project_id := project_id';
               response_status := status;
               response_container_id := view_get sandbox_info "container_id";
               response_urls := default (UrlsDict ∅) (view_get sandbox_info "urls");
               response_created_at := view_get sandbox_info "created_at";
               response_updated_at := view_get sandbox_info "updated_at" |})
    (or_reraise (λ e,
       lift (logger ERROR ("Failed to get sandbox " +:+ project_id +:+ ": "
                           +:+ str_of_exn e));;
       fail (HTTPException 500 ("Failed to get sandbox: " +:+ str_of_exn e)))).

(** [POST /sandbox/{project_id}/start]; the value returned is the
    [message] of the dict. *)
Definition start_sandbox (project_id : string) : R string :=
  try_
    (success ← lift (Manager.start_sandbox project_id);
     if negb (truth_of_None success) then
       fail (HTTPException 500 ("Failed to start sandbox for project " +:+ project_id))
     else mret ("Sandbox started for project " +:+ project_id))
    (or_reraise (λ e,
       lift (logger ERROR ("Failed to start sandbox " +:+ project_id +:+ ": "
                           +:+ str_of_exn e));;
       fail (HTTPException 500 ("Failed to start sandbox: " +:+ str_of_exn e)))).

(** [POST /sandbox/{project_id}/stop] *)
Definition stop_sandbox (project_id : string) : R string :=
  try_
    (success ← lift (Manager.stop_sandbox project_id);
     if negb (truth_of_None success) then
       fail (HTTPException 500 ("Failed to stop sandbox for project " +:+ project_id))
     else mret ("Sandbox stopped for project " +:+ project_id))
    (or_reraise (λ e,
       lift (logger ERROR ("Failed to stop sandbox " +:+ project_id +:+ ": "
                           +:+ str_of_exn e));;
       fail (HTTPException 500 ("Failed to stop sandbox: " +:+ str_of_exn e)))).

(** [DELETE /sandbox/{project_id}] *)
Definition delete_sandbox (project_id : string) : R string :=
  try_
    (success ← lift (Manager.delete_sandbox project_id);
     if negb (truth_of_None success) then
       fail (HTTPException 500 ("Failed to delete sandbox for project " +:+ project_id))
     else mret ("Sandbox deleted for project " +:+ project_id))
    (or_reraise (λ e,
       lift (logger ERROR ("Failed to delete sandbox " +:+ project_id +:+ ": "
                           +:+ str_of_exn e));;
       fail (HTTPException 500 ("Failed to delete sandbox: " +:+ str_of_exn e)))).

(** [DELETE /sandbox/{project_id}/files]. [sandbox] is what the
    dependency [get_project_sandbox] gave; [LocalSandbox.execute_command]
    is [Adapter.sandbox_execute_command], whose first step makes sure of
    a workspace only when the sandbox holds none. The value returned is
    the pair of [message] and [path]. *)
Section Files.
Variable unquote : string → string.
Variable get_or_start_sandbox : string → M unit.

Definition sandbox_command (sandbox : LocalSandbox) (command : string)
    : M CommandResult :=
  sandbox_execute_command
    (λ project_id,
       match _workspace sandbox with
       | None => get_or_start_sandbox project_id
       | Some _ => mret tt
       end)
    (sandbox_project_id sandbox) command "/workspace".

Definition delete_file (project_id path : string) (sandbox : LocalSandbox)
    : R (string * string) :=
  try_
    (let path := Paths.Api.clean_path unquote path in
     if negb (PathGuards.Api.validate_path path) then
       fail (HTTPException 400 "Invalid path")
     else if bool_decide (path = "/workspace") then
       fail (HTTPException 400 "Cannot delete workspace root directory")
     else
       result ← lift (sandbox_command sandbox ("rm -rf '" +:+ path +:+ "'"));
       if negb (cr_success result) then
         fail (HTTPException 500 "Failed to delete file or directory")
       else mret ("File or directory deleted successfully", path))
    (or_reraise (λ e,
       lift (logger ERROR ("Failed to delete file in sandbox " +:+ project_id
                           +:+ ": " +:+ str_of_exn e));;
       fail (HTTPException 500 ("Failed to delete file: " +:+ str_of_exn e)))).

End Files.

End Router.

(* ===================================================================== *)
(** * More worlds                                                         *)
(* ===================================================================== *)

Module Cases.
Import Ports Engine Manager.

(** A sandbox container that was stopped: the engine reports no port
    binding for a container that does not run. *)
Definition exited_container : Container :=
  {| id := "9c1d"; name := "suna-sandbox-p4"; status := "exited";
     labels := {[ "suna.project_id" := "p4";
                  "suna.created_at" := "2026-11-04T00:00:00";
                  "suna.auto_stop_at" := "2026-11-05T00:00:00" ]};
     network_ports := [] |}.

(** A manager just started over an engine that holds it. *)
Definition restarted_exited : World :=
  manager_init
    {| engine_containers := [exited_container];
       engine_volumes := {[ "suna-workspace-p4" ]};
       next_id := 1 |}
    Scenario.quiet_env Scenario.now.

(** Surroundings whose [fromisoformat] reads a trailing [+00:00] as a UTC
    offset, as Python's does. *)
Definition offset_env : Env :=
  {| fault := fault Scenario.quiet_env;
     exec_reply := exec_reply Scenario.quiet_env;
     exec_took := exec_took Scenario.quiet_env;
     sleep_lag := sleep_lag Scenario.quiet_env;
     fromisoformat := λ text,
       if bool_decide (text = "2024-01-02T00:00:00+00:00")
       then Some (Aware 1704153600000000)
       else Scenario.scenario_fromisoformat text;
     isoformat := Scenario.scenario_isoformat |}.

(** A sandbox whose [suna.auto_stop_at] label was written with an
    offset, by another tool. *)
Definition offset_container : Container :=
  {| id := "5e0b"; name := "suna-sandbox-p5"; status := "running";
     labels := {[ "suna.project_id" := "p5";
                  "suna.created_at" := "2024-01-01T00:00:00";
                  "suna.auto_stop_at" := "2024-01-02T00:00:00+00:00" ]};
     network_ports := [] |}.

(** [Scenario.created], its sandbox long expired, beside that container. *)
Definition with_offset_label : World :=
  Props.surroundings_moved
    {| engine_containers :=
         engine_containers (engine Scenario.created) ++ [offset_container];
       engine_volumes := engine_volumes (engine Scenario.created);
       next_id := next_id (engine Scenario.created) |}
    offset_env 1800000000000000 Scenario.created.

(** Surroundings whose engine creates containers but refuses to start
    them, as when a host port is already bound by another process. *)
Definition start_refused_env : Env :=
  {| fault := λ h,
       match h with
       | EvStart _ :: _ =>
           Some "driver failed programming external connectivity: port is already allocated"
       | _ => None
       end;
     exec_reply := exec_reply Scenario.quiet_env;
     exec_took := exec_took Scenario.quiet_env;
     sleep_lag := sleep_lag Scenario.quiet_env;
     fromisoformat := Scenario.scenario_fromisoformat;
     isoformat := Scenario.scenario_isoformat |}.

(** A manager just started over an empty engine of that kind. *)
Definition start_refused : World :=
  manager_init Scenario.empty_engine start_refused_env Scenario.now.

End Cases.

(* ===================================================================== *)
(** * More vocabulary                                                     *)
(* ===================================================================== *)

Module Notions.
Import Ports Engine Manager.

(** The port manager after [k] sandboxes were given ports and none was
    released: of every declared range, exactly the first [k] ports are
    allocated. *)
Definition filled (k : Z) (pm : PortManager) : Prop :=
  port_ranges pm = port_ranges PortManager_init
  ∧ ∀ p, p ∈ allocated_ports pm ↔
         ∃ role lo hi, (role, (lo, hi)) ∈ port_ranges PortManager_init
                       ∧ lo ≤ p < lo + k.

(** The engine is as it was: same containers, same volumes. *)
Definition same_engine (w w' : World) : Prop := engine w' = engine w.

(** What [containers.run] publishes for the dict [ports]: one binding per
    internal port, in the order of the [ports] argument. *)
Definition published (ports : gmap string Z) (table : list (string * list HostBinding))
    : Prop :=
  ∃ vnc novnc browser_api file_server,
    ports !! "vnc" = Some vnc ∧ ports !! "novnc" = Some novnc
    ∧ ports !! "browser_api" = Some browser_api
    ∧ ports !! "file_server" = Some file_server
    ∧ table =
      [ ("5901/tcp", [ {| HostIp := "0.0.0.0"; HostPort := vnc |} ]);
        ("6080/tcp", [ {| HostIp := "0.0.0.0"; HostPort := novnc |} ]);
        ("7788/tcp", [ {| HostIp := "0.0.0.0"; HostPort := browser_api |} ]);
        ("8080/tcp", [ {| HostIp := "0.0.0.0"; HostPort := file_server |} ]) ].

(** What a failed [containers.run] for the name [nm] can have made of the
    engine's containers [cs]: nothing, or one more container, created
    under that name, that does not run and publishes nothing. *)
Definition left_behind (nm : string) (cs cs' : list Container) : Prop :=
  cs' = cs
  ∨ ∃ c, cs' = cs ++ [c] ∧ name c = nm ∧ status c = "created"
         ∧ network_ports c = [].

(** The URL [_generate_service_urls] builds for a role. *)
Definition url_of (role : string) (port : Z) : string :=
  (if bool_decide (role = "vnc") then "vnc://localhost:" else "http://localhost:")
  +:+ pretty port.

(** The adapter's cache is as it was. *)
Definition same_workspaces (w w' : World) : Prop :=
  workspaces_cache w' = workspaces_cache w.

(** Any exception but a [KeyError]. *)
Definition not_KeyError (e : exn) : Prop :=
  match e with KeyError _ => False | _ => True end.

(** A container whose [suna.auto_stop_at] label parses to a [datetime]
    that carries a UTC offset. *)
Definition aware_label (e : Env) (c : Container) : Prop :=
  ∃ s t, labels c !! "suna.auto_stop_at" = Some s ∧ s ≠ ""
         ∧ fromisoformat e s = Some (Aware t).

(** What an item of the dict [list_sandboxes] returned in world [w] over
    the containers [cs] says: its key is the project label of one of
    them, and its value shows the name and the status of the container
    the engine holds under the value's id. *)
Definition listed (w : World) (cs : list Container) (item : string * SandboxView) : Prop :=
  (∃ c, c ∈ cs ∧ labels c !! "suna.project_id" = Some item.1)
  ∧ ∃ c', find_by_id (view_id item.2) (engine_containers (engine w)) = Some c'
          ∧ view_name item.2 = name c' ∧ view_status item.2 = status c'.

(** A plain name: no slash, none of the seven characters [clean_path]
    strips, no two dots in a row, and not the name [.]. *)
Definition plain_name (name : string) : Prop :=
  name ≠ "" ∧ name ≠ "." ∧ Paths.has_char "/" name = false
  ∧ Paths.strip_dangerous name = name ∧ Paths.ToolBase.contains ".." name = false.

End Notions.

(* ===================================================================== *)
(** * Properties of the port manager                                      *)
(* ===================================================================== *)

Module PortFacts.
Import Ports.

Lemma range_inclusive_elem (start end_ p : Z) :
  p ∈ range_inclusive start end_ ↔ start ≤ p ≤ end_.
Proof. unfold range_inclusive. rewrite elem_of_seqZ. lia. Qed.

(** The port found is in the range, free, and the lowest such. *)
Lemma first_free_Some (allocated : gset Z) (start end_ p : Z) :
  first_free allocated start end_ = Some p →
  start ≤ p ≤ end_ ∧ (p ∉ allocated)
  ∧ ∀ q, start ≤ q < p → q ∈ allocated.
Proof.
  unfold first_free. intros H.
  destruct (list_find _ _) as [[i x]|] eqn:E; simplify_eq/=.
  apply list_find_Some in E as (Hi & Hfree & Hlow).
  split; [|split; [done|]].
  - apply range_inclusive_elem. by eapply list_elem_of_lookup_2.
  - intros q Hq. unfold range_inclusive in *.
    apply lookup_seqZ in Hi as [-> Hi].
    destruct (decide (q ∈ allocated)) as [|Hn]; [done|].
    exfalso. apply (Hlow (Z.to_nat (q - start)) q); [|lia|done].
    apply lookup_seqZ. lia.
Qed.

(** No port found: the whole range is taken. *)
Lemma first_free_None (allocated : gset Z) (start end_ : Z) :
  first_free allocated start end_ = None →
  ∀ p, start ≤ p ≤ end_ → p ∈ allocated.
Proof.
  unfold first_free. intros H p Hp.
  destruct (list_find _ _) as [[i x]|] eqn:E; simplify_eq/=.
  rewrite list_find_None, Forall_forall in E.
  destruct (decide (p ∈ allocated)) as [|Hn]; [done|].
  exfalso. by apply (E p); [apply range_inclusive_elem|].
Qed.

(** What the loop has done when it stops, by either exit: it only added
    ports; and when it returns, the dict holds the old entries and one new
    port per role of [ranges], each fresh, inside the role's range and
    different from the others, and the set grew by exactly those. *)
Lemma allocate_loop_spec (ranges : list (string * (Z * Z)))
    (allocated : gset Z) (ports : gmap string Z) r allocated' :
  allocate_loop ranges allocated ports = (r, allocated') →
  NoDup ranges.*1 →
  (∀ s, s ∈ ranges.*1 → ports !! s = None) →
  allocated ⊆ allocated'
  ∧ ∀ ports', r = Ok ports' →
      (∀ s, s ∉ ranges.*1 → ports' !! s = ports !! s)
      ∧ (∀ s, s ∈ ranges.*1 → is_Some (ports' !! s))
      ∧ (∀ s p, s ∈ ranges.*1 → ports' !! s = Some p →
           (p ∉ allocated) ∧ p ∈ allocated'
           ∧ ∃ lo hi, (s, (lo, hi)) ∈ ranges ∧ lo ≤ p ≤ hi)
      ∧ (∀ s1 s2 p, s1 ∈ ranges.*1 → s2 ∈ ranges.*1 →
           ports' !! s1 = Some p → ports' !! s2 = Some p → s1 = s2)
      ∧ (∀ p, p ∈ allocated' →
           p ∈ allocated ∨ ∃ s, s ∈ ranges.*1 ∧ ports' !! s = Some p).
Proof.
  revert allocated ports.
  induction ranges as [|[service [start end_]] rest IH];
    intros allocated ports Hrun Hnodup Hfresh; simpl in Hrun.
  { simplify_eq. split; [done|]. intros ports' [= <-].
    split_and!; try done; intros *; rewrite ?elem_of_nil; try done. auto. }
  destruct (first_free allocated start end_) as [port|] eqn:Efree.
  2:{ simplify_eq. split; [done|]. by intros ports' [=]. }
  apply first_free_Some in Efree as (Hrange & Hport & _).
  simpl in Hnodup. apply NoDup_cons in Hnodup as [Hservice Hnodup].
  apply IH in Hrun as [Hsub Hok]; [|done|].
  2:{ intros s Hs. rewrite lookup_insert_ne.
      - apply Hfresh. by right.
      - intros ->. done. }
  assert (∀ x, x ∈ allocated → x ∈ ({[port]} ∪ allocated : gset Z)) as Hr
    by (intros x Hx; apply elem_of_union; by right).
  assert (port ∈ ({[port]} ∪ allocated : gset Z)) as Hl
    by (apply elem_of_union; left; by apply elem_of_singleton).
  split; [intros x Hx; by apply Hsub, Hr|]. intros ports' ->.
  destruct (Hok _ eq_refl) as (Hold & Hsome & Hnew & Hinj & Hgrew).
  assert (ports' !! service = Some port) as Hmine.
  { rewrite Hold by done. apply lookup_insert_eq. }
  assert (port ∈ allocated') as Hport' by (by apply Hsub).
  simpl. split_and!.
  - intros s Hs. apply not_elem_of_cons in Hs as [Hne Hs].
    rewrite Hold by done. by rewrite lookup_insert_ne.
  - intros s [->|Hs]%elem_of_cons; [by eexists|by apply Hsome].
  - intros s p [->|Hs]%elem_of_cons Hp.
    + simplify_eq. split_and!; [done|done|].
      exists start, end_. split; [by left|done].
    + destruct (Hnew s p Hs Hp) as (Hp1 & Hp2 & lo & hi & Hin & Hlh).
      split_and!; [by intros ?%Hr|done|]. exists lo, hi. split; [by right|done].
  - intros s1 s2 p [->|Hs1]%elem_of_cons [->|Hs2]%elem_of_cons H1 H2;
      simplify_eq; try done.
    + by destruct (Hnew s2 port Hs2 H2) as (Hcontra & _).
    + by destruct (Hnew s1 port Hs1 H1) as (Hcontra & _).
    + by eapply Hinj.
  - intros p Hp. destruct (Hgrew p Hp) as [Hp'|(s & Hs & Hps)].
    + apply elem_of_union in Hp' as [->%elem_of_singleton|Hp'].
      * right. exists service. split; [by left|done].
      * by left.
    + right. exists s. split; [by right|done].
Qed.

(** [release_ports] removes exactly the values of the dict. *)
Lemma release_ports_elem (ports : gmap string Z) (pm : PortManager) (p : Z) :
  p ∈ allocated_ports (release_ports ports pm)
  ↔ p ∈ allocated_ports pm ∧ ∀ s, ports !! s ≠ Some p.
Proof.
  unfold release_ports. simpl.
  assert (∀ l : list Z,
            p ∈ foldr (λ port allocated, allocated ∖ {[port]}) (allocated_ports pm) l
            ↔ p ∈ allocated_ports pm ∧ p ∉ l) as Hfold.
  { induction l as [|x l IH]; simpl.
    - rewrite elem_of_nil. tauto.
    - rewrite elem_of_difference, IH, not_elem_of_cons, elem_of_singleton. tauto. }
  rewrite Hfold. split; intros [Hp Hno]; (split; [done|]).
  - intros s Hs. apply Hno. apply list_elem_of_fmap.
    exists (s, p). split; [done|]. by apply elem_of_map_to_list.
  - intros ([s q] & -> & Hin)%list_elem_of_fmap.
    apply elem_of_map_to_list in Hin. by apply (Hno s).
Qed.

Lemma release_ports_ranges ports pm :
  port_ranges (release_ports ports pm) = port_ranges pm.
Proof. done. Qed.

Lemma allocate_ports_ranges pid pm :
  port_ranges (snd (allocate_ports pid pm)) = port_ranges pm.
Proof. unfold allocate_ports. by destruct (allocate_loop _ _ _). Qed.

(** [allocate_ports], when it returns: one port per role, each fresh, in
    its role's range, no two alike; the set grew by exactly those. *)
Lemma allocate_ports_Ok pid pm ports pm' :
  NoDup (port_ranges pm).*1 →
  allocate_ports pid pm = (Ok ports, pm') →
  (∀ s, s ∈ (port_ranges pm).*1 ↔ is_Some (ports !! s))
  ∧ (∀ s p, ports !! s = Some p →
       (p ∉ allocated_ports pm) ∧ p ∈ allocated_ports pm'
       ∧ ∃ lo hi, (s, (lo, hi)) ∈ port_ranges pm ∧ lo ≤ p ≤ hi)
  ∧ (∀ s1 s2 p, ports !! s1 = Some p → ports !! s2 = Some p → s1 = s2)
  ∧ (∀ p, p ∈ allocated_ports pm' ↔
          p ∈ allocated_ports pm ∨ ∃ s, ports !! s = Some p).
Proof.
  intros Hnodup. unfold allocate_ports.
  destruct (allocate_loop _ _ _) as [r allocated'] eqn:Erun. intros [= -> <-].
  apply allocate_loop_spec in Erun as [Hsub Hok]; [|done|by intros].
  destruct (Hok _ eq_refl) as (Hold & Hsome & Hnew & Hinj & Hgrew). simpl.
  assert (∀ s p, ports !! s = Some p → s ∈ (port_ranges pm).*1) as Hdom.
  { intros s p Hs. destruct (decide (s ∈ (port_ranges pm).*1)); [done|].
    rewrite Hold in Hs by done. by rewrite lookup_empty in Hs. }
  split_and!.
  - intros s. split; [apply Hsome|]. intros [p Hp]. by eapply Hdom.
  - intros s p Hp. apply Hnew; [by eapply Hdom|done].
  - intros s1 s2 p H1 H2. eapply Hinj; eauto.
  - intros p. split.
    + intros Hp. destruct (Hgrew p Hp) as [?|(s & _ & ?)]; eauto.
    + intros [Hp|(s & Hs)]; [by apply Hsub|].
      by destruct (Hnew s p (Hdom _ _ Hs) Hs) as (_ & ? & _).
Qed.

(** [allocate_ports] never removes a port, however it ends. *)
Lemma allocate_ports_grows pid pm :
  NoDup (port_ranges pm).*1 →
  allocated_ports pm ⊆ allocated_ports (snd (allocate_ports pid pm)).
Proof.
  intros Hnodup. unfold allocate_ports.
  destruct (allocate_loop _ _ _) as [r allocated'] eqn:Erun. simpl.
  by apply allocate_loop_spec in Erun as [Hsub _]; [|done|by intros].
Qed.

(** Port conservation: releasing what a call of [allocate_ports] returned
    gives back the set it started from. *)
Lemma release_after_allocate pid pm ports pm' :
  NoDup (port_ranges pm).*1 →
  allocate_ports pid pm = (Ok ports, pm') →
  release_ports ports pm' = pm.
Proof.
  intros Hnodup Halloc.
  pose proof (allocate_ports_ranges pid pm) as Hranges. rewrite Halloc in Hranges.
  destruct (allocate_ports_Ok _ _ _ _ Hnodup Halloc) as (_ & Hnew & _ & Hgrew).
  destruct pm as [allocated ranges].
  unfold release_ports at 1. simpl in *. rewrite Hranges. f_equal.
  apply set_eq. intros p.
  pose proof (release_ports_elem ports pm' p) as Hrel. simpl in Hrel.
  rewrite Hrel, Hgrew. split.
  - intros [[Hp|(s & Hs)] Hno]; [done|]. by destruct (Hno s).
  - intros Hp. split; [by left|]. intros s Hs.
    by destruct (Hnew s p Hs) as (? & _).
Qed.

(** When the first role has no free port the call raises at once, and
    the port manager is as it was: nothing had been taken. *)
Lemma allocate_ports_fails_at_first_role pid pm service start end_ rest :
  port_ranges pm = (service, (start, end_)) :: rest →
  first_free (allocated_ports pm) start end_ = None →
  allocate_ports pid pm
  = (Raise (RuntimeError ("No available ports for service " +:+ service)), pm).
Proof.
  intros Hranges Hfull. unfold allocate_ports. rewrite Hranges. cbn.
  rewrite Hfull. destruct pm as [a r]. cbn in *. by subst r.
Qed.

(** C1, where the code departs from the claim. After 100 allocations
    every range is full; releasing the one port 15901 frees a [vnc] port
    and nothing else. The next [allocate_ports] takes 15901 for [vnc],
    finds no [novnc] port, and raises with 15901 still in the set: the
    call failed and the set is not what it was. *)
Theorem allocate_ports_leaks_when_exhausted :
  let pm := release_ports {[ "vnc" := 15901 ]}
              (allocate_many 100 PortManager_init) in
  fst (allocate_ports "p101" pm)
  = Raise (RuntimeError "No available ports for service novnc")
  ∧ (15901 ∉ allocated_ports pm)
  ∧ 15901 ∈ allocated_ports (snd (allocate_ports "p101" pm))
  ∧ allocated_ports (snd (allocate_ports "p101" pm)) ≠ allocated_ports pm.
Proof.
  intros pm.
  assert (15901 ∉ allocated_ports pm) as Hout
    by (rewrite <- elem_of_elements; apply (bool_decide_unpack _);
        vm_compute; exact I).
  assert (15901 ∈ allocated_ports (snd (allocate_ports "p101" pm))) as Hin
    by (rewrite <- elem_of_elements; apply (bool_decide_unpack _);
        vm_compute; exact I).
  assert (fst (allocate_ports "p101" pm)
          = Raise (RuntimeError "No available ports for service novnc")) as Hraise
    by (vm_compute; reflexivity).
  split; [exact Hraise|]. split; [exact Hout|]. split; [exact Hin|].
  intros Heq. exact (Hout (eq_ind _ (λ X, 15901 ∈ X) Hin _ Heq)).
Qed.

End PortFacts.

(* ===================================================================== *)
(** * Reasoning about calls                                               *)
(* ===================================================================== *)

Module CallFacts.
Import Ports Engine Manager Props.

Lemma run_bind {A B} (m : M A) (k : A → M B) (w : World) :
  (m ≫= k) w =
  match m w with
  | (Ok a, w') => k a w'
  | (Raise e, w') => (Raise e, w')
  | (OutOfFuel, w') => (OutOfFuel, w')
  end.
Proof. reflexivity. Qed.

Lemma run_try {A} (body : M A) (handler : exn → M A) (w : World) :
  try_except body handler w =
  match body w with
  | (Raise e, w') => handler e w'
  | other => other
  end.
Proof. reflexivity. Qed.

(** A call ending in [Ok] went through both halves of a bind. *)
Lemma bind_Ok_inv {A B} (m : M A) (k : A → M B) (w w' : World) (b : B) :
  (m ≫= k) w = (Ok b, w') →
  ∃ a w1, m w = (Ok a, w1) ∧ k a w1 = (Ok b, w').
Proof.
  rewrite run_bind. destruct (m w) as [[a|e|] w1]; [eauto|done|done].
Qed.

(** ** What a call leaves related: [preserves R m] *)

Section Preserves.
Context (R : relation World) `{!PreOrder R}.

Lemma preserves_ret {A} (a : A) : preserves R (mret a).
Proof. intros w. simpl. reflexivity. Qed.

Lemma preserves_raise {A} (e : exn) : preserves R (raise e : M A).
Proof. intros w. simpl. reflexivity. Qed.

Lemma preserves_out_of_fuel {A} : preserves R (out_of_fuel : M A).
Proof. intros w. simpl. reflexivity. Qed.

Lemma preserves_gets {A} (f : World → A) : preserves R (gets f).
Proof. intros w. simpl. reflexivity. Qed.

Lemma preserves_bind {A B} (m : M A) (k : A → M B) :
  preserves R m → (∀ a, preserves R (k a)) → preserves R (m ≫= k).
Proof.
  intros Hm Hk w. rewrite run_bind. specialize (Hm w).
  destruct (m w) as [[a|e|] w1]; simpl in *; [|done|done].
  etrans; [exact Hm|apply Hk].
Qed.

Lemma preserves_try {A} (body : M A) (handler : exn → M A) :
  preserves R body → (∀ e, preserves R (handler e)) →
  preserves R (try_except body handler).
Proof.
  intros Hb Hh w. rewrite run_try. specialize (Hb w).
  destruct (body w) as [[a|e|] w1]; simpl in *; [done| |done].
  etrans; [exact Hb|apply Hh].
Qed.

Lemma preserves_getitem {V} (d : gmap string V) (key : string) :
  preserves R (getitem d key).
Proof.
  unfold getitem. destruct (d !! key); [apply preserves_ret|apply preserves_raise].
Qed.

Lemma preserves_getindex (l : list string) (i : nat) : preserves R (getindex l i).
Proof.
  unfold getindex. destruct (l !! i); [apply preserves_ret|apply preserves_raise].
Qed.

Lemma preserves_modify (f : World → World) :
  (∀ w, R w (f w)) → preserves R (modify f).
Proof. intros Hf w. apply Hf. Qed.
End Preserves.

(** ** Calls that always end: [total m] *)

Lemma total_ret {A} (a : A) : total (mret a).
Proof. by intros w. Qed.

Lemma total_raise {A} (e : exn) : total (raise e : M A).
Proof. by intros w. Qed.

Lemma total_gets {A} (f : World → A) : total (gets f).
Proof. by intros w. Qed.

Lemma total_modify (f : World → World) : total (modify f).
Proof. by intros w. Qed.

Lemma total_bind {A B} (m : M A) (k : A → M B) :
  total m → (∀ a, total (k a)) → total (m ≫= k).
Proof.
  intros Hm Hk w. rewrite run_bind. specialize (Hm w).
  destruct (m w) as [[a|e|] w1]; simpl in *; [apply Hk|done|done].
Qed.

Lemma total_try {A} (body : M A) (handler : exn → M A) :
  total body → (∀ e, total (handler e)) → total (try_except body handler).
Proof.
  intros Hb Hh w. rewrite run_try. specialize (Hb w).
  destruct (body w) as [[a|e|] w1]; simpl in *; [done|apply Hh|done].
Qed.

Lemma total_getitem {V} (d : gmap string V) (key : string) : total (getitem d key).
Proof. unfold getitem. destruct (d !! key); [apply total_ret|apply total_raise]. Qed.

Lemma total_getindex (l : list string) (i : nat) : total (getindex l i).
Proof. unfold getindex. destruct (l !! i); [apply total_ret|apply total_raise]. Qed.

Lemma total_engine_call (ev : Event) : total (engine_call ev).
Proof. intros w. unfold engine_call. by destruct (fault _ _). Qed.

Lemma total_logger (lvl : Level) (msg : string) : total (logger lvl msg).
Proof. by intros w. Qed.

Lemma total_sleep (n : Z) : total (sleep n).
Proof. by intros w. Qed.

Lemma total_exec_run c cmd wd : total (exec_run c cmd wd).
Proof. intros w. unfold exec_run. simpl. by destruct (exec_reply _ _). Qed.

Lemma total_datetime_now : total datetime_now.
Proof. by intros w. Qed.

Lemma total_time_time : total time_time.
Proof. by intros w. Qed.

Create HintDb total discriminated.

Ltac head_of t :=
  match t with
  | ?f _ => head_of f
  | _ => t
  end.

(** One step of a proof that a call ends. *)
Ltac total_step :=
  match goal with
  | |- total (_ ≫= _) => apply total_bind; [|intros ?]
  | |- total (try_except _ _) => apply total_try; [|intros ?]
  | |- total (mret _) => apply total_ret
  | |- total (raise _) => apply total_raise
  | |- total (gets _) => apply total_gets
  | |- total (modify _) => apply total_modify
  | |- total (getitem _ _) => apply total_getitem
  | |- total (getindex _ _) => apply total_getindex
  | |- total (engine_call _) => apply total_engine_call
  | |- total (logger _ _) => apply total_logger
  | |- total (sleep _) => apply total_sleep
  | |- total (exec_run _ _ _) => apply total_exec_run
  | |- total datetime_now => apply total_datetime_now
  | |- total time_time => apply total_time_time
  | |- total (match ?x with _ => _ end) => destruct x
  | |- total _ => solve [eauto with total]
  | |- total ?m => let h := head_of m in unfold h
  end.

Ltac total := repeat total_step.

(** ** The relations of [Props] are preorders *)

#[export] Instance same_manager_preorder : PreOrder same_manager.
Proof.
  split; [by intros w|].
  intros w1 w2 w3 [H1 H2] [H3 H4]. split; congruence.
Qed.

#[export] Instance same_port_manager_preorder : PreOrder same_port_manager.
Proof. split; [by intros w|]. unfold same_port_manager. intros ???; congruence. Qed.

#[export] Instance same_env_preorder : PreOrder same_env.
Proof. split; [by intros w|]. unfold same_env. intros ???; congruence. Qed.

#[export] Instance no_exec_since_preorder : PreOrder no_exec_since.
Proof.
  split.
  - intros w. by exists [].
  - intros w1 w2 w3 (n1 & H1 & F1) (n2 & H2 & F2).
    exists (n2 ++ n1). split; [by rewrite H2, H1, app_assoc|by apply Forall_app].
Qed.

#[export] Instance same_engine_containers_preorder : PreOrder same_engine_containers.
Proof.
  split; [by intros w|]. unfold same_engine_containers. intros ???; congruence.
Qed.

(** ** The primitive calls under each relation *)

Ltac related :=
  unfold same_manager, same_port_manager, same_env, no_exec_since,
    same_engine_containers; simpl;
  first [ done | by exists [] ].

Lemma engine_call_same_manager ev : preserves same_manager (engine_call ev).
Proof. intros w. unfold engine_call. destruct (fault _ _); related. Qed.

Lemma engine_call_same_port_manager ev : preserves same_port_manager (engine_call ev).
Proof. intros w. unfold engine_call. destruct (fault _ _); related. Qed.

Lemma engine_call_same_env ev : preserves same_env (engine_call ev).
Proof. intros w. unfold engine_call. destruct (fault _ _); related. Qed.

Lemma engine_call_no_exec ev :
  is_exec ev = false → preserves no_exec_since (engine_call ev).
Proof.
  intros Hev w. unfold engine_call.
  destruct (fault _ _); exists [ev]; simpl; by repeat constructor.
Qed.

Lemma engine_call_same_engine_containers ev :
  preserves same_engine_containers (engine_call ev).
Proof. intros w. unfold engine_call. destruct (fault _ _); related. Qed.

Lemma exec_run_same_manager c cmd wd : preserves same_manager (exec_run c cmd wd).
Proof. intros w. related. Qed.

Lemma exec_run_same_port_manager c cmd wd :
  preserves same_port_manager (exec_run c cmd wd).
Proof. intros w. related. Qed.

Lemma exec_run_same_env c cmd wd : preserves same_env (exec_run c cmd wd).
Proof. intros w. related. Qed.

Lemma sleep_same_manager n : preserves same_manager (sleep n).
Proof. intros w. related. Qed.

Lemma sleep_same_port_manager n : preserves same_port_manager (sleep n).
Proof. intros w. related. Qed.

Lemma sleep_same_env n : preserves same_env (sleep n).
Proof. intros w. related. Qed.

Lemma sleep_no_exec n : preserves no_exec_since (sleep n).
Proof. intros w. exists [EvSleep n]. simpl. by repeat constructor. Qed.

Create HintDb frame discriminated.
#[export] Hint Resolve engine_call_same_manager engine_call_same_port_manager
  engine_call_same_env exec_run_same_manager exec_run_same_port_manager
  exec_run_same_env sleep_same_manager sleep_same_port_manager sleep_same_env
  sleep_no_exec engine_call_same_engine_containers : frame.
#[export] Hint Extern 1 (preserves no_exec_since (engine_call _)) =>
  apply engine_call_no_exec; reflexivity : frame.

(** One step of a frame proof: split the call at its binds, handlers and
    case distinctions, settle the primitives, unfold the rest. *)
Ltac frame_step :=
  match goal with
  | |- preserves ?R (_ ≫= _) => apply (preserves_bind R); [|intros ?]
  | |- preserves ?R (try_except _ _) => apply (preserves_try R); [|intros ?]
  | |- preserves ?R (mret _) => apply (preserves_ret R)
  | |- preserves ?R (raise _) => apply (preserves_raise R)
  | |- preserves ?R out_of_fuel => apply (preserves_out_of_fuel R)
  | |- preserves ?R (gets _) => apply (preserves_gets R)
  | |- preserves ?R time_time => apply (preserves_gets R)
  | |- preserves ?R datetime_now => apply (preserves_gets R)
  | |- preserves ?R (getitem _ _) => apply (preserves_getitem R)
  | |- preserves ?R (getindex _ _) => apply (preserves_getindex R)
  | |- preserves ?R (modify _) => apply (preserves_modify R); intros ?; related
  | |- preserves ?R (logger _ _) => apply (preserves_modify R); intros ?; related
  | |- preserves _ (match ?x with _ => _ end) => destruct x
  | |- preserves _ _ => solve [eauto with frame]
  | |- preserves _ ?m =>
      let h := head_of m in unfold h
  end.

Ltac frame := repeat frame_step.

(** ** Frames of the manager's calls *)

Lemma get_sandbox_same_port_manager pid :
  preserves same_port_manager (get_sandbox pid).
Proof. frame. Qed.

Lemma get_sandbox_no_exec pid : preserves no_exec_since (get_sandbox pid).
Proof. frame. Qed.

Lemma get_sandbox_total pid : total (get_sandbox pid).
Proof. total. Qed.

End CallFacts.

(* ===================================================================== *)
(** * Properties of the sandbox manager                                   *)
(* ===================================================================== *)

Module ManagerFacts.
Import Ports Engine Manager Props CallFacts PortFacts.

(** ** Reading a run that returned *)

Lemma preserves_run {A} (R : relation World) (m : M A) w r w1 :
  preserves R m → m w = (r, w1) → R w w1.
Proof. intros Hp E. specialize (Hp w). by rewrite E in Hp. Qed.

(** [framed R H]: the relation [R] between the two worlds of the run [H],
    by a frame proof. *)
Ltac framed R H :=
  match type of H with
  | ?m ?w = (?r, ?w1) =>
      let Hf := fresh "Hframe" in
      assert (R w w1) as Hf
        by (apply (preserves_run R m w r w1); [frame|exact H])
  end.

Lemma try_Ok_inv {A} (body : M A) (handler : exn → M A) (w w' : World) (a : A) :
  try_except body handler w = (Ok a, w') →
  body w = (Ok a, w')
  ∨ ∃ e w1, body w = (Raise e, w1) ∧ handler e w1 = (Ok a, w').
Proof.
  rewrite run_try. destruct (body w) as [[b|e|] w1]; [by left|eauto|done].
Qed.

Lemma getitem_Ok_inv {V} (d : gmap string V) (key : string) (w w' : World) (v : V) :
  getitem d key w = (Ok v, w') → d !! key = Some v ∧ w' = w.
Proof. unfold getitem. destruct (d !! key); [by intros [= -> ->]|done]. Qed.

Lemma engine_call_Ok_inv ev w u w' :
  engine_call ev w = (Ok u, w') → w' = set_history (λ _, ev :: history w) w.
Proof. unfold engine_call. destruct (fault _ _); [done|by intros [= <- <-]]. Qed.

(** ** [_extract_ports_from_container] *)

Lemma port_mapping_role (internal role : string) :
  port_mapping !! internal = Some role → role ∈ roles.
Proof.
  unfold port_mapping, roles. intros H.
  repeat (apply lookup_insert_Some in H as [[_ <-]|[_ H]]; [by repeat constructor|]).
  apply lookup_singleton_Some in H as [_ <-]. by repeat constructor.
Qed.

Lemma extract_fold_spec (table : list (string * list HostBinding))
    (acc : gmap string Z) (role : string) (port : Z) :
  fold_left extract_step table acc !! role = Some port →
  acc !! role = Some port
  ∨ ∃ internal b rest, (internal, b :: rest) ∈ table
      ∧ port_mapping !! internal = Some role ∧ HostPort b = port.
Proof.
  revert acc. induction table as [|[internal bindings] table IH]; intros acc H.
  { by left. }
  simpl in H. apply IH in H as [H|(i & b & rest & Hin & Hmap & Hport)].
  - destruct bindings as [|b rest]; [by left|].
    destruct (port_mapping !! internal) as [service|] eqn:E; [|by left].
    apply lookup_insert_Some in H as [[<- <-]|[_ H]]; [|by left].
    right. exists internal, b, rest. split_and!; [by left|done|done].
  - right. exists i, b, rest. split_and!; [by right|done|done].
Qed.

(** Every port [_extract_ports_from_container] keeps is the host port of
    the first binding of one of the four internal ports, under that
    port's role. *)
Lemma extract_ports_spec (c : Container) (role : string) (port : Z) :
  _extract_ports_from_container c !! role = Some port →
  role ∈ roles
  ∧ ∃ internal b rest, (internal, b :: rest) ∈ network_ports c
      ∧ port_mapping !! internal = Some role ∧ HostPort b = port.
Proof.
  intros H. apply extract_fold_spec in H as [H|(i & b & rest & Hin & Hmap & Hport)].
  { by rewrite lookup_empty in H. }
  split; [by eapply port_mapping_role|]. by exists i, b, rest.
Qed.

(** ** [get_sandbox] *)

Lemma get_sandbox_cached_Ok pid info view w w' :
  get_sandbox_cached pid info w = (Ok view, w') →
  ∃ c, containers w' = <[pid := with_container c info]> (containers w)
       ∧ view_status view = status c.
Proof.
  unfold get_sandbox_cached. intros H.
  apply bind_Ok_inv in H as (c & w1 & Hreload & H).
  framed same_manager Hreload. destruct Hframe as [Hc1 _].
  apply bind_Ok_inv in H as ([] & w2 & [= <-] & H).
  apply bind_Ok_inv in H as (e & w3 & [= <- <-] & H).
  apply bind_Ok_inv in H as (urls & w4 & Hurls & [= <- <-]).
  framed same_manager Hurls. destruct Hframe as [Hc4 _].
  exists c. split; [|done]. rewrite Hc4. simpl. by rewrite Hc1.
Qed.

(** A [get_sandbox] that misses the cache and returns has found the
    container by name in the engine and stored an entry whose ports are
    the extracted ones. *)
Lemma get_sandbox_recovered pid view w w' :
  containers w !! pid = None →
  get_sandbox pid w = (Ok view, w') →
  ∃ c c' created,
    find_by_name ("suna-sandbox-" +:+ pid) (engine_containers (engine w)) = Some c
    ∧ labels c !! "suna.project_id" = Some pid
    ∧ containers w' =
        <[pid := {| container := c';
                    ports := _extract_ports_from_container c;
                    config := default_config pid;
                    created_at := created;
                    volume_name := "suna-workspace-" +:+ pid |}]> (containers w).
Proof.
  intros Hmiss H. unfold get_sandbox in H.
  apply bind_Ok_inv in H as (cs & w0 & [= <- <-] & H). rewrite Hmiss in H.
  apply bind_Ok_inv in H as (r & w1 & Hrec & H).
  destruct r as [view'|]; [|done]. injection H as <- <-.
  unfold get_sandbox_recover in Hrec.
  apply try_Ok_inv in Hrec as [Hrec|(e & w2 & _ & Hh)].
  2:{ by destruct (is_DockerNotFound e). }
  apply bind_Ok_inv in Hrec as (c & w2 & Hget & Hrec).
  unfold containers_get in Hget.
  apply bind_Ok_inv in Hget as ([] & w3 & ->%engine_call_Ok_inv & Hget).
  apply bind_Ok_inv in Hget as (cs & w4 & [= <- <-] & Hget). simpl in Hget.
  destruct (find_by_name _ _) as [c0|] eqn:Efind; [|done].
  injection Hget as -> <-.
  case_bool_decide as Hlabel; [|done].
  apply bind_Ok_inv in Hrec as (created & w5 & Hcreated & Hrec).
  framed same_manager Hcreated. destruct Hframe as [Hc5 _]. simpl in Hc5.
  apply bind_Ok_inv in Hrec as ([] & w6 & [= <-] & Hrec).
  apply bind_Ok_inv in Hrec as (v & w7 & Hcached & [= <- <-]).
  apply get_sandbox_cached_Ok in Hcached as (c' & Hc7 & _).
  exists c, c', created. split_and!; [done|done|].
  rewrite Hc7. simpl. rewrite Hc5. by rewrite insert_insert_eq.
Qed.

Lemma holds_lookup (w : World) (pid role : string) (port : Z) :
  (containers w !! pid ≫= λ e, ports e !! role) = Some port →
  holds w pid role port.
Proof.
  intros H. destruct (containers w !! pid) as [e|] eqn:E; [|done].
  by exists e.
Qed.

(** C5, as the specification states it, fails: a manager restarted over
    an engine that still runs the sandbox of [p1] rebuilds the entry with
    the four published ports, and none of them is in the allocated set. *)
Lemma get_sandbox_does_not_reserve :
  ¬ (∀ (w : World) (pid role : string) (port : Z),
       containers w !! pid = None →
       holds (snd (get_sandbox pid w)) pid role port →
       port ∈ allocated_ports (port_manager (snd (get_sandbox pid w)))).
Proof.
  intros H.
  specialize (H Scenario.restarted "p1" "vnc" 15901 eq_refl).
  assert (holds (snd (get_sandbox "p1" Scenario.restarted)) "p1" "vnc" 15901) as Hh.
  { apply holds_lookup. vm_compute. reflexivity. }
  apply H in Hh. revert Hh. rewrite <- elem_of_elements.
  apply (bool_decide_unpack _). vm_compute. exact I.
Qed.

(** What follows from it: the next allocation hands out the ports the
    rebuilt sandbox holds. *)
Lemma recovered_ports_are_handed_out_again :
  let w := snd (get_sandbox "p1" Scenario.restarted) in
  holds w "p1" "vnc" 15901
  ∧ ∃ ports, fst (allocate_ports "p2" (port_manager w)) = Ok ports
             ∧ ports !! "vnc" = Some 15901.
Proof.
  split.
  - apply holds_lookup. vm_compute. reflexivity.
  - exists {[ "vnc" := 15901; "novnc" := 16080;
              "browser_api" := 17788; "file_server" := 18080 ]}.
    split; vm_compute; reflexivity.
Qed.

(** C5, amended: [get_sandbox] never changes the port manager. When it
    rebuilds a cache entry from a container found by name, the entry's
    ports are those [_extract_ports_from_container] reads from that
    container: for each of the internal ports 5901, 6080, 7788 and 8080
    that has a binding, the host port of the first binding, under that
    port's role, and nothing else. *)
Theorem get_sandbox_recovers_ports_unreserved (pid : string) (w : World) :
  port_manager (snd (get_sandbox pid w)) = port_manager w
  ∧ (containers w !! pid = None →
     ∀ view, fst (get_sandbox pid w) = Ok view →
     ∃ c entry,
       find_by_name ("suna-sandbox-" +:+ pid) (engine_containers (engine w)) = Some c
       ∧ labels c !! "suna.project_id" = Some pid
       ∧ containers (snd (get_sandbox pid w)) !! pid = Some entry
       ∧ ports entry = _extract_ports_from_container c
       ∧ ∀ role port, ports entry !! role = Some port →
           role ∈ roles
           ∧ ∃ internal b rest, (internal, b :: rest) ∈ network_ports c
               ∧ port_mapping !! internal = Some role ∧ HostPort b = port).
Proof.
  split; [apply get_sandbox_same_port_manager|].
  intros Hmiss view Hview.
  destruct (get_sandbox pid w) as [r w'] eqn:Hrun. simpl in *. subst r.
  destruct (get_sandbox_recovered _ _ _ _ Hmiss Hrun)
    as (c & c' & created & Hfind & Hlabel & Hcache).
  exists c, {| container := c'; ports := _extract_ports_from_container c;
               config := default_config pid; created_at := created;
               volume_name := "suna-workspace-" +:+ pid |}.
  split_and!; [done|done| |done|].
  - rewrite Hcache. apply lookup_insert_eq.
  - simpl. apply extract_ports_spec.
Qed.

Lemma get_sandbox_recovers_ports_unreserved_witness :
  port_manager (snd (get_sandbox "p1" Scenario.restarted))
  = port_manager Scenario.restarted
  ∧ ∃ c entry,
      find_by_name "suna-sandbox-p1"
        (engine_containers (engine Scenario.restarted)) = Some c
      ∧ labels c !! "suna.project_id" = Some "p1"
      ∧ containers (snd (get_sandbox "p1" Scenario.restarted)) !! "p1" = Some entry
      ∧ ports entry = _extract_ports_from_container c
      ∧ ∀ role port, ports entry !! role = Some port →
          role ∈ roles
          ∧ ∃ internal b rest, (internal, b :: rest) ∈ network_ports c
              ∧ port_mapping !! internal = Some role ∧ HostPort b = port.
Proof.
  pose proof (get_sandbox_recovers_ports_unreserved "p1" Scenario.restarted)
    as [Hpm Hrec].
  split; [exact Hpm|].
  destruct (fst (get_sandbox "p1" Scenario.restarted)) as [view| |] eqn:E;
    [|by vm_compute in E|by vm_compute in E].
  exact (Hrec eq_refl view eq_refl).
Defined.

(** ** [cleanup_expired_sandboxes] *)

(** C7, where the code departs from the claim. The manager has been
    restarted, so its cache is empty; the engine still holds the container
    of [p1], whose [suna.auto_stop_at] label is a day in 2024, long past.
    One sweep finds it and collects [p1], but [delete_sandbox] only looks
    in the cache and raises; the sweep logs the error and returns, and the
    container and its volume are still there. *)
Theorem cleanup_misses_uncached_expired :
  let w := Scenario.restarted in
  let w' := snd (cleanup_expired_sandboxes w) in
  engine_containers (engine w) = [Scenario.old_container]
  ∧ fromisoformat (env w) "2024-01-02T00:00:00" = Some (Naive 1704153600000000)
  ∧ labels Scenario.old_container !! "suna.auto_stop_at" = Some "2024-01-02T00:00:00"
  ∧ 1704153600000000 < clock w
  ∧ fst (cleanup_expired_sandboxes w) = Ok tt
  ∧ engine_containers (engine w') = [Scenario.old_container]
  ∧ engine_volumes (engine w') = {[ "suna-workspace-p1" ]}
  ∧ log w' = [ (ERROR, "Failed to cleanup sandbox p1: Sandbox for project p1 not found") ].
Proof.
  intros w w'.
  split; [reflexivity|]. split; [vm_compute; reflexivity|].
  split; [vm_compute; reflexivity|]. split; [reflexivity|].
  split; [vm_compute; reflexivity|]. split; [vm_compute; reflexivity|].
  split; [|vm_compute; reflexivity].
  apply set_eq. intros v. rewrite <- elem_of_elements.
  assert (elements (engine_volumes (engine w')) = ["suna-workspace-p1"]) as ->
    by (vm_compute; reflexivity).
  by rewrite list_elem_of_singleton, elem_of_singleton.
Qed.

(** ** The readiness probe: unfolding its loops *)

Lemma supervisord_loop_S fuel c start :
  supervisord_loop (S fuel) c start =
  (now ← time_time;
   if bool_decide (now - start < seconds 30) then
     ready ← probe c "pgrep supervisord";
     if (ready : bool) then mret true
     else sleep 2;; supervisord_loop fuel c start
   else mret false).
Proof. reflexivity. Qed.

Lemma services_loop_S fuel c start timeout ready :
  services_loop (S fuel) c start timeout ready =
  (now ← time_time;
   if bool_decide (now - start < seconds timeout) then
     '(ready', all_ready) ← probe_round c services_to_check ready true;
     if (all_ready : bool) then mret tt
     else sleep 3;; services_loop fuel c start timeout ready'
   else logger WARNING (timeout_message ready)).
Proof. reflexivity. Qed.

Lemma probe_round_cons c service port rest ready all_ready :
  probe_round c ((service, port) :: rest) ready all_ready =
  (if bool_decide (service ∉ ready) then
     ok ← probe c (probe_command port);
     if (ok : bool) then probe_round c rest (ready ++ [service]) all_ready
     else probe_round c rest ready false
   else probe_round c rest ready all_ready).
Proof. reflexivity. Qed.

(** ** Frames of the readiness probe *)

Section LoopFrames.
Context (R : relation World) `{!PreOrder R}.
Hypothesis exec_run_R : ∀ c cmd wd, preserves R (exec_run c cmd wd).
Hypothesis sleep_R : ∀ n, preserves R (sleep n).
Hypothesis logger_R : ∀ lvl msg, preserves R (logger lvl msg).

Lemma probe_preserves c cmd : preserves R (probe c cmd).
Proof.
  unfold probe. apply (preserves_try R); [|intros; apply (preserves_ret R)].
  apply (preserves_bind R); [apply exec_run_R|intros; apply (preserves_ret R)].
Qed.

Lemma supervisord_loop_preserves fuel c start :
  preserves R (supervisord_loop fuel c start).
Proof.
  induction fuel as [|fuel IH]; [apply (preserves_out_of_fuel R)|].
  rewrite supervisord_loop_S.
  apply (preserves_bind R); [apply (preserves_gets R)|intros now].
  case_bool_decide; [|apply (preserves_ret R)].
  apply (preserves_bind R); [apply probe_preserves|intros [|]].
  - apply (preserves_ret R).
  - apply (preserves_bind R); [apply sleep_R|intros; apply IH].
Qed.

Lemma probe_round_preserves c to_check ready all_ready :
  preserves R (probe_round c to_check ready all_ready).
Proof.
  revert ready all_ready.
  induction to_check as [|[service port] rest IH]; intros ready all_ready.
  { apply (preserves_ret R). }
  rewrite probe_round_cons. case_bool_decide; [|apply IH].
  apply (preserves_bind R); [apply probe_preserves|intros [|]]; apply IH.
Qed.

Lemma services_loop_preserves fuel c start timeout ready :
  preserves R (services_loop fuel c start timeout ready).
Proof.
  revert ready. induction fuel as [|fuel IH]; intros ready.
  { apply (preserves_out_of_fuel R). }
  rewrite services_loop_S.
  apply (preserves_bind R); [apply (preserves_gets R)|intros now].
  case_bool_decide; [|apply logger_R].
  apply (preserves_bind R); [apply probe_round_preserves|intros [ready' [|]]].
  - apply (preserves_ret R).
  - apply (preserves_bind R); [apply sleep_R|intros; apply IH].
Qed.

Lemma wait_for_services_preserves c timeout :
  preserves R (_wait_for_services c timeout).
Proof.
  unfold _wait_for_services.
  apply (preserves_bind R); [apply (preserves_gets R)|intros start].
  apply (preserves_bind R); [apply supervisord_loop_preserves|intros ready].
  apply (preserves_bind R).
  { destruct ready; [apply (preserves_ret R)|apply logger_R]. }
  intros _. apply (preserves_bind R); [apply services_loop_preserves|].
  intros _. apply sleep_R.
Qed.
End LoopFrames.

Lemma wait_same_manager c timeout : preserves same_manager (_wait_for_services c timeout).
Proof.
  apply (wait_for_services_preserves same_manager); intros; frame.
Qed.

Lemma wait_same_env c timeout : preserves same_env (_wait_for_services c timeout).
Proof.
  apply (wait_for_services_preserves same_env); intros; frame.
Qed.

#[export] Hint Resolve wait_same_manager wait_same_env : frame.

Lemma create_sandbox_launch_same_manager cfg nm ports :
  preserves same_manager (create_sandbox_launch cfg nm ports).
Proof. frame. Qed.

Lemma delete_sandbox_same_env pid : preserves same_env (delete_sandbox pid).
Proof. frame. Qed.

(** ** [create_sandbox] on a project that exists already *)

Lemma create_sandbox_cached cfg w :
  is_Some (containers w !! project_id cfg) →
  create_sandbox cfg w
  = (Raise (ValueError ("Sandbox for project " +:+ project_id cfg
                        +:+ " already exists")), w).
Proof.
  intros Hin. unfold create_sandbox. rewrite run_bind. simpl.
  by rewrite bool_decide_eq_true_2.
Qed.

Lemma allocate_ports_total pid pm : fst (allocate_ports pid pm) ≠ OutOfFuel.
Proof.
  unfold allocate_ports.
  destruct (allocate_loop _ _ _) as [r a] eqn:El. cbn. intros ->.
  revert El. generalize (∅ : gmap string Z). generalize (allocated_ports pm).
  induction (port_ranges pm) as [|[s [lo hi]] rest IH]; intros a0 p0; simpl; [done|].
  destruct (first_free _ _ _); [apply IH|done].
Qed.

(** [create_sandbox] on a project the cache does not hold: the ports are
    allocated, the [try] runs, and its handler releases them. *)
Lemma create_sandbox_run cfg w :
  containers w !! project_id cfg = None →
  create_sandbox cfg w =
  match allocate_ports (project_id cfg) (port_manager w) with
  | (Ok ports, pm1) =>
      match create_sandbox_try cfg ("suna-sandbox-" +:+ project_id cfg) ports
              (set_port_manager (λ _, pm1) w) with
      | (Raise e, w2) =>
          (Raise e,
           set_log (cons (ERROR, "Failed to create sandbox for project "
                                 +:+ project_id cfg +:+ ": " +:+ str_of_exn e))
             (set_port_manager (release_ports ports) w2))
      | other => other
      end
  | (Raise e, pm1) => (Raise e, set_port_manager (λ _, pm1) w)
  | (OutOfFuel, pm1) => (OutOfFuel, set_port_manager (λ _, pm1) w)
  end.
Proof.
  intros Hmiss. unfold create_sandbox. rewrite run_bind. cbn [gets].
  rewrite bool_decide_eq_false_2 by (rewrite Hmiss; by intros [? ?]).
  rewrite run_bind. unfold port_manager_allocate.
  destruct (allocate_ports _ _) as [[ports|e|] pm1]; [|done|done].
  rewrite run_try.
  by destruct (create_sandbox_try _ _ _ _) as [[a|e|] w2].
Qed.

Lemma container_config_pure cfg nm vol ports : preserves eq (container_config cfg nm vol ports).
Proof. frame. Qed.

Lemma container_config_name cfg nm vol ports w spec w' :
  container_config cfg nm vol ports w = (Ok spec, w') → spec_name spec = nm.
Proof.
  unfold container_config. intros H.
  repeat (apply bind_Ok_inv in H as (? & ? & _ & H)).
  by injection H as <- _.
Qed.

Lemma container_config_total cfg nm vol ports : total (container_config cfg nm vol ports).
Proof. total. Qed.

Lemma ensure_volume_total vol :
  total (try_except (volumes_get vol;; mret tt)
           (λ e, if is_DockerNotFound e then volumes_create vol else raise e)).
Proof. total. Qed.

Lemma ensure_volume_same_engine_containers vol :
  preserves same_engine_containers
    (try_except (volumes_get vol;; mret tt)
       (λ e, if is_DockerNotFound e then volumes_create vol else raise e)).
Proof. frame. Qed.

(** With the name taken in the engine, the launch raises, at
    [containers.run] at the latest, and the engine holds the containers it
    held. *)
Lemma create_sandbox_launch_conflict cfg nm ports w :
  is_Some (find_by_name nm (engine_containers (engine w))) →
  (∃ e, fst (create_sandbox_launch cfg nm ports w) = Raise e)
  ∧ same_engine_containers w (snd (create_sandbox_launch cfg nm ports w)).
Proof.
  intros [c0 Hc0]. unfold create_sandbox_launch. rewrite run_bind.
  pose proof (ensure_volume_total ("suna-workspace-" +:+ project_id cfg) w) as Ht.
  pose proof (ensure_volume_same_engine_containers
                ("suna-workspace-" +:+ project_id cfg) w) as Hv.
  destruct (try_except _ _ w) as [[[]|e|] w1]; simpl in *; [|by eauto|done].
  rewrite run_bind.
  pose proof (container_config_pure cfg nm
                ("suna-workspace-" +:+ project_id cfg) ports w1) as Hpure.
  pose proof (container_config_total cfg nm
                ("suna-workspace-" +:+ project_id cfg) ports w1) as Htc.
  destruct (container_config _ _ _ _ w1) as [r2 w2] eqn:Ecfg.
  cbn [fst snd] in *. subst w2.
  destruct r2 as [spec|e|]; [|by eauto|done].
  apply container_config_name in Ecfg.
  rewrite run_bind. unfold containers_run at 1 2. rewrite !run_bind.
  unfold engine_call. rewrite Ecfg.
  destruct (fault _ _); cbn [fst snd]; [by eauto|].
  rewrite !run_bind. cbn -[find_by_name].
  unfold same_engine_containers in Hv. rewrite Hv, Hc0. cbn. by eauto.
Qed.

(** C4, as the specification states it, fails where only the engine
    knows the project: the volume is ensured before [containers.run] is
    tried, so a container left without its volume gets one created by the
    failing call. *)
Lemma create_sandbox_duplicate_creates_volume :
  ¬ (∀ (cfg : SandboxConfig) (w : World),
       is_Some (find_by_name ("suna-sandbox-" +:+ project_id cfg)
                  (engine_containers (engine w))) →
       (∃ e, fst (create_sandbox cfg w) = Raise e)
       ∧ port_manager (snd (create_sandbox cfg w)) = port_manager w
       ∧ engine_containers (engine (snd (create_sandbox cfg w)))
         = engine_containers (engine w)
       ∧ engine_volumes (engine (snd (create_sandbox cfg w)))
         = engine_volumes (engine w)).
Proof.
  intros H.
  destruct (H (default_config "p1") Scenario.restarted_no_volume)
    as (_ & _ & _ & Hvol).
  { by eexists. }
  assert ("suna-workspace-p1" ∈ engine_volumes
            (engine (snd (create_sandbox (default_config "p1")
                            Scenario.restarted_no_volume)))) as Hin.
  { rewrite <- elem_of_elements. apply (bool_decide_unpack _).
    vm_compute. exact I. }
  rewrite Hvol in Hin. simpl in Hin. by apply not_elem_of_empty in Hin.
Qed.

(** C4, amended: [create_sandbox] fails with the already-exists
    [ValueError], touching neither the manager nor the engine, whenever the
    project is in the manager's cache. When the project is not cached but
    the engine holds a container named [suna-sandbox-<project_id>], the
    call still fails, stores no cache entry and leaves the engine's
    containers as they were: either the port allocation itself fails, or
    the attempt fails at [containers.run] at the latest (the engine refuses
    the name) and the ports taken for it are released again. *)
Theorem create_sandbox_rejects_duplicate (cfg : SandboxConfig) (w : World) :
  (is_Some (containers w !! project_id cfg) →
   create_sandbox cfg w
   = (Raise (ValueError ("Sandbox for project " +:+ project_id cfg
                         +:+ " already exists")), w))
  ∧ (containers w !! project_id cfg = None →
     is_Some (find_by_name ("suna-sandbox-" +:+ project_id cfg)
                (engine_containers (engine w))) →
     NoDup (port_ranges (port_manager w)).*1 →
     ∃ e, fst (create_sandbox cfg w) = Raise e
          ∧ containers (snd (create_sandbox cfg w)) = containers w
          ∧ engine_containers (engine (snd (create_sandbox cfg w)))
            = engine_containers (engine w)
          ∧ (fst (allocate_ports (project_id cfg) (port_manager w)) = Raise e
             ∨ port_manager (snd (create_sandbox cfg w)) = port_manager w)).
Proof.
  split; [apply create_sandbox_cached|].
  intros Hmiss Hname Hnodup.
  destruct (create_sandbox cfg w) as [r w'] eqn:Hrun. cbn [fst snd].
  rewrite create_sandbox_run in Hrun by done.
  pose proof (allocate_ports_total (project_id cfg) (port_manager w)) as Hta.
  destruct (allocate_ports (project_id cfg) (port_manager w))
    as [[ports|e|] pm1] eqn:Ealloc; [|simplify_eq; by eauto 10|done].
  set (w1 := set_port_manager (λ _, pm1) w) in *.
  unfold create_sandbox_try in Hrun. rewrite run_bind in Hrun.
  destruct (create_sandbox_launch_conflict cfg
              ("suna-sandbox-" +:+ project_id cfg) ports w1 Hname)
    as [[e He] Hsame].
  pose proof (create_sandbox_launch_same_manager cfg
                ("suna-sandbox-" +:+ project_id cfg) ports w1) as [Hc Hpm].
  destruct (create_sandbox_launch _ _ _ w1) as [r2 w2]. cbn [fst snd] in *.
  subst r2. simplify_eq. cbn.
  exists e. split_and!; [done|done|done|].
  right. rewrite Hpm. cbn. by eapply release_after_allocate.
Qed.

Lemma create_sandbox_rejects_duplicate_witness :
  create_sandbox (default_config "p1") Scenario.created
  = (Raise (ValueError "Sandbox for project p1 already exists"), Scenario.created)
  ∧ ∃ e, fst (create_sandbox (default_config "p1") Scenario.restarted) = Raise e
         ∧ containers (snd (create_sandbox (default_config "p1") Scenario.restarted))
           = containers Scenario.restarted
         ∧ engine_containers
             (engine (snd (create_sandbox (default_config "p1") Scenario.restarted)))
           = engine_containers (engine Scenario.restarted)
         ∧ (fst (allocate_ports "p1" (port_manager Scenario.restarted)) = Raise e
            ∨ port_manager (snd (create_sandbox (default_config "p1") Scenario.restarted))
              = port_manager Scenario.restarted).
Proof.
  pose proof (create_sandbox_rejects_duplicate (default_config "p1")) as H.
  split.
  - apply (proj1 (H Scenario.created)). vm_compute. by eexists.
  - apply (proj2 (H Scenario.restarted)).
    + reflexivity.
    + by eexists.
    + apply (bool_decide_unpack _). vm_compute. exact I.
Defined.

(** ** The port invariant *)

(** Read the fields of a world written with the setters. *)
Ltac fields :=
  cbn [containers port_manager workspaces_cache engine env clock history log
       set_containers set_port_manager set_workspaces_cache set_engine
       set_clock set_history set_log fst snd] in *.

(** Run the state-passing primitives of the goal. *)
Ltac run :=
  unfold mbind, M_bind, mret, M_ret, datetime_now, time_time, gets, modify,
    raise, logger;
  cbv beta iota; cbn [fst snd].

Lemma keeps_bind {A B} (P : World → Prop) (m : M A) (k : A → M B) :
  keeps P m → (∀ a, keeps P (k a)) → keeps P (m ≫= k).
Proof.
  intros Hm Hk w HP. rewrite run_bind. specialize (Hm w HP).
  destruct (m w) as [[a|e|] w1]; cbn [snd] in *; [by apply Hk|done|done].
Qed.

Lemma keeps_try {A} (P : World → Prop) (body : M A) (handler : exn → M A) :
  keeps P body → (∀ e, keeps P (handler e)) → keeps P (try_except body handler).
Proof.
  intros Hb Hh w HP. rewrite run_try. specialize (Hb w HP).
  destruct (body w) as [[a|e|] w1]; cbn [snd] in *; [done|by apply Hh|done].
Qed.

Lemma keeps_ret {A} (P : World → Prop) (a : A) : keeps P (mret a).
Proof. by intros w HP. Qed.

(** Fewer holdings, the same ranges and no port given back: the
    invariant stays. *)
Lemma port_invariant_mono (w w' : World) :
  (∀ pid role port, holds w' pid role port → holds w pid role port) →
  port_ranges (port_manager w') = port_ranges (port_manager w) →
  allocated_ports (port_manager w) ⊆ allocated_ports (port_manager w') →
  port_invariant w → port_invariant w'.
Proof.
  intros Hh Hr Ha [Iranges Irange Iunique Ialloc]. split.
  - by rewrite Hr.
  - intros pid role port H%Hh. by eapply Irange.
  - intros p1 r1 p2 r2 port H1%Hh H2%Hh. by eapply Iunique.
  - intros pid role port H%Hh. by eapply Ha, Ialloc.
Qed.

Lemma same_manager_keeps_invariant {A} (m : M A) :
  preserves same_manager m → keeps port_invariant m.
Proof.
  intros Hp w. specialize (Hp w) as [Hc Hpm].
  apply port_invariant_mono.
  - intros pid role port (e & He & Hport). exists e. by rewrite <- Hc.
  - by rewrite Hpm.
  - by rewrite Hpm.
Qed.

Lemma port_invariant_init (s : State) (e : Env) (t : Z) :
  port_invariant (manager_init s e t).
Proof.
  split; [done|..]; intros *; unfold holds; cbn; intros (? & H & _);
    by rewrite lookup_empty in H.
Qed.

Lemma declared_range (role : string) (lo hi port : Z) :
  (role, (lo, hi)) ∈ port_ranges PortManager_init → lo ≤ port ≤ hi →
  in_declared_range role port.
Proof.
  unfold PortManager_init, in_declared_range. cbn. intros Hin Hport.
  repeat (apply elem_of_cons in Hin as [[= -> -> ->]|Hin]; [tauto|]).
  by apply elem_of_nil in Hin.
Qed.

Lemma declared_nodup : NoDup (port_ranges PortManager_init).*1.
Proof. apply (bool_decide_unpack _). vm_compute. exact I. Qed.

(** Storing the entry of a project with the ports just allocated for it. *)
Lemma port_invariant_insert (w w2 : World) pid ports pm1 entry :
  port_invariant w →
  containers w !! pid = None →
  allocate_ports pid (port_manager w) = (Ok ports, pm1) →
  containers w2 = containers w → port_manager w2 = pm1 →
  Manager.ports entry = ports →
  port_invariant (set_containers (<[pid := entry]>) w2).
Proof.
  intros [Iranges Irange Iunique Ialloc] Hmiss Halloc Hc Hpm Hports.
  pose proof declared_nodup as Hnodup. rewrite <- Iranges in Hnodup.
  destruct (allocate_ports_Ok _ _ _ _ Hnodup Halloc) as (Hdom & Hnew & Hinj & Hgrew).
  pose proof (allocate_ports_ranges pid (port_manager w)) as Hr.
  rewrite Halloc in Hr. cbn in Hr.
  assert (∀ p role port,
            holds (set_containers (<[pid := entry]>) w2) p role port →
            (p = pid ∧ ports !! role = Some port)
            ∨ (p ≠ pid ∧ holds w p role port)) as Hcases.
  { intros p role port (e & He & Hport). fields. rewrite Hc in He.
    apply lookup_insert_Some in He as [[<- <-]|[Hne He]].
    - left. by rewrite <- Hports.
    - right. split; [done|]. by exists e. }
  split; fields.
  - by rewrite Hpm, Hr.
  - intros p role port [[-> Hp]|[_ Hh]]%Hcases; [|by eapply Irange].
    destruct (Hnew _ _ Hp) as (_ & _ & lo & hi & Hin & Hlh).
    rewrite Iranges in Hin. by eapply declared_range.
  - intros p1 r1 p2 r2 port [[-> H1]|[Hn1 H1]]%Hcases [[-> H2]|[Hn2 H2]]%Hcases.
    + split; [done|]. by eapply Hinj.
    + destruct (Hnew _ _ H1) as (Hfresh & _). by apply Ialloc in H2.
    + destruct (Hnew _ _ H2) as (Hfresh & _). by apply Ialloc in H1.
    + by eapply Iunique.
  - intros p role port [[-> Hp]|[_ Hh]]%Hcases; rewrite Hpm, Hgrew.
    + right. by exists role.
    + left. by eapply Ialloc.
Qed.

Lemma create_sandbox_invariant cfg : keeps port_invariant (create_sandbox cfg).
Proof.
  intros w Hinv.
  destruct (containers w !! project_id cfg) as [e0|] eqn:Hcached.
  { rewrite create_sandbox_cached by (by eexists). done. }
  rewrite create_sandbox_run by done.
  pose proof declared_nodup as Hnodup. rewrite <- (inv_ranges _ Hinv) in Hnodup.
  pose proof (allocate_ports_grows (project_id cfg) _ Hnodup) as Hgrows.
  pose proof (allocate_ports_ranges (project_id cfg) (port_manager w)) as Hranges.
  destruct (allocate_ports (project_id cfg) (port_manager w))
    as [r pm1] eqn:Ealloc. cbn [snd] in *.
  assert (port_invariant (set_port_manager (λ _, pm1) w)) as Hinv1.
  { revert Hinv. apply port_invariant_mono; [|done|done].
    intros pid role port (e & He & Hp). by exists e. }
  destruct r as [ports|e|]; [|done|done].
  unfold create_sandbox_try. rewrite run_bind.
  pose proof (create_sandbox_launch_same_manager cfg
                ("suna-sandbox-" +:+ project_id cfg) ports
                (set_port_manager (λ _, pm1) w)) as [Hc Hpm].
  destruct (create_sandbox_launch _ _ _ _) as [[c|e|] w2]; fields.
  - run. by eapply (port_invariant_insert w w2 _ ports pm1).
  - revert Hinv. apply port_invariant_mono; fields.
    + intros pid role port (e' & He & Hp). exists e'. by rewrite <- Hc.
    + by rewrite release_ports_ranges, Hpm, Hranges.
    + rewrite Hpm, (release_after_allocate _ _ _ _ Hnodup Ealloc). by intros x.
  - revert Hinv1. apply port_invariant_mono; fields.
    + intros pid role port (e' & He & Hp). exists e'. fields. by rewrite <- Hc.
    + by rewrite Hpm.
    + by rewrite Hpm.
Qed.

Lemma delete_sandbox_engine_same_manager info :
  preserves same_manager (delete_sandbox_engine info).
Proof. frame. Qed.

Lemma delete_sandbox_invariant pid : keeps port_invariant (delete_sandbox pid).
Proof.
  intros w Hinv. unfold delete_sandbox. rewrite run_bind. cbn [gets].
  destruct (containers w !! pid) as [info|] eqn:Hcached; [|done].
  rewrite run_bind.
  pose proof (delete_sandbox_engine_same_manager info w) as [Hc Hpm].
  destruct (delete_sandbox_engine info w) as [[[]|e|] w1]; fields.
  2,3: revert Hinv; apply port_invariant_mono;
       [ intros p role port (e' & He & Hp); exists e'; by rewrite <- Hc
       | by rewrite Hpm | by rewrite Hpm ].
  destruct Hinv as [Iranges Irange Iunique Ialloc].
  assert (∀ p role port,
            holds (set_containers (delete pid)
                     (set_port_manager (release_ports (ports info)) w1)) p role port →
            p ≠ pid ∧ holds w p role port) as Hcases.
  { run. intros p role port (e & He & Hport). fields. rewrite Hc in He.
    apply lookup_delete_Some in He as [Hne He]. split; [done|]. by exists e. }
  run. split; fields.
  - by rewrite Hpm.
  - intros p role port [_ Hh]%Hcases. by eapply Irange.
  - intros p1 r1 p2 r2 port [_ H1]%Hcases [_ H2]%Hcases. by eapply Iunique.
  - intros p role port [Hne Hh]%Hcases.
    apply release_ports_elem. rewrite Hpm. split; [by eapply Ialloc|].
    intros s Hs. apply Hne.
    assert (holds w pid s port) as Hmine by (by exists info).
    by destruct (Iunique _ _ _ _ _ Hh Hmine).
Qed.

Lemma logger_keeps_invariant lvl msg : keeps port_invariant (logger lvl msg).
Proof. apply same_manager_keeps_invariant. frame. Qed.

Lemma delete_expired_invariant expired : keeps port_invariant (delete_expired expired).
Proof.
  induction expired as [|pid rest IH]; [apply keeps_ret|].
  cbn [delete_expired]. apply keeps_bind; [|by intros].
  apply keeps_try; [apply delete_sandbox_invariant|].
  intros e. apply logger_keeps_invariant.
Qed.

Lemma collect_expired_same_manager now cs expired :
  preserves same_manager (collect_expired now cs expired).
Proof.
  revert expired. induction cs as [|c cs IH]; intros expired; cbn [collect_expired].
  { frame. }
  destruct (labels c !! "suna.auto_stop_at"); [|apply IH].
  case_bool_decide; [|apply IH].
  apply (preserves_bind same_manager); [frame|intros e].
  destruct (fromisoformat e _).
  - apply (preserves_bind same_manager); [frame|intros [|]]; [|apply IH].
    destruct (labels c !! "suna.project_id"); [|apply IH].
    case_bool_decide; apply IH.
  - apply (preserves_bind same_manager); [frame|intros; apply IH].
Qed.

Lemma cleanup_invariant : keeps port_invariant cleanup_expired_sandboxes.
Proof.
  unfold cleanup_expired_sandboxes.
  apply keeps_bind; [apply same_manager_keeps_invariant; frame|intros now].
  apply keeps_bind; [apply same_manager_keeps_invariant; frame|intros cs].
  apply keeps_bind; [|intros; apply delete_expired_invariant].
  apply same_manager_keeps_invariant, collect_expired_same_manager.
Qed.

Lemma stop_sandbox_invariant pid : keeps port_invariant (stop_sandbox pid).
Proof. apply same_manager_keeps_invariant. frame. Qed.

(** [get_sandbox] on a cached project changes at most the handle of
    that project's entry. *)
Lemma get_sandbox_cached_holds pid info w p role port :
  containers w !! pid = Some info →
  holds (snd (get_sandbox_cached pid info w)) p role port →
  holds w p role port.
Proof.
  intros Hinfo. unfold get_sandbox_cached. rewrite run_bind.
  destruct (reload (container info) w) as [r w1] eqn:Hreload.
  framed same_manager Hreload. destruct Hframe as [Hc1 _].
  destruct r as [c|e|]; cbn [snd];
    [|intros (e' & He & Hp); exists e'; by rewrite <- Hc1..].
  rewrite run_bind. cbn [modify].
  destruct ((gets env ≫= _) _) as [r2 w2] eqn:Hrest.
  framed same_manager Hrest. destruct Hframe as [Hc2 _].
  intros (e' & He & Hp). fields. rewrite Hc2 in He. fields. rewrite Hc1 in He.
  apply lookup_insert_Some in He as [[<- <-]|[Hne He]].
  - by exists info.
  - by exists e'.
Qed.

Lemma get_sandbox_cached_invariant pid w :
  is_Some (containers w !! pid) →
  port_invariant w → port_invariant (snd (get_sandbox pid w)).
Proof.
  intros [info Hinfo].
  pose proof (get_sandbox_same_port_manager pid w) as Hpm.
  apply port_invariant_mono; [|by rewrite Hpm..].
  unfold get_sandbox. rewrite run_bind. cbn [gets]. rewrite Hinfo.
  intros p role port. by apply get_sandbox_cached_holds.
Qed.

(** C3: after any sequence of [create_sandbox], [delete_sandbox] and
    [cleanup_expired_sandboxes] (the calls through which ports are
    allocated and released), interleaved with [stop_sandbox], with
    [get_sandbox] on cached projects and with arbitrary moves of the engine
    and the clock, every port held by a live sandbox lies in the declared
    inclusive range of its role (vnc 15901-16000, novnc 16080-16179,
    browser_api 17788-17887, file_server 18080-18179), and no port is held
    twice: not by two live sandboxes, not for two roles. *)
Theorem ports_unique_and_in_range (w : World) :
  reachable w →
  (∀ pid role port, holds w pid role port → in_declared_range role port)
  ∧ (∀ pid1 role1 pid2 role2 port,
       holds w pid1 role1 port → holds w pid2 role2 port →
       pid1 = pid2 ∧ role1 = role2).
Proof.
  intros Hreach.
  assert (port_invariant w) as [_ Hrange Hunique _]; [|done].
  induction Hreach as [s e t|cfg w _ IH|pid w _ IH|w _ IH|pid w _ IH
                       |pid w _ IH Hin|s e t w _ IH].
  - apply port_invariant_init.
  - by apply create_sandbox_invariant.
  - by apply delete_sandbox_invariant.
  - by apply cleanup_invariant.
  - by apply stop_sandbox_invariant.
  - by apply get_sandbox_cached_invariant.
  - revert IH. by apply port_invariant_mono.
Qed.

(** A run to try it on: two sandboxes created, the first one deleted, a
    third one created. *)
Lemma ports_unique_and_in_range_witness :
  let w := snd (create_sandbox (default_config "p3")
             (snd (delete_sandbox "p1"
                (snd (create_sandbox (default_config "p2") Scenario.created))))) in
  (∀ pid role port, holds w pid role port → in_declared_range role port)
  ∧ (∀ pid1 role1 pid2 role2 port,
       holds w pid1 role1 port → holds w pid2 role2 port →
       pid1 = pid2 ∧ role1 = role2).
Proof.
  apply ports_unique_and_in_range.
  apply reach_create, reach_delete, reach_create.
  unfold Scenario.created. apply reach_create.
  unfold Scenario.fresh. apply reach_init.
Defined.

(** One sweep over [Scenario.mixed]: the cached sandbox whose time has
    passed is deleted (container, ports, cache entry), the container due
    in 2030 stays, and so does the one with the unreadable label, for
    which a warning is logged; the sweep returns normally. *)
Example cleanup_sweep_mixed :
  let w := Scenario.mixed in
  let w' := snd (cleanup_expired_sandboxes w) in
  name <$> engine_containers (engine w)
  = ["suna-sandbox-p1"; "suna-sandbox-p2"; "suna-sandbox-p3"]
  ∧ fst (cleanup_expired_sandboxes w) = Ok tt
  ∧ name <$> engine_containers (engine w') = ["suna-sandbox-p2"; "suna-sandbox-p3"]
  ∧ elements (allocated_ports (port_manager w)) ≠ []
  ∧ elements (allocated_ports (port_manager w')) = []
  ∧ (fst <$> map_to_list (containers w')) = []
  ∧ log w' = [ (WARNING, "Invalid auto_stop_at format: tomorrow") ].
Proof.
  intros w w'.
  split; [vm_compute; reflexivity|]. split; [vm_compute; reflexivity|].
  split; [vm_compute; reflexivity|]. split; [by vm_compute|].
  split; [vm_compute; reflexivity|]. split; vm_compute; reflexivity.
Qed.

End ManagerFacts.

(* ===================================================================== *)
(** * Properties of the readiness probe                                   *)
(* ===================================================================== *)

Module WaitFacts.
Import Ports Engine Manager Props CallFacts PortFacts ManagerFacts.

(** ** The two primitive steps of the probe *)

Lemma probe_run c cmd w :
  probe c cmd w =
  (Ok (exec_ok (env w) (EvExec (id c) cmd "/" :: history w)),
   set_clock (λ t, t + Z.of_N (exec_took (env w) (EvExec (id c) cmd "/" :: history w)))
     (set_history (λ _, EvExec (id c) cmd "/" :: history w) w)).
Proof.
  unfold probe, exec_ok. rewrite run_try, run_bind. unfold exec_run.
  by destruct (exec_reply _ _).
Qed.

Lemma sleep_run n w :
  sleep n w =
  (Ok tt,
   set_clock (λ t, t + n * 1000000
                   + Z.of_N (sleep_lag (env w) (EvSleep n :: history w)))
     (set_history (λ _, EvSleep n :: history w) w)).
Proof. reflexivity. Qed.

(** ** The four port probes *)

Lemma services_to_check_cases s p :
  (s, p) ∈ services_to_check →
  (s = "vnc" ∧ p = 5901) ∨ (s = "novnc" ∧ p = 6080)
  ∨ (s = "file_server" ∧ p = 8080) ∨ (s = "browser_api" ∧ p = 7788).
Proof.
  unfold services_to_check. intros H.
  repeat (apply elem_of_cons in H as [[= -> ->]|H]; [tauto|]).
  by apply elem_of_nil in H.
Qed.

Lemma probe_command_inj s1 p1 s2 p2 :
  (s1, p1) ∈ services_to_check → (s2, p2) ∈ services_to_check →
  probe_command p1 = probe_command p2 → s1 = s2.
Proof.
  intros H1%services_to_check_cases H2%services_to_check_cases.
  destruct H1 as [[-> ->]|[[-> ->]|[[-> ->]|[-> ->]]]];
    destruct H2 as [[-> ->]|[[-> ->]|[[-> ->]|[-> ->]]]];
    vm_compute; congruence.
Qed.

Lemma services_to_check_functional s p1 p2 :
  (s, p1) ∈ services_to_check → (s, p2) ∈ services_to_check → p1 = p2.
Proof.
  intros H1%services_to_check_cases H2%services_to_check_cases.
  destruct H1 as [[-> ->]|[[-> ->]|[[-> ->]|[-> ->]]]];
    destruct H2 as [[? ->]|[[? ->]|[[? ->]|[? ->]]]]; congruence.
Qed.

Lemma probe_command_not_pgrep s p :
  (s, p) ∈ services_to_check → probe_command p ≠ "pgrep supervisord".
Proof.
  intros [[-> ->]|[[-> ->]|[[-> ->]|[-> ->]]]]%services_to_check_cases;
    vm_compute; congruence.
Qed.

(** ** Keeping track of the probes *)

Section Tracking.
Variable e : Env.
Variable old : list Event.

Lemma succeeded_cons ev new cmd :
  succeeded e old (ev :: new) cmd =
  match ev with
  | EvExec _ c _ => bool_decide (c = cmd) && exec_ok e (ev :: new ++ old)
  | _ => false
  end || succeeded e old new cmd.
Proof. reflexivity. Qed.

Lemma never_reprobed_cons ev new :
  never_reprobed e old (ev :: new) =
  match ev with
  | EvExec _ c _ => negb (succeeded e old new c)
  | _ => true
  end && never_reprobed e old new.
Proof. reflexivity. Qed.

Lemma tracked_sleep new ready n :
  probes_tracked e old new ready → probes_tracked e old (EvSleep n :: new) ready.
Proof. intros [H1 H2 H3]. by split. Qed.

(** A role not yet marked is probed: the probe is no repetition, and the
    role is marked exactly when the probe came back with 0. *)
Lemma tracked_probe new ready cid wd s p :
  probes_tracked e old new ready →
  (s, p) ∈ services_to_check → s ∉ ready →
  probes_tracked e old (EvExec cid (probe_command p) wd :: new)
    (if exec_ok e (EvExec cid (probe_command p) wd :: new ++ old)
     then ready ++ [s] else ready).
Proof.
  intros [Honce Honly Hready] Hsp Hs.
  assert (succeeded e old new (probe_command p) = false) as Hfresh.
  { destruct (succeeded e old new (probe_command p)) eqn:E; [|done].
    destruct (Honly _ E) as [Hpg|(s' & p' & Hsp' & Hcmd & Hin)].
    - by apply (probe_command_not_pgrep s p) in Hpg.
    - by rewrite (probe_command_inj _ _ _ _ Hsp Hsp' Hcmd) in Hs. }
  set (ev := EvExec cid (probe_command p) wd).
  split.
  - rewrite never_reprobed_cons. subst ev. cbn. by rewrite Hfresh, Honce.
  - intros cmd. rewrite succeeded_cons. subst ev. cbn.
    intros [[Hcmd Hok]%andb_prop|Hs']%orb_prop.
    + apply bool_decide_eq_true in Hcmd as <-. right. exists s, p.
      rewrite Hok. split_and!; [done|done|]. apply elem_of_app. right. by left.
    + destruct (Honly _ Hs') as [?|(s' & p' & ? & ? & ?)]; [by left|].
      right. exists s', p'. split_and!; [done|done|].
      destruct (exec_ok _ _); [|done]. apply elem_of_app. by left.
  - intros s' p' Hsp' Hin. rewrite succeeded_cons. subst ev. cbn.
    destruct (exec_ok e _) eqn:Hok.
    + apply elem_of_app in Hin as [Hin|Hin%list_elem_of_singleton].
      * rewrite (Hready _ _ Hsp' Hin). apply orb_true_r.
      * subst s'. rewrite (services_to_check_functional _ _ _ Hsp' Hsp).
        by rewrite bool_decide_eq_true_2.
    + rewrite (Hready _ _ Hsp' Hin). apply orb_true_r.
Qed.

(** Before the supervisor has answered, nothing has succeeded. *)
Lemma tracked_pgrep new cid wd :
  never_reprobed e old new = true →
  (∀ cmd, succeeded e old new cmd = false) →
  probes_tracked e old (EvExec cid "pgrep supervisord" wd :: new) [].
Proof.
  intros Honce Hnone. split.
  - rewrite never_reprobed_cons. cbn. by rewrite Hnone, Honce.
  - intros cmd. rewrite succeeded_cons, Hnone, orb_false_r. cbn.
    intros [Hcmd _]%andb_prop. left. by apply bool_decide_eq_true in Hcmd.
  - intros s p _ Hin. by apply elem_of_nil in Hin.
Qed.

Lemma tracked_nothing new :
  never_reprobed e old new = true →
  (∀ cmd, succeeded e old new cmd = false) →
  probes_tracked e old new [].
Proof.
  intros Honce Hnone. split; [done|..].
  - intros cmd. by rewrite Hnone.
  - intros s p _ Hin. by apply elem_of_nil in Hin.
Qed.

(** *** The world along the probe *)

Variable lg : list (Level * string).

Lemma probing_probe c cmd w new :
  probing e old lg w new →
  ∃ w1,
    probe c cmd w = (Ok (exec_ok e (EvExec (id c) cmd "/" :: new ++ old)), w1)
    ∧ probing e old lg w1 (EvExec (id c) cmd "/" :: new)
    ∧ clock w ≤ clock w1.
Proof.
  intros [Hh He Hl]. rewrite probe_run, He, Hh. eexists.
  split_and!; [done|by split|]. cbn. lia.
Qed.

Lemma probing_sleep n w new :
  probing e old lg w new →
  ∃ w1,
    sleep n w = (Ok tt, w1)
    ∧ probing e old lg w1 (EvSleep n :: new)
    ∧ clock w + seconds n ≤ clock w1.
Proof.
  intros [Hh He Hl]. rewrite sleep_run. eexists.
  split_and!; [done|split; cbn; by rewrite ?Hh|]. unfold seconds. cbn. lia.
Qed.

(** *** First loop: the supervisor *)

Lemma supervisord_loop_spec c start fuel w new :
  probing e old lg w new →
  never_reprobed e old new = true →
  (∀ cmd, succeeded e old new cmd = false) →
  seconds 30 ≤ (clock w - start) + seconds 2 * Z.of_nat fuel →
  ∃ b w' new',
    supervisord_loop (S fuel) c start w = (Ok b, w')
    ∧ probing e old lg w' new'
    ∧ clock w ≤ clock w'
    ∧ probes_tracked e old new' [].
Proof.
  revert w new. induction fuel as [|fuel IH]; intros w new Hp Honce Hnone Hfuel;
    rewrite supervisord_loop_S, run_bind; cbn [time_time gets];
    (case_bool_decide as Hguard;
     [|exists false, w, new; split_and!; [done|done|lia|by apply tracked_nothing]]).
  { unfold seconds in *. lia. }
  rewrite run_bind.
  destruct (probing_probe c "pgrep supervisord" w new Hp) as (w1 & -> & Hp1 & Hc1).
  destruct (exec_ok e _) eqn:Hok.
  { exists true, w1, (EvExec (id c) "pgrep supervisord" "/" :: new).
    split_and!; [done|done|done|by apply tracked_pgrep]. }
  rewrite run_bind.
  destruct (probing_sleep 2 w1 _ Hp1) as (w2 & -> & Hp2 & Hc2).
  destruct (IH w2 _ Hp2) as (b & w' & new' & Hrun & Hp' & Hc' & Ht').
  - rewrite !never_reprobed_cons. cbn. by rewrite Hnone, Honce.
  - intros cmd. rewrite !succeeded_cons, Hok, Hnone. cbn.
    by rewrite andb_false_r.
  - unfold seconds in *. lia.
  - exists b, w', new'. unfold seconds in *. split_and!; [done|done|lia|done].
Qed.

(** *** One round of port probes *)

Lemma probe_round_spec c to_check : ∀ ready all_ready w new,
  (∀ x, x ∈ to_check → x ∈ services_to_check) →
  probing e old lg w new →
  probes_tracked e old new ready →
  ∃ ready' all' w' new',
    probe_round c to_check ready all_ready w = (Ok (ready', all'), w')
    ∧ probing e old lg w' new'
    ∧ clock w ≤ clock w'
    ∧ probes_tracked e old new' ready'
    ∧ (∀ s, s ∈ ready → s ∈ ready')
    ∧ (all' = true →
       all_ready = true ∧ ∀ s p, (s, p) ∈ to_check → s ∈ ready').
Proof.
  induction to_check as [|[s p] rest IH]; intros ready all_ready w new Hsub Hp Ht.
  { exists ready, all_ready, w, new.
    split_and!; [done|done|lia|done|done|].
    intros ->. split; [done|]. intros s p H. by apply elem_of_nil in H. }
  assert ((s, p) ∈ services_to_check) as Hsp by (apply Hsub; by left).
  assert (∀ x, x ∈ rest → x ∈ services_to_check) as Hsub'
    by (intros x Hx; apply Hsub; by right).
  rewrite probe_round_cons. case_bool_decide as Hs.
  - rewrite run_bind.
    destruct (probing_probe c (probe_command p) w new Hp) as (w1 & -> & Hp1 & Hc1).
    pose proof (tracked_probe new ready (id c) "/" s p Ht Hsp Hs) as Ht1.
    destruct (exec_ok e _) eqn:Hok.
    + destruct (IH (ready ++ [s]) all_ready w1 _ Hsub' Hp1 Ht1)
        as (ready' & all' & w' & new' & Hrun & Hp' & Hc' & Ht' & Hmono & Hall).
      exists ready', all', w', new'.
      split_and!; [done|done|lia|done| |].
      * intros s' Hs'. apply Hmono, elem_of_app. by left.
      * intros Hall'. destruct (Hall Hall') as [-> Hrest]. split; [done|].
        intros s' p' [[= -> ->]|Hin]%elem_of_cons; [|by eapply Hrest].
        apply Hmono, elem_of_app. right. by left.
    + destruct (IH ready false w1 _ Hsub' Hp1 Ht1)
        as (ready' & all' & w' & new' & Hrun & Hp' & Hc' & Ht' & Hmono & Hall).
      exists ready', all', w', new'.
      split_and!; [done|done|lia|done|done|].
      intros Hall'. by destruct (Hall Hall').
  - assert (s ∈ ready) as Hmarked by (destruct (decide (s ∈ ready)); done).
    destruct (IH ready all_ready w new Hsub' Hp Ht)
      as (ready' & all' & w' & new' & Hrun & Hp' & Hc' & Ht' & Hmono & Hall).
    exists ready', all', w', new'.
    split_and!; [done|done|done|done|done|].
    intros Hall'. destruct (Hall Hall') as [-> Hrest]. split; [done|].
    intros s' p' [[= -> ->]|Hin]%elem_of_cons; [by apply Hmono|by eapply Hrest].
Qed.

(** *** Second loop: the four ports *)

Lemma services_loop_spec c start timeout fuel : ∀ w new ready,
  probing e old lg w new →
  probes_tracked e old new ready →
  seconds timeout ≤ (clock w - start) + seconds 3 * Z.of_nat fuel →
  ∃ w' new' ready' (timed_out : bool),
    services_loop (S fuel) c start timeout ready w = (Ok tt, w')
    ∧ history w' = new' ++ old
    ∧ env w' = e
    ∧ clock w ≤ clock w'
    ∧ probes_tracked e old new' ready'
    ∧ log w' = (if timed_out then [(WARNING, timeout_message ready')] else []) ++ lg
    ∧ (timed_out = false → ∀ s p, (s, p) ∈ services_to_check → s ∈ ready')
    ∧ (timed_out = true → seconds timeout ≤ clock w' - start).
Proof.
  induction fuel as [|fuel IH]; intros w new ready Hp Ht Hfuel;
    rewrite services_loop_S, run_bind; cbn [time_time gets];
    (case_bool_decide as Hguard;
     [|exists (set_log (cons (WARNING, timeout_message ready)) w), new, ready, true;
       destruct Hp as [Hh He Hl];
       split_and!; [done|done|done|cbn; lia|done|by cbn; rewrite Hl|done|cbn; lia]]).
  { unfold seconds in *. lia. }
  rewrite run_bind.
  destruct (probe_round_spec c services_to_check ready true w new
              ltac:(done) Hp Ht)
    as (ready1 & all1 & w1 & new1 & -> & Hp1 & Hc1 & Ht1 & Hmono & Hall).
  destruct all1.
  { exists w1, new1, ready1, false. destruct Hp1 as [Hh He Hl].
    split_and!; [done|done|done|done|done|done| |done].
    intros _. by destruct (Hall eq_refl). }
  rewrite run_bind.
  destruct (probing_sleep 3 w1 _ Hp1) as (w2 & -> & Hp2 & Hc2).
  destruct (IH w2 _ ready1 Hp2) as (w' & new' & ready' & timed_out & Hrun & H');
    [by apply tracked_sleep|unfold seconds in *; lia|].
  exists w', new', ready', timed_out. unfold seconds in *.
  destruct H' as (? & ? & ? & ? & ? & ? & ?).
  split_and!; [done|done|done|lia|done|done|done|done].
Qed.

End Tracking.


(** The probe on a container whose supervisor runs but whose browser port
    never answers: 40 rounds, then the warning, then the sleep. *)
Example wait_for_services_soft_ready :
  let deaf : Env :=
    {| fault := fault Scenario.quiet_env;
       exec_reply := λ h,
         match h with
         | EvExec _ "nc -z localhost 7788" _ :: _ =>
             inr {| exit_code := 1; output := "" |}
         | _ => inr {| exit_code := 0; output := "" |}
         end;
       exec_took := exec_took Scenario.quiet_env;
       sleep_lag := sleep_lag Scenario.quiet_env;
       fromisoformat := fromisoformat Scenario.quiet_env;
       isoformat := isoformat Scenario.quiet_env |} in
  let w := manager_init Scenario.old_engine deaf Scenario.now in
  let r := _wait_for_services Scenario.old_container 120 w in
  fst r = Ok tt
  ∧ log (snd r) =
      [ (WARNING, "Timeout waiting for services. Ready: ['vnc', 'novnc', 'file_server'], Missing: ['browser_api']") ]
  ∧ clock (snd r) = Scenario.now + seconds 125
  ∧ length (filter (λ ev, is_exec ev = true) (history (snd r))) = 44%nat
  ∧ head (history (snd r)) = Some (EvSleep 5).
Proof. vm_compute. by repeat split. Qed.

End WaitFacts.

(* ===================================================================== *)
(** * Properties of the adapter                                           *)
(* ===================================================================== *)

Module AdapterFacts.
Import Ports Engine Manager Adapter Props CallFacts.

Lemma returns_bind {A B} (m : M A) (k : A → M B) (Q : B → Prop) :
  (∀ a, returns (k a) Q) → returns (m ≫= k) Q.
Proof.
  intros Hk w b. rewrite run_bind.
  destruct (m w) as [[a|e|] w1] eqn:E; simpl; [apply Hk|done|done].
Qed.

Lemma returns_ret {A} (a : A) (Q : A → Prop) : Q a → returns (mret a) Q.
Proof. intros HQ w b [= <-]. exact HQ. Qed.

Lemma returns_try {A} (body : M A) (handler : exn → M A) (Q : A → Prop) :
  returns body Q → (∀ e, returns (handler e) Q) →
  returns (try_except body handler) Q.
Proof.
  intros Hb Hh w a. rewrite run_try. specialize (Hb w).
  destruct (body w) as [[b|e|] w1] eqn:E; simpl in *; [apply Hb|apply Hh|done].
Qed.

Lemma failure_of_success_iff_zero (e : exn) : success_iff_zero (failure_of e).
Proof. done. Qed.

Lemma not_running_success_iff_zero (st : string) : success_iff_zero (not_running st).
Proof. done. Qed.

Lemma inspect_container_total pid : total (inspect_container pid).
Proof. total. Qed.

Lemma execute_command_try_total pid cmd wd : total (execute_command_try pid cmd wd).
Proof. total. Qed.

Lemma execute_command_try_returns pid cmd wd :
  returns (execute_command_try pid cmd wd) success_iff_zero.
Proof.
  unfold execute_command_try. apply returns_bind. intros c.
  case_bool_decide.
  - apply returns_bind. intros _. by apply returns_ret.
  - apply returns_bind. intros r. by apply returns_ret.
Qed.

(** A handler that logs and hands back the failure dict always returns. *)
Lemma failure_handler_run (msg : string) (e : exn) (w : World) :
  (logger ERROR msg;; mret (failure_of e)) w
  = (Ok (failure_of e), set_log (cons (ERROR, msg)) w).
Proof. reflexivity. Qed.

Lemma execute_command_run pid cmd wd w :
  execute_command pid cmd wd w =
  match execute_command_try pid cmd wd w with
  | (Raise e, w') =>
      (Ok (failure_of e),
       set_log (cons (ERROR, "Failed to execute command in workspace " +:+ pid
                             +:+ ": " +:+ str_of_exn e)) w')
  | other => other
  end.
Proof.
  unfold execute_command. rewrite run_try.
  by destruct (execute_command_try pid cmd wd w) as [[r|e|] w'].
Qed.

Lemma execute_command_returns pid cmd wd w :
  ∃ r, fst (execute_command pid cmd wd w) = Ok r ∧ success_iff_zero r.
Proof.
  rewrite execute_command_run.
  pose proof (execute_command_try_total pid cmd wd w) as Ht.
  pose proof (execute_command_try_returns pid cmd wd w) as Hr.
  destruct (execute_command_try pid cmd wd w) as [[r|e|] w']; simpl in *.
  - exists r. split; [done|by apply Hr].
  - by exists (failure_of e).
  - done.
Qed.

(** The two callers keep the invariant, whatever their acquisition step
    does, as long as it ends. *)
Lemma sandbox_execute_command_returns (acquire_workspace : string → M unit)
    pid cmd wd w :
  total (acquire_workspace pid) →
  ∃ r, fst (sandbox_execute_command acquire_workspace pid cmd wd w) = Ok r
       ∧ success_iff_zero r.
Proof.
  intros Ht. unfold sandbox_execute_command. rewrite run_try, run_bind.
  specialize (Ht w).
  destruct (acquire_workspace pid w) as [[[]|e|] w1]; simpl in *; [| |done].
  - destruct (execute_command_returns pid cmd wd w1) as (r & Hr & HQ).
    destruct (execute_command pid cmd wd w1) as [[r'|e'|] w2]; simplify_eq/=.
    by exists r.
  - by exists (failure_of e).
Qed.

Lemma tool_execute_command_returns
    (acquire_workspace acquire_sandbox : string → M unit) pid cmd wd w :
  total (acquire_workspace pid) → total (acquire_sandbox pid) →
  ∃ r, fst (tool_execute_command acquire_workspace acquire_sandbox pid cmd wd w)
       = Ok r ∧ success_iff_zero r.
Proof.
  intros Hw Hs. unfold tool_execute_command. rewrite run_try, run_bind.
  specialize (Hs w).
  destruct (acquire_sandbox pid w) as [[[]|e|] w1]; simpl in *; [| |done].
  - destruct (sandbox_execute_command_returns acquire_workspace pid cmd
                (Paths.ToolBase.clean_path wd) w1 Hw) as (r & Hr & HQ).
    destruct (sandbox_execute_command _ _ _ _ w1) as [[r'|e'|] w2]; simplify_eq/=.
    by exists r.
  - by exists (failure_of e).
Qed.

(** C10: every dict [execute_command] of the adapter returns has
    [success = (exit_code == 0)], and the call always returns one: from the
    exec, from the not-running branch or from the exception handler. The
    two callers that wrap it, [LocalSandbox.execute_command] and
    [LocalSandboxToolsBase.execute_command], hand the same invariant on,
    provided their acquisition step ends. *)
Theorem execute_command_success_iff_exit_zero
    (acquire_workspace acquire_sandbox : string → M unit)
    (pid cmd wd : string) (w : World) :
  (∃ r, fst (execute_command pid cmd wd w) = Ok r ∧ success_iff_zero r)
  ∧ (total (acquire_workspace pid) → total (acquire_sandbox pid) →
     (∃ r, fst (sandbox_execute_command acquire_workspace pid cmd wd w) = Ok r
           ∧ success_iff_zero r)
     ∧ (∃ r, fst (tool_execute_command acquire_workspace acquire_sandbox
                    pid cmd wd w) = Ok r
             ∧ success_iff_zero r)).
Proof.
  split; [apply execute_command_returns|].
  intros Hw Hs. split.
  - by apply sandbox_execute_command_returns.
  - by apply tool_execute_command_returns.
Qed.

Lemma execute_command_success_iff_exit_zero_witness :
  (∃ r, fst (execute_command "p1" "ls" "/workspace" Scenario.created) = Ok r
        ∧ success_iff_zero r)
  ∧ (∃ r, fst (tool_execute_command (λ _, mret tt) (λ _, mret tt)
                 "p1" "ls" "/workspace" Scenario.stopped) = Ok r
          ∧ success_iff_zero r).
Proof.
  split.
  - exact (proj1 (execute_command_success_iff_exit_zero
                    (λ _, mret tt) (λ _, mret tt) "p1" "ls" "/workspace"
                    Scenario.created)).
  - refine (proj2 (proj2 (execute_command_success_iff_exit_zero
                            (λ _, mret tt) (λ _, mret tt) "p1" "ls" "/workspace"
                            Scenario.stopped) _ _)).
    + intros w. simpl. discriminate.
    + intros w. simpl. discriminate.
Defined.

(** *** [get_workspace] *)

Lemma get_workspace_run pid w :
  get_workspace pid w =
  match get_sandbox pid w with
  | (Ok info, w') =>
      (Ok (Some (LocalWorkspace_init pid info)),
       set_workspaces_cache (<[pid := LocalWorkspace_init pid info]>) w')
  | (Raise e, w') =>
      (Ok None,
       if is_ValueError e then w'
       else set_log (cons (ERROR, "Failed to get workspace for project " +:+ pid
                                  +:+ ": " +:+ str_of_exn e)) w')
  | (OutOfFuel, w') => (OutOfFuel, w')
  end.
Proof.
  unfold get_workspace. rewrite run_try, run_bind.
  destruct (get_sandbox pid w) as [[info|e|] w']; [done| |done].
  by destruct e.
Qed.

(** C8, as the specification states it, fails: with the engine's daemon
    unreachable the lookup fails with an engine error, which is not the
    not-found [ValueError], and [get_workspace] still returns [None]
    instead of letting it through. *)
Lemma get_workspace_swallows_engine_error :
  ¬ (∀ (w : World) (pid : string) (e : exn),
       fst (get_sandbox pid w) = Raise e → is_ValueError e = false →
       fst (get_workspace pid w) = Raise e).
Proof.
  intros H.
  specialize (H Scenario.unreachable "p1"
                (DockerAPIError
                   "Error while fetching server API version: Connection refused")
                eq_refl eq_refl).
  vm_compute in H. discriminate H.
Qed.

(** C8, amended: [get_workspace] never raises. It returns the workspace
    built from the dict when [get_sandbox] returns one, and [None] whenever
    [get_sandbox] raises, whatever the exception: the not-found
    [ValueError] silently, any other one after an error is logged. *)
Theorem get_workspace_none_on_any_error (pid : string) (w : World) :
  match fst (get_sandbox pid w) with
  | Ok info =>
      fst (get_workspace pid w) = Ok (Some (LocalWorkspace_init pid info))
  | Raise e =>
      fst (get_workspace pid w) = Ok None
      ∧ log (snd (get_workspace pid w)) =
        (if is_ValueError e then log (snd (get_sandbox pid w))
         else (ERROR, "Failed to get workspace for project " +:+ pid
                      +:+ ": " +:+ str_of_exn e)
              :: log (snd (get_sandbox pid w)))
  | OutOfFuel => False
  end.
Proof.
  rewrite get_workspace_run. pose proof (get_sandbox_total pid w) as Ht.
  destruct (get_sandbox pid w) as [[info|e|] w']; simpl in *; [done| |done].
  by destruct (is_ValueError e).
Qed.

(** *** The not-running branch of [execute_command] *)

Lemma inspect_container_no_exec pid : preserves no_exec_since (inspect_container pid).
Proof. frame. Qed.


(** What it answers there. *)
Example execute_command_exited_uncached_answer :
  fst (execute_command "p4" "ls" "/workspace" Cases.restarted_exited)
  = Ok {| cr_exit_code := -1; cr_stdout := ""; cr_stderr := "'vnc'";
          cr_success := false |}.
Proof. vm_compute. reflexivity. Qed.



(** After an inspection that returned a running container, the exec is
    the one call made. *)
Lemma execute_command_running (pid cmd wd : string) (w w' : World) (c : Container) :
  inspect_container pid w = (Ok c, w') →
  status c = "running" →
  history (snd (execute_command pid cmd wd w)) = EvExec (id c) cmd wd :: history w'.
Proof.
  intros Hinspect Hst.
  rewrite execute_command_run. unfold execute_command_try.
  rewrite run_bind, Hinspect. cbn [fst snd].
  rewrite bool_decide_eq_false_2 by (by intros ?). rewrite run_bind.
  unfold exec_run at 1. by destruct (exec_reply _ _).
Qed.



End AdapterFacts.

(* ===================================================================== *)
(** * Properties of path cleaning                                         *)
(* ===================================================================== *)

Module PathFacts.
Import Paths.

(** *** Facts on the string primitives *)

Lemma startswith_app (p s : string) : startswith p (p +:+ s) = true.
Proof.
  induction p as [|a p IH]; simpl; [done|].
  rewrite bool_decide_eq_true_2 by done. exact IH.
Qed.

Lemma startswith_slash_inv (s : string) :
  startswith "/" s = true → ∃ s', s = String "/" s'.
Proof.
  destruct s as [|a s]; simpl; [done|].
  rewrite andb_true_r. intros ->%bool_decide_eq_true. by eexists.
Qed.

Lemma split_cons_sep (sep : ascii) (s : string) :
  split sep (String sep s) = "" :: split sep s.
Proof. simpl. by rewrite bool_decide_eq_true_2. Qed.

Lemma split_not_nil (sep : ascii) (s : string) : split sep s ≠ [].
Proof.
  induction s as [|c s IH]; simpl; [done|].
  case_bool_decide; [done|]. by destruct (split sep s).
Qed.

Lemma split_app_sep (sep : ascii) (a b : string) :
  split sep (a +:+ String sep b) = split sep a ++ split sep b.
Proof.
  induction a as [|c a IH]; simpl.
  - by rewrite bool_decide_eq_true_2.
  - case_bool_decide; [by rewrite IH|].
    rewrite IH. pose proof (split_not_nil sep a).
    by destruct (split sep a).
Qed.

Lemma split_no_sep (sep : ascii) (s x : string) :
  x ∈ split sep s → has_char sep x = false.
Proof.
  revert x. induction s as [|c s IH]; simpl; intros x Hx.
  - apply list_elem_of_singleton in Hx. by subst.
  - case_bool_decide as Hc.
    + apply elem_of_cons in Hx as [->|Hx]; [done|by apply IH].
    + destruct (split sep s) as [|h tl] eqn:E.
      * apply list_elem_of_singleton in Hx. subst. simpl.
        by rewrite bool_decide_eq_false_2.
      * apply elem_of_cons in Hx as [->|Hx].
        -- simpl. rewrite bool_decide_eq_false_2 by done.
           apply IH. by left.
        -- apply IH. by right.
Qed.

Lemma split_without_sep (sep : ascii) (x : string) :
  has_char sep x = false → split sep x = [x].
Proof.
  induction x as [|c x IH]; simpl; [done|].
  intros [Hc Hx]%orb_false_elim. apply bool_decide_eq_false in Hc.
  rewrite bool_decide_eq_false_2 by done. by rewrite IH.
Qed.

Lemma split_join (sep : ascii) (comps : list string) :
  comps ≠ [] →
  Forall (λ x, has_char sep x = false) comps →
  split sep (join (String sep "") comps) = comps.
Proof.
  induction comps as [|x [|y ys] IH]; intros Hne Hall; [done|..].
  - simpl. apply split_without_sep. by inversion Hall.
  - change (join (String sep "") (x :: y :: ys))
      with (x +:+ String sep (join (String sep "") (y :: ys))).
    rewrite split_app_sep. inversion Hall as [|?? Hx Hrest]; subst.
    rewrite (split_without_sep _ _ Hx), IH by done. done.
Qed.

(** Collapsing runs of slashes keeps the first component and can only
    drop later ones. *)
Lemma collapse_slashes_components (s : string) :
  ∃ h tl tl', split "/" s = h :: tl
            ∧ split "/" (collapse_slashes s) = h :: tl'
            ∧ tl' ⊆ tl.
Proof.
  induction s as [|c s (h & tl & tl' & Hs & Hc & Hsub)].
  - by exists "", [], [].
  - destruct (decide (c = "/"%char)) as [->|Hne].
    + destruct s as [|d s'].
      * simpl in *. by exists "", [""], [""].
      * destruct (decide (d = "/"%char)) as [->|Hd].
        -- change (collapse_slashes (String "/" (String "/" s')))
             with (collapse_slashes (String "/" s')).
           rewrite split_cons_sep, Hs. rewrite split_cons_sep in Hs.
           injection Hs as <- Htl.
           exists "", ("" :: tl), tl'. split_and!; [done|done|].
           set_solver.
        -- assert (collapse_slashes (String "/" (String d s'))
                   = String "/" (collapse_slashes (String d s'))) as ->.
           { simpl. destruct d as [[] [] [] [] [] [] [] []]; try done. }
           rewrite !split_cons_sep, Hs, Hc.
           exists "", (h :: tl), (h :: tl'). split_and!; [done|done|].
           set_solver.
    + assert (collapse_slashes (String c s) = String c (collapse_slashes s))
        as -> by (simpl; by rewrite bool_decide_eq_false_2).
      assert (∀ t, split "/" (String c t)
                   = match split "/" t with
                     | [] => [String c ""]
                     | x :: xs => String c x :: xs
                     end) as Hsplit
        by (intros t; simpl; by rewrite bool_decide_eq_false_2).
      rewrite !Hsplit, Hs, Hc. by exists (String c h), tl, tl'.
Qed.

Lemma collapse_slashes_component (s x : string) :
  x ∈ components (collapse_slashes s) → x ∈ components s.
Proof.
  unfold components.
  destruct (collapse_slashes_components s) as (h & tl & tl' & Hs & Hc & Hsub).
  rewrite Hs, Hc. set_solver.
Qed.

(** Collapsing drops empty components only. *)
Lemma collapse_slashes_keeps (s : string) :
  ∃ h tl tl', split "/" s = h :: tl
            ∧ split "/" (collapse_slashes s) = h :: tl'
            ∧ ∀ x, x ≠ "" → x ∈ tl → x ∈ tl'.
Proof.
  induction s as [|c s (h & tl & tl' & Hs & Hc & Hkeep)].
  - by exists "", [], [].
  - destruct (decide (c = "/"%char)) as [->|Hne].
    + destruct s as [|d s'].
      * simpl in *. by exists "", [""], [""].
      * destruct (decide (d = "/"%char)) as [->|Hd].
        -- change (collapse_slashes (String "/" (String "/" s')))
             with (collapse_slashes (String "/" s')).
           rewrite split_cons_sep, Hs. rewrite split_cons_sep in Hs.
           injection Hs as <- Htl.
           exists "", ("" :: tl), tl'. split_and!; [done|done|].
           intros x Hx [?|Hin]%elem_of_cons; [done|]. by apply Hkeep.
        -- assert (collapse_slashes (String "/" (String d s'))
                   = String "/" (collapse_slashes (String d s'))) as ->.
           { simpl. destruct d as [[] [] [] [] [] [] [] []]; try done. }
           rewrite !split_cons_sep, Hs, Hc.
           exists "", (h :: tl), (h :: tl'). split_and!; [done|done|].
           intros x Hx [->|Hin]%elem_of_cons; [by left|]. right. by apply Hkeep.
    + assert (collapse_slashes (String c s) = String c (collapse_slashes s))
        as -> by (simpl; by rewrite bool_decide_eq_false_2).
      assert (∀ t, split "/" (String c t)
                   = match split "/" t with
                     | [] => [String c ""]
                     | x :: xs => String c x :: xs
                     end) as Hsplit
        by (intros t; simpl; by rewrite bool_decide_eq_false_2).
      rewrite !Hsplit, Hs, Hc. by exists (String c h), tl, tl'.
Qed.

Lemma collapse_slashes_workspace (s : string) :
  startswith "/workspace" s = true →
  startswith "/workspace" (collapse_slashes s) = true.
Proof.
  intros H.
  do 10 (destruct s as [|? s]; [done|];
         simpl in H; apply andb_prop in H as [<-%bool_decide_eq_true H]).
  done.
Qed.

(** *** Facts on [normpath] and [reparent] *)

Lemma reparent_workspace (path : string) :
  startswith "/workspace" (reparent path) = true.
Proof.
  unfold reparent. destruct (startswith "/workspace" path) eqn:E; [done|].
  destruct (startswith "/" path);
    [apply startswith_app | apply (startswith_app "/workspace" ("/" +:+ path))].
Qed.

Lemma removelast_elem_of {A} (l : list A) (x : A) :
  x ∈ removelast l → x ∈ l.
Proof.
  induction l as [|a [|b l] IH]; simpl; [done|by intros ?%elem_of_nil|].
  intros [->|H]%elem_of_cons; [by left|right; by apply IH].
Qed.

Lemma last_elem_of {A} (l : list A) (x : A) : last l = Some x → x ∈ l.
Proof.
  induction l as [|a [|b l] IH]; simpl; [done|..].
  - intros [= ->]. by left.
  - intros H. right. by apply IH.
Qed.

Lemma normpath_step_resolved (n : nat) (new_comps : list string) (comp : string) :
  n ≠ 0%nat → has_char "/" comp = false →
  Forall resolved new_comps → Forall resolved (normpath_step n new_comps comp).
Proof.
  intros Hn Hcomp Hall. unfold normpath_step.
  destruct (bool_decide (comp = "" ∨ comp = ".")); [done|].
  rewrite (bool_decide_eq_false_2 (n = 0%nat)) by done. simpl.
  rewrite orb_false_r.
  destruct (bool_decide (last new_comps = Some "..")) eqn:Hlast.
  { apply bool_decide_eq_true, last_elem_of in Hlast.
    rewrite Forall_forall in Hall. by destruct (Hall _ Hlast). }
  rewrite orb_false_r.
  destruct (bool_decide (comp ≠ "..")) eqn:Hdd.
  - apply bool_decide_eq_true in Hdd.
    apply Forall_app. split; [done|]. by repeat constructor.
  - destruct new_comps as [|a l]; [done|].
    rewrite Forall_forall in *. intros x Hx.
    by apply Hall, removelast_elem_of.
Qed.

Lemma normpath_fold_resolved (n : nat) (comps acc : list string) :
  n ≠ 0%nat → Forall (λ x, has_char "/" x = false) comps →
  Forall resolved acc → Forall resolved (fold_left (normpath_step n) comps acc).
Proof.
  intros Hn. revert acc.
  induction comps as [|c comps IH]; intros acc Hc Hacc; simpl; [done|].
  inversion Hc; subst. apply IH; [done|]. by apply normpath_step_resolved.
Qed.

(** [normpath] of an absolute path is absolute and has no [..] left. *)
Lemma normpath_absolute (path : string) :
  startswith "/" path = true →
  startswith "/" (normpath path) = true
  ∧ ".." ∉ components (normpath path).
Proof.
  intros Habs. unfold normpath.
  destruct (startswith_slash_inv _ Habs) as [rest ->].
  rewrite bool_decide_eq_false_2 by done.
  set (n := initial_slashes_of (String "/" rest)).
  assert (n = 1%nat ∨ n = 2%nat) as Hn.
  { subst n. unfold initial_slashes_of. rewrite Habs.
    destruct (_ && _); auto. }
  set (new_comps := fold_left _ _ _).
  assert (Forall resolved new_comps) as Hres.
  { apply normpath_fold_resolved; [lia| |done].
    apply Forall_forall. intros x Hx. by eapply split_no_sep. }
  assert (∀ x, x ∈ split "/" (join "/" new_comps) → x ≠ "..") as Hjoin.
  { intros x Hx. destruct new_comps as [|c cs] eqn:E.
    - simpl in Hx. apply list_elem_of_singleton in Hx. by subst.
    - rewrite split_join in Hx; [|done|].
      + rewrite Forall_forall in Hres. by destruct (Hres _ Hx).
      + eapply Forall_impl; [exact Hres|]. by intros ? [_ ?]. }
  unfold components.
  destruct Hn as [-> | ->].
  - replace (repeat_str "/" 1 +:+ join "/" new_comps)
      with (String "/" (join "/" new_comps)) by done.
    rewrite bool_decide_eq_false_2 by done. split; [done|].
    rewrite split_cons_sep.
    intros [?|?]%elem_of_cons; [done|]. by eapply Hjoin.
  - replace (repeat_str "/" 2 +:+ join "/" new_comps)
      with (String "/" (String "/" (join "/" new_comps))) by done.
    rewrite bool_decide_eq_false_2 by done. split; [done|].
    rewrite !split_cons_sep.
    intros [?|[?|?]%elem_of_cons]%elem_of_cons; [done|done|]. by eapply Hjoin.
Qed.

Lemma reparent_absolute (path : string) :
  startswith "/" path = true →
  ".." ∉ components path → ".." ∉ components (reparent path).
Proof.
  intros Habs Hdd. unfold reparent.
  destruct (startswith "/workspace" path); [done|]. rewrite Habs.
  destruct (startswith_slash_inv _ Habs) as [rest ->].
  unfold components in *.
  rewrite split_app_sep. rewrite split_cons_sep in Hdd.
  intros [Hw|Hr]%elem_of_app.
  - vm_compute in Hw. by repeat (apply elem_of_cons in Hw as [?|Hw]; [done|]);
      apply elem_of_nil in Hw.
  - apply Hdd. by right.
Qed.

(** *** [normpath] of a relative path

    What [normpath] has collected of a relative path is a run of [..]
    followed by resolved components. *)

Lemma normpath_step_climb (new_comps : list string) (comp : string) (k : nat)
    (r : list string) :
  has_char "/" comp = false →
  new_comps = replicate k ".." ++ r → Forall resolved r →
  ∃ k' r', normpath_step 0 new_comps comp = replicate k' ".." ++ r'
           ∧ Forall resolved r'.
Proof.
  intros Hcomp -> Hr. unfold normpath_step.
  destruct (bool_decide (comp = "" ∨ comp = ".")); [by exists k, r|].
  destruct (decide (comp = "..")) as [->|Hne].
  - rewrite (bool_decide_eq_false_2 (".." ≠ "..")) by (by intros ?).
    rewrite (bool_decide_eq_true_2 (0%nat = 0%nat)) by done. cbn [orb andb].
    destruct r as [|x r' _] using rev_ind.
    + rewrite app_nil_r. destruct k as [|k].
      * exists 1%nat, []. by rewrite bool_decide_eq_true_2.
      * assert (last (replicate (S k) "..") = Some "..") as Hlast.
        { rewrite replicate_S_end. apply last_snoc. }
        rewrite (bool_decide_eq_true_2 _ Hlast), orb_true_r.
        exists (S (S k)), []. by rewrite app_nil_r, (replicate_S_end (S k)).
    + apply Forall_app in Hr as [Hr' [Hx _]%Forall_cons].
      rewrite (bool_decide_eq_false_2 (_ = [])) by (by destruct k, r').
      rewrite (assoc_L (++)), last_snoc.
      rewrite bool_decide_eq_false_2 by (destruct Hx as [Hx _]; congruence).
      cbn [orb]. rewrite removelast_last.
      destruct (replicate k ".." ++ r') eqn:E; cbn [app]; [by exists 0%nat, []|].
      rewrite <- E. by exists k, r'.
  - rewrite (bool_decide_eq_true_2 (comp ≠ "..")) by done. cbn [orb].
    exists k, (r ++ [comp]). rewrite (assoc_L (++)). split; [done|].
    apply Forall_app. split; [done|]. by repeat constructor.
Qed.

Lemma normpath_fold_climb (comps : list string) :
  ∀ (k : nat) (r : list string),
    Forall (λ x, has_char "/" x = false) comps → Forall resolved r →
    ∃ k' r', fold_left (normpath_step 0) comps (replicate k ".." ++ r)
             = replicate k' ".." ++ r'
             ∧ Forall resolved r'.
Proof.
  induction comps as [|comp comps IH]; intros k r Hcomps Hr; cbn [fold_left].
  { by exists k, r. }
  apply Forall_cons in Hcomps as [Hcomp Hcomps].
  destruct (normpath_step_climb (replicate k ".." ++ r) comp k r)
    as (k' & r' & -> & Hr'); [done|done|done|].
  by apply IH.
Qed.

(** [normpath] leaves no [..] in a path that does not climb. *)
Lemma normpath_resolved (path : string) :
  ¬ climbs path → ".." ∉ components (normpath path).
Proof.
  intros Hclimb.
  destruct (startswith "/" path) eqn:Habs; [by apply normpath_absolute|].
  unfold climbs in Hclimb. revert Hclimb. unfold normpath, components.
  case_bool_decide as Hpath.
  { intros _ [=]%list_elem_of_singleton. }
  assert (initial_slashes_of path = 0%nat) as ->.
  { unfold initial_slashes_of. by rewrite Habs. }
  destruct (normpath_fold_climb (split "/" path) 0 [])
    as (k & r & Hfold & Hr); [|done|].
  { apply Forall_forall. intros x Hx. by eapply split_no_sep. }
  cbn [replicate app] in Hfold. rewrite Hfold. cbn [repeat_str].
  change ("" +:+ ?x) with x.
  case_bool_decide as Hempty.
  { intros _ [=]%list_elem_of_singleton. }
  assert (replicate k ".." ++ r ≠ []) as Hne by (by intros Hnil; rewrite Hnil in Hempty).
  rewrite split_join; [|done|].
  2:{ apply Forall_app. split.
      - apply Forall_forall. by intros x [-> _]%elem_of_replicate.
      - eapply Forall_impl; [exact Hr|]. by intros ? [_ ?]. }
  destruct k as [|k]; [|by intros []].
  intros _ Hin. cbn in Hin. rewrite Forall_forall in Hr. by destruct (Hr _ Hin).
Qed.

Lemma reparent_resolved (path : string) :
  ".." ∉ components path → ".." ∉ components (reparent path).
Proof.
  intros Hdd. destruct (startswith "/" path) eqn:Habs; [by apply reparent_absolute|].
  unfold reparent. destruct (startswith "/workspace" path); [done|]. rewrite Habs.
  unfold components in *.
  change ("/workspace/" +:+ path) with ("/workspace" +:+ String "/" path).
  rewrite split_app_sep.
  intros [Hw|Hr]%elem_of_app; [|done].
  vm_compute in Hw. by repeat (apply elem_of_cons in Hw as [?|Hw]; [done|]);
    apply elem_of_nil in Hw.
Qed.

(** *** The two [clean_path]s *)

Lemma tool_clean_path_workspace (p : string) :
  startswith "/workspace" (ToolBase.clean_path p) = true.
Proof.
  unfold ToolBase.clean_path. case_bool_decide; [done|].
  apply collapse_slashes_workspace, reparent_workspace.
Qed.

Lemma api_clean_path_workspace (unquote : string → string) (p : string) :
  startswith "/workspace" (Api.clean_path unquote p) = true.
Proof.
  unfold Api.clean_path. case_bool_decide; [done|]. apply reparent_workspace.
Qed.

Lemma tool_clean_path_resolved (p : string) :
  ¬ climbs (strip_dangerous p) → ".." ∉ components (ToolBase.clean_path p).
Proof.
  intros Hclimb. unfold ToolBase.clean_path.
  case_bool_decide as Hp.
  { vm_compute. by repeat (intros [?|Hw]%elem_of_cons; [done|revert Hw]);
      intros ?%elem_of_nil. }
  intros Hin%collapse_slashes_component. revert Hin.
  by apply reparent_resolved, normpath_resolved.
Qed.

Lemma api_clean_path_resolved (unquote : string → string) (p : string) :
  ¬ climbs (unquote p) → ".." ∉ components (Api.clean_path unquote p).
Proof.
  intros Hclimb. unfold Api.clean_path.
  case_bool_decide as Hp.
  { vm_compute. by repeat (intros [?|Hw]%elem_of_cons; [done|revert Hw]);
      intros ?%elem_of_nil. }
  by apply reparent_resolved, normpath_resolved.
Qed.

(** A path that climbs keeps its [..] under the workspace root. *)
Lemma reparent_climbing (path : string) :
  climbs path →
  ∃ rest, components (reparent (normpath path))
          = "" :: "workspace" :: ".." :: rest.
Proof.
  unfold climbs, components. set (n := normpath path). intros Hhead.
  destruct (split "/" n) as [|x rest] eqn:Hsplit; [done|].
  injection Hhead as ->. exists rest.
  assert (startswith "/" n = false) as Hrel.
  { destruct n as [|c n']; [done|]. cbn [startswith].
    destruct (decide (c = "/"%char)) as [->|Hne].
    - by rewrite split_cons_sep in Hsplit.
    - by rewrite (bool_decide_eq_false_2 ("/"%char = c)) by done. }
  assert (startswith "/workspace" n = false) as Hw.
  { destruct n as [|c n']; [done|]. cbn [startswith] in Hrel |- *.
    by destruct (bool_decide ("/"%char = c)). }
  unfold reparent. rewrite Hw, Hrel.
  change ("/workspace/" +:+ n) with ("/workspace" +:+ String "/" n).
  by rewrite split_app_sep, Hsplit.
Qed.

Lemma tool_clean_path_climbing (p : string) :
  p ≠ "" → climbs (strip_dangerous p) → ".." ∈ components (ToolBase.clean_path p).
Proof.
  intros Hp [rest Hrest]%reparent_climbing. unfold ToolBase.clean_path.
  rewrite bool_decide_eq_false_2 by done. unfold components in *.
  destruct (collapse_slashes_keeps (reparent (normpath (strip_dangerous p))))
    as (h & tl & tl' & Hs & -> & Hkeep).
  rewrite Hrest in Hs. injection Hs as <- <-.
  right. apply Hkeep; [done|]. right. by left.
Qed.

Lemma api_clean_path_climbing (unquote : string → string) (p : string) :
  p ≠ "" → climbs (unquote p) → ".." ∈ components (Api.clean_path unquote p).
Proof.
  intros Hp [rest Hrest]%reparent_climbing. unfold Api.clean_path.
  rewrite bool_decide_eq_false_2 by done. rewrite Hrest. right. right. by left.
Qed.

(** An absolute path does not climb. *)
Lemma absolute_does_not_climb (path : string) :
  startswith "/" path = true → ¬ climbs path.
Proof.
  intros Habs Hclimb. destruct (normpath_absolute _ Habs) as [_ Hdd].
  apply Hdd. unfold climbs in Hclimb.
  destruct (components (normpath path)) as [|x xs]; [done|].
  injection Hclimb as ->. by left.
Qed.

(** C2, as the specification states it, fails: a relative path that climbs
    above its start keeps its leading [..] through [normpath], and
    [clean_path] then only prefixes the workspace root. *)
Lemma clean_path_keeps_leading_dotdot :
  ¬ (∀ p : string,
       startswith "/workspace" (ToolBase.clean_path p) = true
       ∧ ".." ∉ components (ToolBase.clean_path p)).
Proof.
  intros H. destruct (H "../etc/passwd") as [_ Hdd].
  apply Hdd. vm_compute. right. right. left.
Qed.

(** The check that follows [clean_path] in the tool primitives turns
    such a result down. *)
Example validate_path_rejects_climb :
  ToolBase.clean_path "../etc/passwd" = "/workspace/../etc/passwd"
  ∧ ToolBase.validate_path (ToolBase.clean_path "../etc/passwd") = false.
Proof. split; reflexivity. Qed.

(** C2, amended: for every input path, both [clean_path]s return a string
    that begins with [/workspace]; and the result has no [..] component
    unless the path handed to [normpath] (the path after the character
    stripping of the tool base, the URL-decoded path in the router)
    climbs above its start, that is, unless its normal form begins with a
    [..] component. So every [..] of an absolute path is resolved, and so
    is every [..] of a relative path that stays below its start. A
    non-empty path that does climb keeps a [..] component in the result. *)
Theorem clean_path_rooted_and_resolved (unquote : string → string) (p : string) :
  (startswith "/workspace" (ToolBase.clean_path p) = true
   ∧ startswith "/workspace" (Api.clean_path unquote p) = true)
  ∧ (¬ climbs (strip_dangerous p) → ".." ∉ components (ToolBase.clean_path p))
  ∧ (¬ climbs (unquote p) → ".." ∉ components (Api.clean_path unquote p))
  ∧ (p ≠ "" → climbs (strip_dangerous p) →
     ".." ∈ components (ToolBase.clean_path p))
  ∧ (p ≠ "" → climbs (unquote p) →
     ".." ∈ components (Api.clean_path unquote p)).
Proof.
  split_and!.
  - apply tool_clean_path_workspace.
  - apply api_clean_path_workspace.
  - apply tool_clean_path_resolved.
  - apply api_clean_path_resolved.
  - apply tool_clean_path_climbing.
  - apply api_clean_path_climbing.
Qed.

Lemma clean_path_rooted_and_resolved_witness :
  ToolBase.clean_path "src/../a:b/./main.py" = "/workspace/ab/main.py"
  ∧ (".." ∉ components (ToolBase.clean_path "src/../a:b/./main.py"))
  ∧ (".." ∉ components (Api.clean_path (λ s, s) "/a/../../c"))
  ∧ ".." ∈ components (ToolBase.clean_path "a/../../b")
  ∧ ".." ∈ components (Api.clean_path (λ s, s) "a/../../b").
Proof.
  split; [reflexivity|].
  pose proof (clean_path_rooted_and_resolved (λ s, s)) as H.
  split_and!.
  - refine (proj1 (proj2 (H "src/../a:b/./main.py")) _).
    unfold climbs. vm_compute. discriminate.
  - refine (proj1 (proj2 (proj2 (H "/a/../../c"))) _).
    unfold climbs. vm_compute. discriminate.
  - refine (proj1 (proj2 (proj2 (proj2 (H "a/../../b")))) _ _).
    + discriminate.
    + reflexivity.
  - refine (proj2 (proj2 (proj2 (proj2 (H "a/../../b")))) _ _).
    + discriminate.
    + reflexivity.
Defined.

End PathFacts.

(* ===================================================================== *)
(** * The allocation policy of the port manager                           *)
(* ===================================================================== *)

Module PortPolicy.
Import Ports PortFacts Notions.

(** The converse of [first_free_Some]: the lowest free port of the range
    is the one found. *)
Lemma first_free_lowest (allocated : gset Z) (start end_ p : Z) :
  start ≤ p ≤ end_ → p ∉ allocated → (∀ q, start ≤ q < p → q ∈ allocated) →
  first_free allocated start end_ = Some p.
Proof.
  intros Hp Hfree Hlow.
  destruct (first_free allocated start end_) as [p'|] eqn:E.
  - apply first_free_Some in E as (Hp' & Hfree' & Hlow').
    f_equal. destruct (Z.lt_trichotomy p' p) as [Hlt|[->|Hgt]]; [|done|].
    + destruct Hfree'. apply Hlow. lia.
    + destruct Hfree. apply Hlow'. lia.
  - destruct Hfree. by eapply first_free_None.
Qed.

(** Each role gets the lowest port of its range that was free when the
    role's turn came: free before the call and not taken for an earlier
    role of the same call. *)
Lemma allocate_loop_lowest (ranges : list (string * (Z * Z)))
    (allocated : gset Z) (ports ports' : gmap string Z) (allocated' : gset Z) :
  allocate_loop ranges allocated ports = (Ok ports', allocated') →
  NoDup ranges.*1 →
  (∀ s, s ∈ ranges.*1 → ports !! s = None) →
  ∀ s lo hi, (s, (lo, hi)) ∈ ranges →
    ∃ p, ports' !! s = Some p ∧ lo ≤ p ≤ hi ∧ (p ∉ allocated)
         ∧ ∀ q, lo ≤ q < p →
             q ∈ allocated ∨ ∃ s', s' ≠ s ∧ s' ∈ ranges.*1 ∧ ports' !! s' = Some q.
Proof.
  revert allocated ports.
  induction ranges as [|[service [start end_]] rest IH];
    intros allocated ports Hrun Hnodup Hfresh s lo hi Hin.
  { by apply elem_of_nil in Hin. }
  simpl in Hrun, Hnodup. apply NoDup_cons in Hnodup as [Hservice Hnodup].
  destruct (first_free allocated start end_) as [port|] eqn:Efree; [|done].
  apply first_free_Some in Efree as (Hrange & Hport & Hlow).
  assert (∀ s0, s0 ∈ rest.*1 → <[service := port]> ports !! s0 = None) as Hfresh'.
  { intros s0 Hs0. rewrite lookup_insert_ne; [apply Hfresh; by right|].
    by intros ->. }
  pose proof (allocate_loop_spec _ _ _ _ _ Hrun Hnodup Hfresh') as [_ Hspec].
  destruct (Hspec _ eq_refl) as (Hold & _).
  assert (ports' !! service = Some port) as Hmine.
  { rewrite Hold by done. apply lookup_insert_eq. }
  apply elem_of_cons in Hin as [[= -> -> ->]|Hin].
  - exists port. split_and!; [done|lia|lia|done|]. intros q Hq. left. by apply Hlow.
  - assert (s ∈ rest.*1) as Hs.
    { apply list_elem_of_fmap. by exists (s, (lo, hi)). }
    destruct (IH _ _ Hrun Hnodup Hfresh' s lo hi Hin) as (p & Hp & Hlh & Hpfree & Hplow).
    exists p. split_and!; [done|lia|lia| |].
    { intros Hq0. apply Hpfree, elem_of_union. by right. }
    intros q Hq. destruct (Hplow q Hq) as [Hq'|(s' & Hne & Hs' & Hq')].
    + apply elem_of_union in Hq' as [->%elem_of_singleton|Hq']; [|by left].
      right. exists service. split_and!; [by intros ->|by left|done].
    + right. exists s'. split_and!; [done|by right|done].
Qed.

Lemma declared_cases (role : string) (lo hi : Z) :
  (role, (lo, hi)) ∈ port_ranges PortManager_init →
  (role = "vnc" ∧ lo = 15901 ∧ hi = 16000)
  ∨ (role = "novnc" ∧ lo = 16080 ∧ hi = 16179)
  ∨ (role = "browser_api" ∧ lo = 17788 ∧ hi = 17887)
  ∨ (role = "file_server" ∧ lo = 18080 ∧ hi = 18179).
Proof.
  unfold PortManager_init. cbn. intros Hin.
  repeat (apply elem_of_cons in Hin as [[= -> -> ->]|Hin]; [tauto|]).
  by apply elem_of_nil in Hin.
Qed.

Lemma declared_nodup_names : NoDup (port_ranges PortManager_init).*1.
Proof. apply (bool_decide_unpack _). vm_compute. exact I. Qed.

(** X1: With the declared ranges, a call of [allocate_ports] that returns
    gives every role the lowest port of the role's range that was not
    allocated before the call. *)
Theorem allocate_ports_lowest_free (pid : string) (pm pm' : PortManager)
    (ports : gmap string Z) (role : string) (lo hi : Z) :
  port_ranges pm = port_ranges PortManager_init →
  allocate_ports pid pm = (Ok ports, pm') →
  (role, (lo, hi)) ∈ port_ranges pm →
  ∃ p, ports !! role = Some p ∧ lo ≤ p ≤ hi ∧ (p ∉ allocated_ports pm)
       ∧ ∀ q, lo ≤ q < p → q ∈ allocated_ports pm.
Proof.
  intros Hranges Halloc Hin.
  pose proof declared_nodup_names as Hnodup. rewrite <- Hranges in Hnodup.
  destruct (allocate_ports_Ok _ _ _ _ Hnodup Halloc) as (_ & Hnew & _ & _).
  unfold allocate_ports in Halloc.
  destruct (allocate_loop _ _ _) as [r allocated'] eqn:Erun.
  injection Halloc as -> _.
  destruct (allocate_loop_lowest _ _ _ _ _ Erun Hnodup ltac:(done) role lo hi Hin)
    as (p & Hp & Hlh & Hfree & Hlow).
  exists p. split_and!; [done|lia|lia|done|].
  intros q Hq. destruct (Hlow q Hq) as [Hq'|(s' & Hne & _ & Hq')]; [done|].
  exfalso. destruct (Hnew _ _ Hq') as (_ & _ & lo' & hi' & Hin' & Hq'').
  rewrite Hranges in Hin, Hin'.
  apply declared_cases in Hin, Hin'.
  destruct Hin as [(-> & -> & ->)|[(-> & -> & ->)|[(-> & -> & ->)|(-> & -> & ->)]]];
    destruct Hin' as [(-> & -> & ->)|[(-> & -> & ->)|[(-> & -> & ->)|(-> & -> & ->)]]];
    first [done | lia].
Qed.

Lemma allocate_ports_lowest_free_witness :
  let pm := allocate_many 2 PortManager_init in
  let ports : gmap string Z :=
    {[ "vnc" := 15903; "novnc" := 16082;
       "browser_api" := 17790; "file_server" := 18082 ]} in
  ∃ p, ports !! "novnc" = Some p ∧ 16080 ≤ p ≤ 16179 ∧ (p ∉ allocated_ports pm)
       ∧ ∀ q, 16080 ≤ q < p → q ∈ allocated_ports pm.
Proof.
  intros pm ports.
  apply (allocate_ports_lowest_free "p3" pm (snd (allocate_ports "p3" pm))).
  - reflexivity.
  - vm_compute. reflexivity.
  - right. left.
Defined.

(** ** Releasing *)

(** X2: [release_ports] gives back exactly what [allocate_ports] took:
    releasing the dict a call returned restores the port manager the call
    started from; and releasing is a [discard], so releasing the same dict
    once more changes nothing. *)
Theorem release_ports_undoes_allocate (pid : string) (pm pm' : PortManager)
    (ports : gmap string Z) :
  NoDup (port_ranges pm).*1 →
  allocate_ports pid pm = (Ok ports, pm') →
  release_ports ports pm' = pm
  ∧ release_ports ports (release_ports ports pm') = release_ports ports pm'.
Proof.
  intros Hnodup Halloc. split; [by eapply release_after_allocate|].
  destruct (release_ports ports pm') as [allocated ranges] eqn:E.
  unfold release_ports at 1. cbn [port_ranges allocated_ports]. f_equal.
  apply set_eq. intros p.
  pose proof (release_ports_elem ports (release_ports ports pm') p) as H2.
  pose proof (release_ports_elem ports pm' p) as H1.
  rewrite E in H1, H2. unfold release_ports in H2 at 1. cbn in H1, H2.
  rewrite H2. tauto.
Qed.

Lemma release_ports_undoes_allocate_witness :
  let pm := allocate_many 3 PortManager_init in
  let ports : gmap string Z :=
    {[ "vnc" := 15904; "novnc" := 16083;
       "browser_api" := 17791; "file_server" := 18083 ]} in
  let pm' := snd (allocate_ports "p4" pm) in
  release_ports ports pm' = pm
  ∧ release_ports ports (release_ports ports pm') = release_ports ports pm'.
Proof.
  intros pm ports pm'.
  apply (release_ports_undoes_allocate "p4" pm pm' ports).
  - apply (bool_decide_unpack _). vm_compute. exact I.
  - vm_compute. reflexivity.
Defined.

(** ** How many sandboxes fit *)

Lemma first_free_full (allocated : gset Z) (start end_ : Z) :
  (∀ p, start ≤ p ≤ end_ → p ∈ allocated) →
  first_free allocated start end_ = None.
Proof.
  intros Hfull. destruct (first_free allocated start end_) as [p|] eqn:E; [|done].
  apply first_free_Some in E as (Hp & Hfree & _). destruct Hfree. by apply Hfull.
Qed.

Lemma filled_init : filled 0 PortManager_init.
Proof.
  split; [done|]. intros p. split.
  - intros H. by apply not_elem_of_empty in H.
  - intros (role & lo & hi & _ & ?). lia.
Qed.

Ltac declared H :=
  apply declared_cases in H;
  destruct H as [(-> & -> & ->)|[(-> & -> & ->)|[(-> & -> & ->)|(-> & -> & ->)]]].

(** In a port manager filled to [k] < 100, the next call returns the
    ports at offset [k] of the four ranges and fills it to [k + 1]. *)
Lemma allocate_ports_filled (k : Z) (pid : string) (pm : PortManager) :
  0 ≤ k < 100 → filled k pm →
  ∃ ports pm',
    allocate_ports pid pm = (Ok ports, pm')
    ∧ filled (k + 1) pm'
    ∧ ports !! "vnc" = Some (15901 + k)
    ∧ ports !! "novnc" = Some (16080 + k)
    ∧ ports !! "browser_api" = Some (17788 + k)
    ∧ ports !! "file_server" = Some (18080 + k).
Proof.
  intros Hk [Hranges Hfilled]. destruct pm as [A ranges]. cbn in *. subst ranges.
  assert (∀ role lo hi q, (role, (lo, hi)) ∈ port_ranges PortManager_init →
                          lo ≤ q < lo + k → q ∈ A) as Hin.
  { intros role lo hi q Hr Hq. apply Hfilled. by exists role, lo, hi. }
  assert (∀ q, q ∈ A → (15901 ≤ q < 15901 + k) ∨ (16080 ≤ q < 16080 + k)
                       ∨ (17788 ≤ q < 17788 + k) ∨ (18080 ≤ q < 18080 + k)) as Hout.
  { intros q (role & lo & hi & Hr & Hq)%Hfilled. declared Hr; lia. }
  unfold allocate_ports. cbn [port_ranges allocated_ports PortManager_init allocate_loop].
  rewrite (first_free_lowest A 15901 16000 (15901 + k)); [|lia| |].
  2:{ intros Hq%Hout. lia. }
  2:{ intros q Hq. apply (Hin "vnc" 15901 16000); [by left|lia]. }
  rewrite (first_free_lowest _ 16080 16179 (16080 + k)); [|lia| |].
  2:{ rewrite elem_of_union, elem_of_singleton. intros [?|Hq%Hout]; lia. }
  2:{ intros q Hq. apply elem_of_union. right.
      apply (Hin "novnc" 16080 16179); [right; by left|lia]. }
  rewrite (first_free_lowest _ 17788 17887 (17788 + k)); [|lia| |].
  2:{ rewrite !elem_of_union, !elem_of_singleton. intros [?|[?|Hq%Hout]]; lia. }
  2:{ intros q Hq. apply elem_of_union. right. apply elem_of_union. right.
      apply (Hin "browser_api" 17788 17887); [right; right; by left|lia]. }
  rewrite (first_free_lowest _ 18080 18179 (18080 + k)); [|lia| |].
  2:{ rewrite !elem_of_union, !elem_of_singleton. intros [?|[?|[?|Hq%Hout]]]; lia. }
  2:{ intros q Hq. do 3 (apply elem_of_union; right).
      apply (Hin "file_server" 18080 18179); [right; right; right; by left|lia]. }
  eexists _, _. split; [reflexivity|]. split; [|by split_and!].
  split; [done|]. cbn [allocated_ports]. intros p.
  rewrite !elem_of_union, !elem_of_singleton. split.
  - intros [->|[->|[->|[->|Hp]]]].
    + exists "file_server", 18080, 18179. split; [right; right; right; by left|lia].
    + exists "browser_api", 17788, 17887. split; [right; right; by left|lia].
    + exists "novnc", 16080, 16179. split; [right; by left|lia].
    + exists "vnc", 15901, 16000. split; [by left|lia].
    + apply Hfilled in Hp as (role & lo & hi & Hr & Hp).
      exists role, lo, hi. split; [done|lia].
  - intros (role & lo & hi & Hr & Hp).
    destruct (decide (p = lo + k)) as [->|Hne].
    + declared Hr; tauto.
    + do 4 right. apply (Hin role lo hi); [done|lia].
Qed.

Lemma allocate_many_filled (k : nat) (j : Z) (pm : PortManager) :
  0 ≤ j → j + Z.of_nat k ≤ 100 → filled j pm →
  filled (j + Z.of_nat k) (allocate_many k pm).
Proof.
  revert j pm. induction k as [|k IH]; intros j pm Hj Hk Hfilled.
  { by replace (j + Z.of_nat 0) with j by lia. }
  cbn [allocate_many].
  destruct (allocate_ports_filled j "p" pm) as (ports & pm' & -> & Hfilled' & _);
    [lia|done|].
  replace (j + Z.of_nat (S k)) with ((j + 1) + Z.of_nat k) by lia.
  apply IH; [lia|lia|done].
Qed.

(** X3: The four ranges hold 100 ports each, so 100 sandboxes fit: after
    [k] allocations from the initial state with no release in between,
    the next call returns the ports at offset [k] of the four ranges as
    long as [k] < 100; the 101st call raises for the first role, [vnc],
    and leaves the port manager as it was. *)
Theorem allocate_ports_capacity (k : nat) (pid : string) :
  let pm := allocate_many k PortManager_init in
  ((k < 100)%nat →
   ∃ ports, fst (allocate_ports pid pm) = Ok ports
     ∧ ports !! "vnc" = Some (15901 + Z.of_nat k)
     ∧ ports !! "novnc" = Some (16080 + Z.of_nat k)
     ∧ ports !! "browser_api" = Some (17788 + Z.of_nat k)
     ∧ ports !! "file_server" = Some (18080 + Z.of_nat k))
  ∧ (k = 100%nat →
     allocate_ports pid pm
     = (Raise (RuntimeError "No available ports for service vnc"), pm)).
Proof.
  intros pm. split.
  - intros Hk.
    pose proof (allocate_many_filled k 0 PortManager_init ltac:(lia) ltac:(lia)
                  filled_init) as Hfilled.
    rewrite Z.add_0_l in Hfilled.
    destruct (allocate_ports_filled (Z.of_nat k) pid pm ltac:(lia) Hfilled)
      as (ports & pm' & -> & _ & H). by exists ports.
  - intros ->.
    pose proof (allocate_many_filled 100 0 PortManager_init ltac:(lia) ltac:(lia)
                  filled_init) as [Hranges Hfilled].
    fold pm in Hranges, Hfilled.
    apply (allocate_ports_fails_at_first_role pid pm "vnc" 15901 16000
             [ ("novnc", (16080, 16179)); ("browser_api", (17788, 17887));
               ("file_server", (18080, 18179)) ]); [exact Hranges|].
    apply first_free_full. intros p Hp. apply Hfilled.
    exists "vnc", 15901, 16000. split; [by left|lia].
Qed.

Lemma allocate_ports_capacity_witness :
  (∃ ports, fst (allocate_ports "p8" (allocate_many 7 PortManager_init)) = Ok ports
     ∧ ports !! "vnc" = Some (15901 + Z.of_nat 7)
     ∧ ports !! "novnc" = Some (16080 + Z.of_nat 7)
     ∧ ports !! "browser_api" = Some (17788 + Z.of_nat 7)
     ∧ ports !! "file_server" = Some (18080 + Z.of_nat 7))
  ∧ allocate_ports "p101" (allocate_many 100 PortManager_init)
    = (Raise (RuntimeError "No available ports for service vnc"),
       allocate_many 100 PortManager_init).
Proof.
  split.
  - apply (proj1 (allocate_ports_capacity 7 "p8")). lia.
  - apply (proj2 (allocate_ports_capacity 100 "p101")). reflexivity.
Defined.

End PortPolicy.

(* ===================================================================== *)
(** * The life of a sandbox                                               *)
(* ===================================================================== *)

Module LifecycleFacts.
Import Ports Engine Manager Props CallFacts PortFacts ManagerFacts Notions.

#[export] Instance same_engine_preorder : PreOrder same_engine.
Proof. split; [by intros w|]. unfold same_engine. intros ???; congruence. Qed.

Ltac related ::=
  unfold same_manager, same_port_manager, same_env, no_exec_since,
    same_engine_containers, same_engine, same_workspaces; simpl;
  first [ done | by exists [] ].

Lemma engine_call_same_engine ev : preserves same_engine (engine_call ev).
Proof. intros w. unfold engine_call. destruct (fault _ _); related. Qed.

Lemma exec_run_same_engine c cmd wd : preserves same_engine (exec_run c cmd wd).
Proof. intros w. related. Qed.

Lemma sleep_same_engine n : preserves same_engine (sleep n).
Proof. intros w. related. Qed.

#[export] Hint Resolve engine_call_same_engine exec_run_same_engine
  sleep_same_engine : frame.

Lemma wait_same_engine c timeout : preserves same_engine (_wait_for_services c timeout).
Proof. apply (wait_for_services_preserves same_engine); intros; frame. Qed.

Lemma wait_same_port_manager c timeout :
  preserves same_port_manager (_wait_for_services c timeout).
Proof. apply (wait_for_services_preserves same_port_manager); intros; frame. Qed.

#[export] Hint Resolve wait_same_engine wait_same_port_manager : frame.

Lemma get_sandbox_same_engine pid : preserves same_engine (get_sandbox pid).
Proof. frame. Qed.

(** A call ending in [Raise] stopped in one of the two halves of a bind. *)
Lemma bind_Raise_inv {A B} (m : M A) (k : A → M B) (w w' : World) (e : exn) :
  (m ≫= k) w = (Raise e, w') →
  m w = (Raise e, w') ∨ ∃ a w1, m w = (Ok a, w1) ∧ k a w1 = (Raise e, w').
Proof.
  rewrite run_bind. destruct (m w) as [[a|e0|] w1] eqn:E; intros H.
  - right; eauto.
  - injection H as -> ->. by left.
  - done.
Qed.

(** The readiness probe returns, whatever happens inside the container. *)
Lemma wait_for_services_Ok (c : Container) (timeout : Z) (w : World) :
  ∃ w', _wait_for_services c timeout w = (Ok tt, w').
Proof.
  unfold _wait_for_services. rewrite run_bind. cbn [time_time gets].
  assert (probing (env w) (history w) (log w) w []) as Hp0 by done.
  destruct (WaitFacts.supervisord_loop_spec (env w) (history w) (log w) c (clock w)
              15 w [] Hp0)
    as (b & w1 & new1 & Hrun1 & Hp1 & Hc1 & Ht1);
    [done|done|unfold seconds; lia|].
  rewrite run_bind, Hrun1, run_bind.
  assert (∃ w1' lg1,
            (if b then mret tt
             else logger WARNING "Supervisord may not be running properly") w1
            = (Ok tt, w1')
            ∧ probing (env w) (history w) lg1 w1' new1 ∧ clock w1' = clock w1)
    as (w1' & lg1 & -> & Hp1' & Hc1').
  { destruct Hp1 as [Hh He Hl]. destruct b; eexists _, _; (split; [reflexivity|]).
    - by split.
    - split; [split|]; cbn; by rewrite ?Hl. }
  rewrite run_bind.
  replace (Z.to_nat (timeout / 3) + 2)%nat
    with (S (Z.to_nat (timeout / 3) + 1)) by lia.
  destruct (WaitFacts.services_loop_spec (env w) (history w) lg1 c (clock w) timeout
              (Z.to_nat (timeout / 3) + 1) w1' new1 [] Hp1' Ht1)
    as (w2 & new2 & ready & timed_out & -> & _).
  { pose proof (Z.mul_succ_div_gt timeout 3 ltac:(lia)). unfold seconds. lia. }
  eexists. reflexivity.
Qed.

(** ** [create_sandbox], when it returns *)

Lemma container_config_Ok cfg nm vol ports w spec w' :
  container_config cfg nm vol ports w = (Ok spec, w') →
  w' = w ∧ spec_name spec = nm
  ∧ spec_labels spec !! "suna.project_id" = Some (project_id cfg)
  ∧ published ports
      ((λ '(internal, host), (internal, [ {| HostIp := "0.0.0.0"; HostPort := host |} ]))
         <$> spec_ports spec).
Proof.
  intros H. pose proof (container_config_pure cfg nm vol ports w) as Hpure.
  rewrite H in Hpure. cbn in Hpure. subst w'. split; [done|].
  unfold container_config in H.
  apply bind_Ok_inv in H as (vnc & w1 & [Hvnc ->]%getitem_Ok_inv & H).
  apply bind_Ok_inv in H as (novnc & w1 & [Hnovnc ->]%getitem_Ok_inv & H).
  apply bind_Ok_inv in H as (ba & w1 & [Hba ->]%getitem_Ok_inv & H).
  apply bind_Ok_inv in H as (fs & w1 & [Hfs ->]%getitem_Ok_inv & H).
  repeat (apply bind_Ok_inv in H as (? & ? & _ & H)).
  injection H as <- _. cbn [spec_name spec_labels spec_ports].
  split; [done|]. split.
  - rewrite lookup_insert_eq. done.
  - exists vnc, novnc, ba, fs. by split_and!.
Qed.

Lemma ensure_volume_Ok vol w u w' :
  try_except (volumes_get vol;; mret tt)
    (λ e, if is_DockerNotFound e then volumes_create vol else raise e) w
  = (Ok u, w') →
  engine_containers (engine w') = engine_containers (engine w)
  ∧ next_id (engine w') = next_id (engine w)
  ∧ vol ∈ engine_volumes (engine w').
Proof.
  intros H.
  apply try_Ok_inv in H as [H|(e & w1 & Hbody & H)].
  - apply bind_Ok_inv in H as (v & w1 & Hget & [= _ <-]).
    unfold volumes_get in Hget.
    apply bind_Ok_inv in Hget as ([] & w2 & ->%engine_call_Ok_inv & Hget).
    apply bind_Ok_inv in Hget as (vs & w3 & [= <- <-] & Hget). fields.
    case_bool_decide as Hin; [|done]. injection Hget as _ <-. done.
  - framed same_engine Hbody. destruct (is_DockerNotFound e); [|done].
    unfold volumes_create in H.
    apply bind_Ok_inv in H as ([] & w2 & ->%engine_call_Ok_inv & H).
    injection H as H. subst w'. unfold same_engine in Hframe. cbn. rewrite Hframe.
    split_and!; [done|done|].
    apply elem_of_union. left. by apply elem_of_singleton.
Qed.

(** Starting the container just created under a name that was free
    touches no other container. *)
Lemma started_newest (cs : list Container) (c created : Container) :
  find_by_name (name c) cs = None → name created = name c →
  (λ x, if bool_decide (name x = name c) then c else x) <$> (cs ++ [created])
  = cs ++ [c].
Proof.
  intros Hfree Hname. rewrite fmap_app. cbn.
  rewrite bool_decide_eq_true_2 by done. f_equal.
  unfold find_by_name in Hfree. apply fmap_None, list_find_None in Hfree.
  induction Hfree as [|x cs Hx _ IH]; [done|]. cbn.
  by rewrite bool_decide_eq_false_2, IH.
Qed.

Lemma containers_run_Ok spec w c w' :
  containers_run spec w = (Ok c, w') →
  find_by_name (spec_name spec) (engine_containers (engine w)) = None
  ∧ c = {| id := "c" +:+ pretty (next_id (engine w));
           name := spec_name spec; status := "running";
           labels := spec_labels spec;
           network_ports :=
             (λ '(internal, host),
                (internal, [ {| HostIp := "0.0.0.0"; HostPort := host |} ]))
             <$> spec_ports spec |}
  ∧ engine_containers (engine w') = engine_containers (engine w) ++ [c]
  ∧ engine_volumes (engine w') = engine_volumes (engine w)
  ∧ same_manager w w'.
Proof.
  unfold containers_run. intros H.
  apply bind_Ok_inv in H as ([] & w1 & ->%engine_call_Ok_inv & H).
  apply bind_Ok_inv in H as (s & w2 & [= <- <-] & H). fields.
  destruct (find_by_name _ _) eqn:Efind; [done|].
  apply bind_Ok_inv in H as ([] & w3 & [= <-] & H).
  apply bind_Ok_inv in H as ([] & w4 & ->%engine_call_Ok_inv & H).
  apply bind_Ok_inv in H as ([] & w5 & [= <-] & [= <- <-]).
  fields. unfold started. cbn [engine_containers engine_volumes].
  split_and!; [done|done| |done|done].
  by apply started_newest.
Qed.

(** The launch, when it returns: the name was free, the container is the
    engine's newest, it runs, carries the project's label and publishes
    the ports of the dict; the volume exists. *)
Lemma create_sandbox_launch_Ok cfg nm ports w c w' :
  create_sandbox_launch cfg nm ports w = (Ok c, w') →
  find_by_name nm (engine_containers (engine w)) = None
  ∧ name c = nm ∧ status c = "running"
  ∧ labels c !! "suna.project_id" = Some (project_id cfg)
  ∧ published ports (network_ports c)
  ∧ engine_containers (engine w') = engine_containers (engine w) ++ [c]
  ∧ "suna-workspace-" +:+ project_id cfg ∈ engine_volumes (engine w').
Proof.
  unfold create_sandbox_launch. intros H.
  apply bind_Ok_inv in H as (u & w1 & (Hc1 & _ & Hv1)%ensure_volume_Ok & H).
  apply bind_Ok_inv in H as (spec & w2 & (-> & Hname & Hlabel & Hpub)%container_config_Ok & H).
  apply bind_Ok_inv in H as (c0 & w3 & (Hfree & Hc & Hc3 & Hv3 & _)%containers_run_Ok & H).
  apply bind_Ok_inv in H as ([] & w4 & Hwait & [= <- <-]).
  framed same_engine Hwait. unfold same_engine in Hframe.
  rewrite Hframe, Hc3, Hv3, Hc1. rewrite Hname, Hc1 in Hfree.
  split; [done|]. rewrite Hc. cbn [name status labels network_ports].
  by split_and!.
Qed.

Lemma create_sandbox_Ok_inv cfg w cid w' :
  create_sandbox cfg w = (Ok cid, w') →
  ∃ ports pm1 c w2,
    containers w !! project_id cfg = None
    ∧ allocate_ports (project_id cfg) (port_manager w) = (Ok ports, pm1)
    ∧ create_sandbox_launch cfg ("suna-sandbox-" +:+ project_id cfg) ports
        (set_port_manager (λ _, pm1) w) = (Ok c, w2)
    ∧ cid = id c
    ∧ w' = set_containers
             (<[project_id cfg :=
                  {| container := c; ports := ports; config := cfg;
                     created_at := Naive (clock w2);
                     volume_name := "suna-workspace-" +:+ project_id cfg |}]>) w2.
Proof.
  intros H.
  destruct (containers w !! project_id cfg) as [e0|] eqn:Hcached.
  { rewrite create_sandbox_cached in H by (by eexists). done. }
  rewrite create_sandbox_run in H by done.
  destruct (allocate_ports _ _) as [[ports|e|] pm1] eqn:Ealloc; [|done|done].
  destruct (create_sandbox_try _ _ _ _) as [[cid'|e|] w2'] eqn:Etry; [|done|done].
  injection H as -> ->. unfold create_sandbox_try in Etry.
  apply bind_Ok_inv in Etry as (c & w2 & Hlaunch & H).
  apply bind_Ok_inv in H as (now & w3 & [= <- <-] & H).
  apply bind_Ok_inv in H as ([] & w4 & [= <-] & [= <- <-]).
  by exists ports, pm1, c, w2.
Qed.

Lemma find_by_name_newest nm cs c :
  find_by_name nm cs = None → name c = nm → find_by_name nm (cs ++ [c]) = Some c.
Proof.
  unfold find_by_name. intros Hfree Hname.
  destruct (list_find _ cs) as [[i x]|] eqn:E; [done|].
  rewrite (list_find_app_r _ _ _ E). cbn. by rewrite decide_True.
Qed.

(** X4: When [create_sandbox] returns, the project was not cached before;
    the id returned is that of a container the engine now holds under the
    name [suna-sandbox-<project_id>] (a name that was free), running,
    labelled with the project and publishing the four ports that
    [allocate_ports] handed out; the project's volume exists; and the cache
    maps the project to that container, those ports and the given
    configuration. *)
Theorem create_sandbox_returns_live_sandbox (cfg : SandboxConfig) (w w' : World)
    (cid : string) :
  create_sandbox cfg w = (Ok cid, w') →
  ∃ (c : Container) (ports : gmap string Z) (created : datetime),
    containers w !! project_id cfg = None
    ∧ allocate_ports (project_id cfg) (port_manager w) = (Ok ports, port_manager w')
    ∧ containers w' =
        <[project_id cfg :=
            {| container := c; ports := ports; config := cfg;
               created_at := created;
               volume_name := "suna-workspace-" +:+ project_id cfg |}]> (containers w)
    ∧ id c = cid
    ∧ find_by_name ("suna-sandbox-" +:+ project_id cfg)
        (engine_containers (engine w)) = None
    ∧ find_by_name ("suna-sandbox-" +:+ project_id cfg)
        (engine_containers (engine w')) = Some c
    ∧ status c = "running"
    ∧ labels c !! "suna.project_id" = Some (project_id cfg)
    ∧ published ports (network_ports c)
    ∧ "suna-workspace-" +:+ project_id cfg ∈ engine_volumes (engine w').
Proof.
  intros H.
  apply create_sandbox_Ok_inv in H
    as (ports & pm1 & c & w2 & Hmiss & Halloc & Hlaunch & -> & ->).
  framed same_manager Hlaunch. destruct Hframe as [Hc Hpm].
  apply create_sandbox_launch_Ok in Hlaunch
    as (Hfree & Hname & Hstatus & Hlabel & Hpub & Hengine & Hvol).
  exists c, ports, (Naive (clock w2)). fields.
  rewrite Hc, Hpm, Hengine. fields.
  split_and!; try done.
  by apply find_by_name_newest.
Qed.

Lemma create_sandbox_returns_live_sandbox_witness :
  ∃ (c : Container) (ports : gmap string Z) (created : datetime),
    containers Scenario.fresh !! "p1" = None
    ∧ allocate_ports "p1" (port_manager Scenario.fresh)
      = (Ok ports, port_manager Scenario.created)
    ∧ containers Scenario.created =
        <["p1" := {| container := c; ports := ports; config := default_config "p1";
                     created_at := created;
                     volume_name := "suna-workspace-" +:+ "p1" |}]>
          (containers Scenario.fresh)
    ∧ id c = "c0"
    ∧ find_by_name ("suna-sandbox-" +:+ "p1")
        (engine_containers (engine Scenario.fresh)) = None
    ∧ find_by_name ("suna-sandbox-" +:+ "p1")
        (engine_containers (engine Scenario.created)) = Some c
    ∧ status c = "running"
    ∧ labels c !! "suna.project_id" = Some "p1"
    ∧ published ports (network_ports c)
    ∧ "suna-workspace-" +:+ "p1" ∈ engine_volumes (engine Scenario.created).
Proof.
  apply (create_sandbox_returns_live_sandbox (default_config "p1")
           Scenario.fresh Scenario.created "c0").
  vm_compute. reflexivity.
Defined.

Lemma extract_published (ports : gmap string Z) table :
  published ports table →
  (∀ s, is_Some (ports !! s) → s ∈ roles) →
  fold_left extract_step table ∅ = ports.
Proof.
  intros (vnc & novnc & ba & fs & Hvnc & Hnovnc & Hba & Hfs & ->) Hdom.
  assert (port_mapping !! "5901/tcp" = Some "vnc") as E1 by (vm_compute; reflexivity).
  assert (port_mapping !! "6080/tcp" = Some "novnc") as E2 by (vm_compute; reflexivity).
  assert (port_mapping !! "7788/tcp" = Some "browser_api") as E3
    by (vm_compute; reflexivity).
  assert (port_mapping !! "8080/tcp" = Some "file_server") as E4
    by (vm_compute; reflexivity).
  cbn [fold_left]. unfold extract_step. rewrite E1, E2, E3, E4.
  cbn [HostPort]. apply map_eq. intros s.
  destruct (decide (s = "file_server")) as [->|N4]; [by rewrite lookup_insert_eq|].
  rewrite lookup_insert_ne by done.
  destruct (decide (s = "browser_api")) as [->|N3]; [by rewrite lookup_insert_eq|].
  rewrite lookup_insert_ne by done.
  destruct (decide (s = "novnc")) as [->|N2]; [by rewrite lookup_insert_eq|].
  rewrite lookup_insert_ne by done.
  destruct (decide (s = "vnc")) as [->|N1]; [by rewrite lookup_insert_eq|].
  rewrite lookup_insert_ne, lookup_empty by done.
  destruct (ports !! s) eqn:E; [|done].
  assert (s ∈ roles) as Hs by (apply Hdom; by eexists).
  unfold roles in Hs.
  repeat (apply elem_of_cons in Hs as [->|Hs]; [done|]).
  by apply elem_of_nil in Hs.
Qed.

(** X5: What [create_sandbox] publishes is what recovery reads back: with
    the declared ranges, [_extract_ports_from_container] applied to the
    container a successful [create_sandbox] left in the engine gives
    exactly the ports dict stored in the cache entry. *)
Theorem created_ports_read_back (cfg : SandboxConfig) (w w' : World) (cid : string) :
  port_ranges (port_manager w) = port_ranges PortManager_init →
  create_sandbox cfg w = (Ok cid, w') →
  ∃ c entry,
    find_by_name ("suna-sandbox-" +:+ project_id cfg)
      (engine_containers (engine w')) = Some c
    ∧ containers w' !! project_id cfg = Some entry
    ∧ id c = cid
    ∧ _extract_ports_from_container c = Manager.ports entry.
Proof.
  intros Hranges H.
  apply create_sandbox_Ok_inv in H
    as (ports & pm1 & c & w2 & Hmiss & Halloc & Hlaunch & -> & ->).
  apply create_sandbox_launch_Ok in Hlaunch
    as (Hfree & Hname & _ & _ & Hpub & Hengine & _).
  eexists c, _. fields. rewrite Hengine. fields.
  split_and!; [by apply find_by_name_newest|apply lookup_insert_eq|done|].
  cbn [Manager.ports]. apply extract_published; [done|].
  pose proof declared_nodup as Hnodup. rewrite <- Hranges in Hnodup.
  destruct (allocate_ports_Ok _ _ _ _ Hnodup Halloc) as (Hdom & _).
  intros s Hs%Hdom. by rewrite Hranges in Hs.
Qed.

Lemma created_ports_read_back_witness :
  ∃ c entry,
    find_by_name ("suna-sandbox-" +:+ "p1")
      (engine_containers (engine Scenario.created)) = Some c
    ∧ containers Scenario.created !! "p1" = Some entry
    ∧ id c = "c0"
    ∧ _extract_ports_from_container c = Manager.ports entry.
Proof.
  apply (created_ports_read_back (default_config "p1") Scenario.fresh
           Scenario.created "c0").
  - reflexivity.
  - vm_compute. reflexivity.
Defined.

(** ** [create_sandbox], when it raises *)

Lemma containers_run_Raise spec w e w' :
  containers_run spec w = (Raise e, w') →
  left_behind (spec_name spec) (engine_containers (engine w))
    (engine_containers (engine w')).
Proof.
  unfold containers_run. intros H.
  apply bind_Raise_inv in H as [H|([] & w1 & ->%engine_call_Ok_inv & H)].
  { framed same_engine H. left. by rewrite Hframe. }
  apply bind_Raise_inv in H as [H|(s & w2 & [= <- <-] & H)]; [done|]. fields.
  destruct (find_by_name _ _); [injection H as _ <-; by left|].
  apply bind_Raise_inv in H as [H|([] & w3 & [= <-] & H)]; [done|].
  apply bind_Raise_inv in H as [H|([] & w4 & _ & H)].
  - framed same_engine H. unfold same_engine in Hframe. rewrite Hframe. fields.
    right. by eexists.
  - apply bind_Raise_inv in H as [H|([] & w5 & _ & H)]; done.
Qed.

(** A launch that raises stopped at the volume, at the configuration or
    at [containers.run]; the readiness probe never raises. Only a start
    that the engine refused leaves a container behind. *)
Lemma create_sandbox_launch_Raise cfg nm ports w e w' :
  create_sandbox_launch cfg nm ports w = (Raise e, w') →
  left_behind nm (engine_containers (engine w)) (engine_containers (engine w')).
Proof.
  unfold create_sandbox_launch. intros H.
  apply bind_Raise_inv in H as [H|(u & w1 & Hvol & H)].
  { framed same_engine_containers H. left. exact Hframe. }
  framed same_engine_containers Hvol. rename Hframe into H1.
  unfold same_engine_containers in H1. rewrite <- H1.
  apply bind_Raise_inv in H as [H|(spec & w2 & (-> & Hname & _)%container_config_Ok & H)].
  { pose proof (container_config_pure cfg nm ("suna-workspace-" +:+ project_id cfg)
                  ports w1) as Hpure. rewrite H in Hpure. cbn in Hpure. subst. by left. }
  apply bind_Raise_inv in H as [H|(c & w3 & _ & H)].
  { apply containers_run_Raise in H. by rewrite Hname in H. }
  apply bind_Raise_inv in H as [H|([] & w4 & _ & H)]; [|done].
  destruct (wait_for_services_Ok c 120 w3) as [w4 Hok]. by rewrite Hok in H.
Qed.

(** X6: A [create_sandbox] that raises after its ports were allocated
    restores the manager: the cache and the port manager are what they
    were before the call (the handler released the ports). The engine is
    not cleaned up. It holds the containers it held, or one more: the
    container that [containers.run] created under the sandbox's name and
    could not start, which the handler does not remove. *)
Theorem create_sandbox_failure_restores_manager (cfg : SandboxConfig) (w w' : World)
    (e : exn) (ports : gmap string Z) (pm1 : PortManager) :
  NoDup (port_ranges (port_manager w)).*1 →
  allocate_ports (project_id cfg) (port_manager w) = (Ok ports, pm1) →
  create_sandbox cfg w = (Raise e, w') →
  containers w' = containers w
  ∧ port_manager w' = port_manager w
  ∧ (engine_containers (engine w') = engine_containers (engine w)
     ∨ ∃ c, engine_containers (engine w') = engine_containers (engine w) ++ [c]
            ∧ name c = "suna-sandbox-" +:+ project_id cfg
            ∧ status c = "created" ∧ network_ports c = []).
Proof.
  intros Hnodup Halloc H.
  destruct (containers w !! project_id cfg) as [e0|] eqn:Hcached.
  { rewrite create_sandbox_cached in H by (by eexists). injection H as _ <-.
    split_and!; [done|done|by left]. }
  rewrite create_sandbox_run, Halloc in H by done.
  destruct (create_sandbox_try _ _ _ _) as [[cid|e1|] w2] eqn:Etry; [done| |done].
  injection H as -> <-. fields. unfold create_sandbox_try in Etry.
  apply bind_Raise_inv in Etry as [Hlaunch|(c & w3 & _ & Etry)].
  2:{ apply bind_Raise_inv in Etry as [Etry|(now & w4 & _ & Etry)]; [done|].
      apply bind_Raise_inv in Etry as [Etry|([] & w5 & _ & Etry)]; done. }
  framed same_manager Hlaunch. destruct Hframe as [Hc Hpm].
  apply create_sandbox_launch_Raise in Hlaunch. fields.
  rewrite Hc, Hpm. fields.
  split_and!; [done|by eapply release_after_allocate|exact Hlaunch].
Qed.

Lemma create_sandbox_failure_restores_manager_witness :
  let w' := snd (create_sandbox (default_config "p1") Cases.start_refused) in
  containers w' = containers Cases.start_refused
  ∧ port_manager w' = port_manager Cases.start_refused
  ∧ (engine_containers (engine w') = engine_containers (engine Cases.start_refused)
     ∨ ∃ c, engine_containers (engine w')
            = engine_containers (engine Cases.start_refused) ++ [c]
            ∧ name c = "suna-sandbox-p1"
            ∧ status c = "created" ∧ network_ports c = []).
Proof.
  intros w'.
  apply (create_sandbox_failure_restores_manager (default_config "p1")
           Cases.start_refused w'
           (DockerAPIError
              "driver failed programming external connectivity: port is already allocated")
           {[ "vnc" := 15901; "novnc" := 16080;
              "browser_api" := 17788; "file_server" := 18080 ]}
           (snd (allocate_ports "p1" (port_manager Cases.start_refused)))).
  - apply (bool_decide_unpack _). vm_compute. exact I.
  - vm_compute. reflexivity.
  - vm_compute. reflexivity.
Defined.

(** In that world the second case is the one that happens: the container
    is left in the engine, created and not running, and a second
    [create_sandbox] for the project is refused for its name. *)
Example create_sandbox_refused_start_leaves_container :
  let w' := snd (create_sandbox (default_config "p1") Cases.start_refused) in
  (name <$> engine_containers (engine w'), status <$> engine_containers (engine w'))
  = (["suna-sandbox-p1"], ["created"])
  ∧ fst (create_sandbox (default_config "p1") w')
    = Raise (DockerAPIError
               "Conflict. The container name suna-sandbox-p1 is already in use").
Proof. split; vm_compute; reflexivity. Qed.

(** ** [delete_sandbox] *)

Lemma find_by_id_dropped cid cs :
  find_by_id cid (filter (λ c, id c ≠ cid) cs) = None.
Proof.
  unfold find_by_id. destruct (list_find _ _) as [[i x]|] eqn:E; [|done].
  apply list_find_Some in E as (Hx%list_elem_of_lookup_2 & Hid & _).
  by apply list_elem_of_filter in Hx as [Hne _].
Qed.

Lemma container_remove_Ok c w u w' :
  container_remove c w = (Ok u, w') →
  find_by_id (id c) (engine_containers (engine w')) = None
  ∧ engine_volumes (engine w') = engine_volumes (engine w).
Proof.
  unfold container_remove. intros H.
  apply bind_Ok_inv in H as ([] & w1 & ->%engine_call_Ok_inv & H).
  apply bind_Ok_inv in H as ([] & w2 & Hknown & H).
  injection H as _ <-. framed same_engine Hknown.
  unfold same_engine in Hframe. cbn. rewrite Hframe. cbn.
  split; [apply find_by_id_dropped|done].
Qed.

(** The volume step of [delete_sandbox], when it lets the call go on: the
    volume is gone, whether it was removed or was not there. *)
Lemma remove_volume_Ok vol w u w' :
  try_except (volume ← volumes_get vol; volume_remove volume)
    (λ e, if is_DockerNotFound e then mret tt else raise e) w = (Ok u, w') →
  (vol ∉ engine_volumes (engine w'))
  ∧ engine_containers (engine w') = engine_containers (engine w).
Proof.
  intros H. apply try_Ok_inv in H as [H|(e & w1 & Hbody & H)].
  - apply bind_Ok_inv in H as (v & w1 & Hget & H).
    framed same_engine Hget. unfold same_engine in Hframe.
    unfold volumes_get in Hget.
    apply bind_Ok_inv in Hget as ([] & w2 & _ & Hget).
    apply bind_Ok_inv in Hget as (vs & w3 & [= <- <-] & Hget).
    case_bool_decide; [|done]. injection Hget as <- <-.
    unfold volume_remove in H.
    apply bind_Ok_inv in H as ([] & w4 & ->%engine_call_Ok_inv & H).
    apply bind_Ok_inv in H as (vs & w5 & [= <- <-] & H). fields.
    case_bool_decide; [|done]. injection H as _ <-. cbn. rewrite Hframe.
    split; [|done]. rewrite elem_of_difference, elem_of_singleton. tauto.
  - destruct (is_DockerNotFound e) eqn:Enf; [|done]. injection H as _ <-.
    apply bind_Raise_inv in Hbody as [Hget|(v & w2 & Hget & Hrm)].
    + unfold volumes_get in Hget.
      apply bind_Raise_inv in Hget as [Hget|([] & w2 & ->%engine_call_Ok_inv & Hget)].
      { unfold engine_call in Hget. destruct (fault _ _); [|done].
        injection Hget as <- _. done. }
      apply bind_Raise_inv in Hget as [Hget|(vs & w3 & [= <- <-] & Hget)]; [done|].
      fields. case_bool_decide; [done|]. by injection Hget as _ <-.
    + framed same_engine Hget. unfold same_engine in Hframe.
      unfold volumes_get in Hget.
      apply bind_Ok_inv in Hget as ([] & w3 & _ & Hget).
      apply bind_Ok_inv in Hget as (vs & w4 & [= <- <-] & Hget).
      case_bool_decide; [|done]. injection Hget as <- <-.
      unfold volume_remove in Hrm.
      apply bind_Raise_inv in Hrm as [Hrm|([] & w5 & ->%engine_call_Ok_inv & Hrm)].
      { unfold engine_call in Hrm. destruct (fault _ _); [|done].
        injection Hrm as <- _. done. }
      apply bind_Raise_inv in Hrm as [Hrm|(vs & w6 & [= <- <-] & Hrm)]; [done|].
      fields. case_bool_decide; [done|]. injection Hrm as _ <-. cbn.
      by rewrite Hframe.
Qed.

Lemma delete_sandbox_engine_Ok info w u w' :
  delete_sandbox_engine info w = (Ok u, w') →
  find_by_id (id (container info)) (engine_containers (engine w')) = None
  ∧ (volume_name info ∉ engine_volumes (engine w')).
Proof.
  unfold delete_sandbox_engine. intros H.
  apply bind_Ok_inv in H as ([] & w1 & _ & H).
  apply bind_Ok_inv in H as ([] & w2 & [Hgone _]%container_remove_Ok & H).
  apply remove_volume_Ok in H as [Hvol Hc]. by rewrite Hc.
Qed.

Lemma delete_sandbox_Ok_inv pid w u w' :
  delete_sandbox pid w = (Ok u, w') →
  ∃ info,
    containers w !! pid = Some info
    ∧ containers w' = delete pid (containers w)
    ∧ port_manager w' = release_ports (ports info) (port_manager w)
    ∧ find_by_id (id (container info)) (engine_containers (engine w')) = None
    ∧ (volume_name info ∉ engine_volumes (engine w')).
Proof.
  unfold delete_sandbox. intros H.
  apply bind_Ok_inv in H as (cs & w0 & [= <- <-] & H).
  destruct (containers w !! pid) as [info|] eqn:Hcached; [|done].
  apply bind_Ok_inv in H as ([] & w1 & Hengine & H).
  framed same_manager Hengine. destruct Hframe as [Hc Hpm].
  apply delete_sandbox_engine_Ok in Hengine as [Hgone Hvol].
  apply bind_Ok_inv in H as ([] & w2 & [= <-] & H). injection H as H. subst w'.
  exists info. fields. by rewrite Hc, Hpm.
Qed.

(** X7: [delete_sandbox] is all or nothing for the manager. When it
    returns, the project was cached, its entry is gone from the cache, its
    ports are released, and the engine holds neither the container nor the
    volume of the entry. When it raises (unknown project, or the engine
    refused the removal), the cache and the port manager are untouched, so
    the deletion can be tried again. *)
Theorem delete_sandbox_all_or_nothing (pid : string) (w : World) :
  match delete_sandbox pid w with
  | (Ok _, w') =>
      ∃ info,
        containers w !! pid = Some info
        ∧ containers w' = delete pid (containers w)
        ∧ port_manager w' = release_ports (ports info) (port_manager w)
        ∧ find_by_id (id (container info)) (engine_containers (engine w')) = None
        ∧ (volume_name info ∉ engine_volumes (engine w'))
  | (Raise _, w') =>
      containers w' = containers w ∧ port_manager w' = port_manager w
  | (OutOfFuel, _) => False
  end.
Proof.
  destruct (delete_sandbox pid w) as [[[]|e|] w'] eqn:H.
  - by apply delete_sandbox_Ok_inv in H.
  - unfold delete_sandbox in H.
    apply bind_Raise_inv in H as [H|(cs & w0 & [= <- <-] & H)]; [done|].
    destruct (containers w !! pid) as [info|]; [|by injection H as _ <-].
    apply bind_Raise_inv in H as [H|([] & w1 & _ & H)].
    + by framed same_manager H.
    + apply bind_Raise_inv in H as [H|([] & w2 & _ & H)]; done.
  - assert (total (delete_sandbox pid)) as Ht by total. by specialize (Ht w); rewrite H in Ht.
Qed.

(** X8: Creating a sandbox and deleting it again is a round trip for the
    manager: the cache and the port manager are what they were before the
    creation, and the container that had been created is gone from the
    engine, as is the project's volume. *)
Theorem create_then_delete_round_trip (cfg : SandboxConfig) (w w1 w2 : World)
    (cid : string) :
  NoDup (port_ranges (port_manager w)).*1 →
  create_sandbox cfg w = (Ok cid, w1) →
  delete_sandbox (project_id cfg) w1 = (Ok tt, w2) →
  containers w2 = containers w
  ∧ port_manager w2 = port_manager w
  ∧ find_by_id cid (engine_containers (engine w2)) = None
  ∧ ("suna-workspace-" +:+ project_id cfg ∉ engine_volumes (engine w2)).
Proof.
  intros Hnodup Hcreate Hdelete.
  apply create_sandbox_Ok_inv in Hcreate
    as (ports & pm1 & c & w1' & Hmiss & Halloc & Hlaunch & -> & ->).
  framed same_manager Hlaunch. destruct Hframe as [Hc Hpm].
  apply delete_sandbox_Ok_inv in Hdelete
    as (info & Hinfo & Hcache & Hports & Hgone & Hvol).
  fields. rewrite lookup_insert_eq in Hinfo. injection Hinfo as <-.
  cbn [container Manager.ports volume_name] in *.
  rewrite Hcache, Hports, Hc, Hpm. fields.
  split_and!; [|by eapply release_after_allocate|done|done].
  rewrite delete_insert_eq. by apply delete_id.
Qed.

Lemma create_then_delete_round_trip_witness :
  let w2 := snd (delete_sandbox "p1" Scenario.created) in
  containers w2 = containers Scenario.fresh
  ∧ port_manager w2 = port_manager Scenario.fresh
  ∧ find_by_id "c0" (engine_containers (engine w2)) = None
  ∧ ("suna-workspace-" +:+ "p1" ∉ engine_volumes (engine w2)).
Proof.
  intros w2.
  apply (create_then_delete_round_trip (default_config "p1") Scenario.fresh
           Scenario.created w2 "c0").
  - apply (bool_decide_unpack _). vm_compute. exact I.
  - vm_compute. reflexivity.
  - vm_compute. reflexivity.
Defined.

(** ** [get_sandbox], when it returns *)

Lemma find_by_id_id cid cs c : find_by_id cid cs = Some c → id c = cid.
Proof.
  unfold find_by_id. destruct (list_find _ _) as [[i x]|] eqn:E; [|done].
  intros [= <-]. by apply list_find_Some in E as (_ & Hid & _).
Qed.

Lemma reload_Ok c w c' w' :
  reload c w = (Ok c', w') →
  find_by_id (id c) (engine_containers (engine w)) = Some c'
  ∧ engine w' = engine w.
Proof.
  intros H. framed same_engine H. split; [|done]. unfold reload in H.
  apply bind_Ok_inv in H as ([] & w1 & ->%engine_call_Ok_inv & H).
  apply bind_Ok_inv in H as (cs & w2 & [= <- <-] & H). fields.
  destruct (find_by_id _ _); [|done]. by injection H as ->.
Qed.

Lemma generate_service_urls_Ok ports w urls w' :
  _generate_service_urls ports w = (Ok urls, w') →
  ∀ role, role ∈ roles →
    ∃ p, ports !! role = Some p ∧ urls !! role = Some (url_of role p).
Proof.
  unfold _generate_service_urls. intros H.
  apply bind_Ok_inv in H as (vnc & w1 & [Hvnc ->]%getitem_Ok_inv & H).
  apply bind_Ok_inv in H as (novnc & w1 & [Hnovnc ->]%getitem_Ok_inv & H).
  apply bind_Ok_inv in H as (ba & w1 & [Hba ->]%getitem_Ok_inv & H).
  apply bind_Ok_inv in H as (fs & w1 & [Hfs ->]%getitem_Ok_inv & H).
  injection H as <- _. intros role Hrole. unfold roles in Hrole.
  repeat (apply elem_of_cons in Hrole as [->|Hrole];
          [eexists; split; [eassumption|];
           unfold url_of; by simplify_map_eq|]).
  by apply elem_of_nil in Hrole.
Qed.

Lemma get_sandbox_cached_view pid info w view w' :
  get_sandbox_cached pid info w = (Ok view, w') →
  ∃ c,
    find_by_id (id (container info)) (engine_containers (engine w)) = Some c
    ∧ engine w' = engine w
    ∧ containers w' = <[pid := with_container c info]> (containers w)
    ∧ view_id view = id c ∧ view_name view = name c ∧ view_status view = status c
    ∧ view_config view = config info
    ∧ ∀ role, role ∈ roles →
        ∃ p, ports info !! role = Some p
             ∧ view_ports view !! role = Some (internal_port_of role, p)
             ∧ view_urls view !! role = Some (url_of role p).
Proof.
  unfold get_sandbox_cached. intros H.
  apply bind_Ok_inv in H as (c & w1 & Hreload & H).
  framed same_manager Hreload. destruct Hframe as [Hc1 _].
  apply reload_Ok in Hreload as [Hfind He1].
  apply bind_Ok_inv in H as ([] & w2 & [= <-] & H).
  apply bind_Ok_inv in H as (e & w3 & [= <- <-] & H).
  apply bind_Ok_inv in H as (urls & w4 & Hurls & H).
  framed same_manager Hurls. destruct Hframe as [Hc4 _].
  framed same_engine Hurls. unfold same_engine in Hframe.
  injection H as <- <-. exists c. fields.
  rewrite Hframe, Hc4. fields. rewrite Hc1.
  split_and!; try done.
  intros role Hrole.
  destruct (generate_service_urls_Ok _ _ _ _ Hurls role Hrole) as (p & Hp & Hurl).
  exists p. cbn [view_ports view_urls]. split_and!; [done| |done].
  unfold _format_ports. by rewrite map_lookup_imap, Hp.
Qed.

(** What [get_sandbox] leaves and returns, by either branch: the cache
    holds the project with a handle the engine has just confirmed. *)
Lemma get_sandbox_Ok_inv pid w view w' :
  get_sandbox pid w = (Ok view, w') →
  ∃ entry,
    containers w' !! pid = Some entry
    ∧ engine w' = engine w
    ∧ find_by_id (id (container entry)) (engine_containers (engine w))
      = Some (container entry)
    ∧ view_id view = id (container entry)
    ∧ view_name view = name (container entry)
    ∧ view_status view = status (container entry)
    ∧ ∀ role, role ∈ roles →
        ∃ p, ports entry !! role = Some p
             ∧ view_ports view !! role = Some (internal_port_of role, p)
             ∧ view_urls view !! role = Some (url_of role p).
Proof.
  intros H. framed same_engine H. rename Hframe into Hengine.
  assert (∀ info w0, get_sandbox_cached pid info w0 = (Ok view, w') →
            engine w0 = engine w →
            ∃ entry, containers w' !! pid = Some entry
              ∧ find_by_id (id (container entry)) (engine_containers (engine w))
                = Some (container entry)
              ∧ view_id view = id (container entry)
              ∧ view_name view = name (container entry)
              ∧ view_status view = status (container entry)
              ∧ ∀ role, role ∈ roles →
                  ∃ p, ports entry !! role = Some p
                       ∧ view_ports view !! role = Some (internal_port_of role, p)
                       ∧ view_urls view !! role = Some (url_of role p)) as Hcached.
  { intros info w0 Hrun He0.
    apply get_sandbox_cached_view in Hrun
      as (c & Hfind & _ & Hc & Hid & Hname & Hstatus & _ & Hroles).
    exists (with_container c info). rewrite Hc, lookup_insert_eq.
    unfold with_container. cbn [container Manager.ports]. rewrite He0 in Hfind.
    pose proof (find_by_id_id _ _ _ Hfind) as Hidc.
    split_and!; try done; congruence. }
  unfold get_sandbox in H.
  apply bind_Ok_inv in H as (cs & w0 & [= <- <-] & H).
  destruct (containers w !! pid) as [info|] eqn:Hinfo.
  { destruct (Hcached info w H eq_refl) as (entry & ?). exists entry. tauto. }
  apply bind_Ok_inv in H as (r & w1 & Hrec & H).
  destruct r as [view'|]; [|done]. injection H as -> ->.
  unfold get_sandbox_recover in Hrec.
  apply try_Ok_inv in Hrec as [Hrec|(e & w2 & _ & Hh)].
  2:{ by destruct (is_DockerNotFound e). }
  apply bind_Ok_inv in Hrec as (c & w2 & Hget & Hrec).
  framed same_engine Hget. rename Hframe into He2.
  case_bool_decide; [|done].
  apply bind_Ok_inv in Hrec as (created & w3 & Hcreated & Hrec).
  framed same_engine Hcreated. rename Hframe into He3.
  apply bind_Ok_inv in Hrec as ([] & w4 & [= <-] & Hrec).
  apply bind_Ok_inv in Hrec as (v & w5 & Hrun & [= <- <-]).
  destruct (Hcached _ _ Hrun) as (entry & ?).
  { unfold same_engine in *. cbn. congruence. }
  exists entry. tauto.
Qed.

(** X9: The dict [get_sandbox] returns describes the engine as it is at
    the call, not as the cache remembered it: its id, name and status are
    those of the container the engine holds under the id of the cached
    handle (the handle is reloaded first); and for each of the four roles
    it carries the project's host port, as the pair (internal, external)
    under [ports] and as a localhost URL under [urls]. The engine itself
    is not changed. *)
Theorem get_sandbox_reports_engine_state (pid : string) (w w' : World)
    (view : SandboxView) :
  get_sandbox pid w = (Ok view, w') →
  engine w' = engine w
  ∧ ∃ c entry,
      find_by_id (view_id view) (engine_containers (engine w)) = Some c
      ∧ view_name view = name c ∧ view_status view = status c
      ∧ containers w' !! pid = Some entry
      ∧ container entry = c
      ∧ ∀ role, role ∈ roles →
          ∃ p, ports entry !! role = Some p
               ∧ view_ports view !! role = Some (internal_port_of role, p)
               ∧ view_urls view !! role = Some (url_of role p).
Proof.
  intros H.
  apply get_sandbox_Ok_inv in H
    as (entry & Hentry & Hengine & Hfind & Hid & Hname & Hstatus & Hroles).
  split; [done|]. exists (container entry), entry. rewrite Hid.
  by split_and!.
Qed.

Lemma get_sandbox_reports_engine_state_witness :
  let r := get_sandbox "p1" Scenario.stopped in
  ∃ view,
    fst r = Ok view
    ∧ engine (snd r) = engine Scenario.stopped
    ∧ ∃ c entry,
        find_by_id (view_id view) (engine_containers (engine Scenario.stopped)) = Some c
        ∧ view_name view = name c ∧ view_status view = status c
        ∧ containers (snd r) !! "p1" = Some entry
        ∧ container entry = c
        ∧ ∀ role, role ∈ roles →
            ∃ p, ports entry !! role = Some p
                 ∧ view_ports view !! role = Some (internal_port_of role, p)
                 ∧ view_urls view !! role = Some (url_of role p).
Proof.
  intros r.
  assert (r = (fst r, snd r)) as Hr by (by destruct r).
  destruct (fst r) as [view| |] eqn:E;
    [|vm_compute in E; discriminate E|vm_compute in E; discriminate E].
  exists view. split; [done|].
  exact (get_sandbox_reports_engine_state "p1" Scenario.stopped (snd r) view Hr).
Defined.

(** ** [start_sandbox] *)

Lemma find_by_id_updated cid (f : Container → Container) cs c :
  (∀ x, id (f x) = id x) →
  find_by_id cid cs = Some c →
  find_by_id cid ((λ x, if bool_decide (id x = cid) then f x else x) <$> cs)
  = Some (f c).
Proof.
  intros Hf. unfold find_by_id.
  induction cs as [|x cs IH]; [done|]. cbn.
  destruct (decide (id x = cid)) as [Hx|Hx].
  - rewrite bool_decide_eq_true_2 by done. rewrite decide_True by (by rewrite Hf).
    cbn. by intros [= ->].
  - rewrite bool_decide_eq_false_2 by done. rewrite decide_False by done.
    destruct (list_find _ cs) as [[i y]|]; [|done]. cbn in *.
    intros [= ->].
    destruct (list_find _ (_ <$> cs)) as [[j z]|]; [|by specialize (IH eq_refl)].
    specialize (IH eq_refl). cbn in IH. by injection IH as ->.
Qed.

Lemma container_start_Ok c w u w' :
  container_start c w = (Ok u, w') →
  ∃ c0, find_by_id (id c) (engine_containers (engine w)) = Some c0
        ∧ find_by_id (id c) (engine_containers (engine w'))
          = Some (with_status "running" c0)
        ∧ same_manager w w'.
Proof.
  intros H. framed same_manager H. rename Hframe into Hm.
  unfold container_start in H.
  apply bind_Ok_inv in H as ([] & w1 & ->%engine_call_Ok_inv & H).
  apply bind_Ok_inv in H as ([] & w2 & Hknown & H).
  injection H as H. subst w'. unfold known in Hknown.
  apply bind_Ok_inv in Hknown as (cs & w3 & [= <- <-] & Hknown). fields.
  destruct (find_by_id _ _) as [c0|] eqn:Efind; [|done].
  injection Hknown as <-. exists c0. split_and!; [done| |done].
  cbn. by apply find_by_id_updated.
Qed.

Lemma start_sandbox_Ok_inv (pid : string) (w w' : World) :
  start_sandbox pid w = (Ok tt, w') →
  ∃ entry c,
    containers w' !! pid = Some entry
    ∧ find_by_id (id (container entry)) (engine_containers (engine w')) = Some c
    ∧ status c = "running".
Proof.
  unfold start_sandbox. intros H.
  apply bind_Ok_inv in H as (view & w1 & Hget & H).
  apply get_sandbox_Ok_inv in Hget as (entry & Hentry & He1 & Hfind & _).
  rewrite <- He1 in Hfind.
  apply bind_Ok_inv in H as (cs & w2 & [= <- <-] & H).
  apply bind_Ok_inv in H as (entry' & w2 & [Hentry' ->]%getitem_Ok_inv & H).
  rewrite Hentry in Hentry'. injection Hentry' as <-.
  exists entry. case_bool_decide as Hst.
  - apply bind_Ok_inv in H as ([] & w3 & Hstart & Hwait).
    apply container_start_Ok in Hstart as (c0 & _ & Hrun & [Hc3 _]).
    framed same_manager Hwait. destruct Hframe as [Hc _].
    framed same_engine Hwait. unfold same_engine in Hframe.
    exists (with_status "running" c0). rewrite Hc, Hc3, Hframe. by split_and!.
  - injection H as <-. exists (container entry). split_and!; [done|done|].
    by destruct (decide (status (container entry) = "running")).
Qed.

Lemma start_sandbox_same_port_manager pid :
  preserves same_port_manager (start_sandbox pid).
Proof. frame. Qed.

(** X10: When [start_sandbox] returns, the engine runs the project's
    container: the cache holds the project, and the container the engine
    holds under the id of the cached handle has status [running], whether
    the call found it running or had to start it. No port is allocated or
    released on the way. *)
Theorem start_sandbox_leaves_container_running (pid : string) (w w' : World) :
  start_sandbox pid w = (Ok tt, w') →
  port_manager w' = port_manager w
  ∧ ∃ entry c,
      containers w' !! pid = Some entry
      ∧ find_by_id (id (container entry)) (engine_containers (engine w')) = Some c
      ∧ status c = "running".
Proof.
  intros H. split.
  - by framed same_port_manager H.
  - by apply (start_sandbox_Ok_inv pid w w').
Qed.

Lemma start_sandbox_leaves_container_running_witness :
  let r := start_sandbox "p1" Scenario.stopped in
  fst r = Ok tt
  ∧ port_manager (snd r) = port_manager Scenario.stopped
  ∧ ∃ entry c,
      containers (snd r) !! "p1" = Some entry
      ∧ find_by_id (id (container entry)) (engine_containers (engine (snd r))) = Some c
      ∧ status c = "running".
Proof.
  intros r.
  assert (r = (fst r, snd r)) as Hr by (by destruct r).
  assert (fst r = Ok tt) as E by (vm_compute; reflexivity).
  split; [exact E|]. rewrite E in Hr.
  exact (start_sandbox_leaves_container_running "p1" Scenario.stopped (snd r) Hr).
Defined.

(** ** A cache entry that lacks a role *)

(** The calls of the second half of [get_sandbox] that come before the
    URLs are built raise engine errors or [ValueError], never [KeyError]. *)

Lemma engine_call_raises ev w e w' :
  engine_call ev w = (Raise e, w') → not_KeyError e.
Proof. unfold engine_call. destruct (fault _ _); [|done]. by intros [= <- _]. Qed.

Lemma containers_get_raises nm w e w' :
  containers_get nm w = (Raise e, w') → not_KeyError e.
Proof.
  unfold containers_get. intros H.
  apply bind_Raise_inv in H as [H|([] & w1 & _ & H)]; [by eapply engine_call_raises|].
  apply bind_Raise_inv in H as [H|(cs & w2 & _ & H)]; [done|].
  destruct (find_by_name _ _); [done|]. by injection H as <- _.
Qed.

Lemma reload_raises c w e w' : reload c w = (Raise e, w') → not_KeyError e.
Proof.
  unfold reload. intros H.
  apply bind_Raise_inv in H as [H|([] & w1 & _ & H)]; [by eapply engine_call_raises|].
  apply bind_Raise_inv in H as [H|(cs & w2 & _ & H)]; [done|].
  destruct (find_by_id _ _); [done|]. by injection H as <- _.
Qed.

Lemma recovered_created_at_raises c w e w' :
  recovered_created_at c w = (Raise e, w') → not_KeyError e.
Proof.
  unfold recovered_created_at. intros H.
  apply bind_Raise_inv in H as [H|(now & w1 & _ & H)]; [done|].
  apply bind_Raise_inv in H as [H|(en & w2 & _ & H)]; [done|].
  destruct (fromisoformat _ _); [done|]. by injection H as <- _.
Qed.

Lemma generate_service_urls_KeyError ports w k w' :
  _generate_service_urls ports w = (Raise (KeyError k), w') →
  k ∈ roles ∧ ports !! k = None ∧ w' = w.
Proof.
  unfold _generate_service_urls, getitem. intros H.
  destruct (ports !! "vnc") eqn:E1;
    [|injection H as <- <-; split_and!; [by repeat constructor|done|done]].
  rewrite run_bind in H. cbn [mret M_ret] in H.
  destruct (ports !! "novnc") eqn:E2;
    [|injection H as <- <-; split_and!; [by repeat constructor|done|done]].
  rewrite run_bind in H. cbn [mret M_ret] in H.
  destruct (ports !! "browser_api") eqn:E3;
    [|injection H as <- <-; split_and!; [by repeat constructor|done|done]].
  rewrite run_bind in H. cbn [mret M_ret] in H.
  destruct (ports !! "file_server") eqn:E4;
    [|injection H as <- <-; split_and!; [by repeat constructor|done|done]].
  done.
Qed.

Lemma get_sandbox_cached_KeyError pid info w k w' :
  get_sandbox_cached pid info w = (Raise (KeyError k), w') →
  k ∈ roles ∧ ports info !! k = None
  ∧ ∃ c, containers w' = <[pid := with_container c info]> (containers w).
Proof.
  unfold get_sandbox_cached. intros H.
  apply bind_Raise_inv in H as [H|(c & w1 & Hreload & H)].
  { by apply reload_raises in H. }
  framed same_manager Hreload. destruct Hframe as [Hc1 _].
  apply bind_Raise_inv in H as [H|([] & w2 & [= <-] & H)]; [done|].
  apply bind_Raise_inv in H as [H|(en & w3 & [= <- <-] & H)]; [done|].
  apply bind_Raise_inv in H as [H|(urls & w4 & _ & H)]; [|done].
  apply generate_service_urls_KeyError in H as (Hk & Hnone & ->).
  split_and!; [done|done|]. exists c. cbn. by rewrite Hc1.
Qed.

(** X11: A recovery that fails on a missing port poisons the cache. When
    [get_sandbox] misses the cache and raises [KeyError], the key is one of
    the four roles, and the entry it rebuilt from the engine's container,
    whose ports lack that role, is in the cache all the same; and from any
    world whose cache holds that entry, [get_sandbox] of the project never
    returns. *)
Theorem failed_recovery_poisons_cache (pid k : string) (w w1 : World) :
  containers w !! pid = None →
  get_sandbox pid w = (Raise (KeyError k), w1) →
  k ∈ roles
  ∧ ∃ info,
      containers w1 !! pid = Some info
      ∧ ports info !! k = None
      ∧ ∀ w2 view w3,
          containers w2 !! pid = Some info →
          get_sandbox pid w2 ≠ (Ok view, w3).
Proof.
  intros Hmiss H. unfold get_sandbox in H.
  apply bind_Raise_inv in H as [H|(cs & w0 & [= <- <-] & H)]; [done|].
  rewrite Hmiss in H.
  apply bind_Raise_inv in H as [H|(r & w2 & _ & H)]; [|by destruct r].
  unfold get_sandbox_recover in H. rewrite run_try in H.
  destruct (_ ≫= _) as [[r|e|] w2] eqn:Hbody in H; [done| |done].
  destruct (is_DockerNotFound e) eqn:Enf; [done|]. injection H as -> ->.
  apply bind_Raise_inv in Hbody as [Hbody|(c & w3 & _ & Hbody)].
  { by apply containers_get_raises in Hbody. }
  case_bool_decide; [|done].
  apply bind_Raise_inv in Hbody as [Hbody|(created & w4 & _ & Hbody)].
  { by apply recovered_created_at_raises in Hbody. }
  apply bind_Raise_inv in Hbody as [Hbody|([] & w5 & [= <-] & Hbody)]; [done|].
  apply bind_Raise_inv in Hbody as [Hbody|(v & w6 & _ & Hbody)]; [|done].
  apply get_sandbox_cached_KeyError in Hbody as (Hk & Hnone & c' & Hc).
  cbn [Manager.ports] in Hnone.
  split; [done|]. eexists. rewrite Hc, lookup_insert_eq.
  split; [reflexivity|]. unfold with_container. cbn [Manager.ports container].
  split; [done|].
  intros w2' view w3' Hinfo Hget. unfold get_sandbox in Hget.
  apply bind_Ok_inv in Hget as (cs & w0 & [= <- <-] & Hget).
  rewrite Hinfo in Hget.
  apply get_sandbox_cached_view in Hget as (_ & _ & _ & _ & _ & _ & _ & _ & Hroles).
  destruct (Hroles k Hk) as (p & Hp & _). cbn [Manager.ports] in Hp. congruence.
Qed.

Lemma failed_recovery_poisons_cache_witness :
  let w1 := snd (get_sandbox "p4" Cases.restarted_exited) in
  "vnc" ∈ roles
  ∧ ∃ info,
      containers w1 !! "p4" = Some info
      ∧ ports info !! "vnc" = None
      ∧ ∀ w2 view w3,
          containers w2 !! "p4" = Some info →
          get_sandbox "p4" w2 ≠ (Ok view, w3).
Proof.
  intros w1.
  apply (failed_recovery_poisons_cache "p4" "vnc" Cases.restarted_exited w1).
  - reflexivity.
  - vm_compute. reflexivity.
Defined.

(** ** [cleanup_expired_sandboxes] and timestamps with an offset *)

Lemma collect_expired_same_engine now cs expired :
  preserves same_engine (collect_expired now cs expired).
Proof.
  revert expired. induction cs as [|c cs IH]; intros expired; cbn [collect_expired].
  { frame. }
  destruct (labels c !! "suna.auto_stop_at"); [|apply IH].
  case_bool_decide; [|apply IH].
  apply (preserves_bind same_engine); [frame|intros e].
  destruct (fromisoformat e _).
  - apply (preserves_bind same_engine); [frame|intros [|]]; [|apply IH].
    destruct (labels c !! "suna.project_id"); [|apply IH].
    case_bool_decide; apply IH.
  - apply (preserves_bind same_engine); [frame|intros; apply IH].
Qed.

(** The first loop of the sweep stops with [TypeError] as soon as it
    meets a label that carries an offset: [datetime.now()] is naive. *)
Lemma collect_expired_aware (e : Env) (t0 : Z) (cs : list Container) :
  ∀ (expired : list string) (w : World),
    env w = e →
    (∃ c, c ∈ cs ∧ aware_label e c) →
    ∃ w', collect_expired (Naive t0) cs expired w
          = (Raise (TypeError "can't compare offset-naive and offset-aware datetimes"),
             w').
Proof.
  induction cs as [|c0 cs IH]; intros expired w He (c & Hin & Haware).
  { by apply elem_of_nil in Hin. }
  assert (∀ expired' w', env w' = e → c0 ≠ c →
            ∃ w'', collect_expired (Naive t0) cs expired' w'
                   = (Raise (TypeError
                        "can't compare offset-naive and offset-aware datetimes"),
                      w'')) as Hrest.
  { intros expired' w' He' Hne. apply IH; [done|]. exists c.
    apply elem_of_cons in Hin as [->|Hin]; [done|]. by split. }
  assert (c0 = c → aware_label e c0) as Hhead by (by intros ->).
  clear Hin IH. cbn [collect_expired].
  destruct (labels c0 !! "suna.auto_stop_at") as [s0|] eqn:Elabel.
  2:{ apply Hrest; [done|]. intros Heq. destruct (Hhead Heq) as (s & t & Hs & _).
      congruence. }
  case_bool_decide as Hs0.
  2:{ apply Hrest; [done|]. intros Heq. destruct (Hhead Heq) as (s & t & Hs & Hne & _).
      congruence. }
  rewrite run_bind. cbn [gets]. rewrite He.
  destruct (fromisoformat e s0) as [[x|x]|] eqn:Eparse.
  - assert (c0 ≠ c) as Hne.
    { intros Heq. destruct (Hhead Heq) as (s & t & Hs & _ & Hp). congruence. }
    rewrite run_bind. cbn [datetime_gt mret M_ret].
    destruct (bool_decide (t0 > x)); [|by apply Hrest].
    destruct (labels c0 !! "suna.project_id"); [|by apply Hrest].
    case_bool_decide; by apply Hrest.
  - rewrite run_bind. cbn [datetime_gt raise]. by eexists.
  - assert (c0 ≠ c) as Hne.
    { intros Heq. destruct (Hhead Heq) as (s & t & Hs & _ & Hp). congruence. }
    rewrite run_bind. cbn [logger modify]. by apply Hrest.
Qed.

(** X12: One label with a UTC offset stops the whole sweep. If the engine
    answers the list call and any listed container has a
    [suna.auto_stop_at] label that parses to a timestamp with an offset,
    [cleanup_expired_sandboxes] raises [TypeError] (the comparison with
    the naive [datetime.now()] is outside the [except ValueError]) before
    it deletes anything: the cache, the port manager and the engine are
    untouched, whatever else has expired. *)
Theorem cleanup_aborts_on_offset_timestamp (w : World) (c : Container) :
  fault (env w) (EvList "suna.auto_stop_at" :: history w) = None →
  c ∈ engine_containers (engine w) →
  aware_label (env w) c →
  fst (cleanup_expired_sandboxes w)
  = Raise (TypeError "can't compare offset-naive and offset-aware datetimes")
  ∧ containers (snd (cleanup_expired_sandboxes w)) = containers w
  ∧ port_manager (snd (cleanup_expired_sandboxes w)) = port_manager w
  ∧ engine (snd (cleanup_expired_sandboxes w)) = engine w.
Proof.
  intros Hfault Hin Haware. unfold cleanup_expired_sandboxes.
  rewrite run_bind. cbn [datetime_now gets]. rewrite run_bind.
  unfold containers_list. rewrite run_bind. unfold engine_call. rewrite Hfault.
  rewrite run_bind. cbn [gets mret M_ret]. fields.
  set (w1 := set_history _ w).
  set (cs := filter _ _).
  destruct (collect_expired_aware (env w) (clock w) cs [] w1 eq_refl) as [w' Hrun].
  { exists c. split; [|done]. apply list_elem_of_filter. split; [|done].
    destruct Haware as (s & t & -> & _). by eexists. }
  rewrite run_bind, Hrun. cbn [fst snd].
  pose proof (collect_expired_same_manager (Naive (clock w)) cs [] w1) as [Hc Hpm].
  pose proof (collect_expired_same_engine (Naive (clock w)) cs [] w1) as He.
  rewrite Hrun in Hc, Hpm, He. unfold same_engine in He. cbn in Hc, Hpm, He.
  by split_and!.
Qed.

Lemma cleanup_aborts_on_offset_timestamp_witness :
  let w := Cases.with_offset_label in
  let w' := snd (cleanup_expired_sandboxes w) in
  fst (cleanup_expired_sandboxes w)
  = Raise (TypeError "can't compare offset-naive and offset-aware datetimes")
  ∧ containers w' = containers w
  ∧ port_manager w' = port_manager w
  ∧ engine w' = engine w.
Proof.
  apply (cleanup_aborts_on_offset_timestamp Cases.with_offset_label
           Cases.offset_container).
  - reflexivity.
  - apply elem_of_app. right. by left.
  - exists "2024-01-02T00:00:00+00:00", 1704153600000000.
    split_and!; [vm_compute; reflexivity|discriminate|reflexivity].
Defined.

End LifecycleFacts.

(* ===================================================================== *)
(** * Properties of the listing                                           *)
(* ===================================================================== *)

Module ListingFacts.
Import Ports Engine Manager Props CallFacts PortFacts ManagerFacts.
Import Notions LifecycleFacts ManagerListing.

#[export] Instance same_workspaces_preorder : PreOrder same_workspaces.
Proof. split; [by intros w|]. unfold same_workspaces. intros ???; congruence. Qed.

Lemma engine_call_same_workspaces ev : preserves same_workspaces (engine_call ev).
Proof. intros w. unfold engine_call. destruct (fault _ _); related. Qed.

Lemma exec_run_same_workspaces c cmd wd : preserves same_workspaces (exec_run c cmd wd).
Proof. intros w. related. Qed.

Lemma sleep_same_workspaces n : preserves same_workspaces (sleep n).
Proof. intros w. related. Qed.

#[export] Hint Resolve engine_call_same_workspaces exec_run_same_workspaces
  sleep_same_workspaces : frame.

Lemma wait_same_workspaces c timeout :
  preserves same_workspaces (_wait_for_services c timeout).
Proof. apply (wait_for_services_preserves same_workspaces); intros; frame. Qed.

#[export] Hint Resolve wait_same_workspaces : frame.

(** ** The dict of [list_sandboxes] *)

Lemma dict_set_elem {V} (k : string) (v : V) (d : list (string * V)) (x : string * V) :
  x ∈ dict_set k v d → x = (k, v) ∨ x ∈ d.
Proof.
  induction d as [|[k' v'] d IH]; cbn.
  - intros ->%list_elem_of_singleton. by left.
  - case_bool_decide.
    + intros [->|Hx]%elem_of_cons; [by left|]. right. by right.
    + intros [->|Hx]%elem_of_cons; [right; by left|].
      destruct (IH Hx); [by left|]. right. by right.
Qed.

Lemma dict_set_keys {V} (k : string) (v : V) (d : list (string * V)) (k' : string) :
  k' ∈ (dict_set k v d).*1 → k' = k ∨ k' ∈ d.*1.
Proof.
  intros ([k0 v0] & -> & [[= -> ->]|Hin]%dict_set_elem)%list_elem_of_fmap; [by left|].
  right. apply list_elem_of_fmap. by exists (k0, v0).
Qed.

Lemma dict_set_NoDup {V} (k : string) (v : V) (d : list (string * V)) :
  NoDup d.*1 → NoDup (dict_set k v d).*1.
Proof.
  induction d as [|[k' v'] d IH]; cbn.
  - intros _. apply NoDup_singleton.
  - intros [Hk' Hd]%NoDup_cons. case_bool_decide as Heq; cbn.
    + subst k'. by apply NoDup_cons.
    + apply NoDup_cons. split; [|by apply IH].
      intros [->|Hin]%dict_set_keys; [done|]. by apply Hk'.
Qed.

Lemma get_sandbox_same_workspaces pid : preserves same_workspaces (get_sandbox pid).
Proof. frame. Qed.

Lemma list_sandboxes_loop_spec (w0 : World) (all : list Container) (cs : list Container) :
  ∀ (acc : list (string * SandboxView)) (w : World),
    engine w = engine w0 → port_manager w = port_manager w0 →
    workspaces_cache w = workspaces_cache w0 →
    (∀ c, c ∈ cs → c ∈ all) →
    NoDup acc.*1 → Forall (listed w0 all) acc →
    ∃ l w', list_sandboxes_loop cs acc w = (Ok l, w')
            ∧ engine w' = engine w0 ∧ port_manager w' = port_manager w0
            ∧ workspaces_cache w' = workspaces_cache w0
            ∧ NoDup l.*1 ∧ Forall (listed w0 all) l.
Proof.
  induction cs as [|c cs IH]; intros acc w He Hpm Hws Hsub Hnodup Hacc;
    cbn [list_sandboxes_loop].
  { by exists acc, w. }
  assert (∀ c, c ∈ cs → c ∈ all) as Hsub' by (intros c' Hc'; apply Hsub; by right).
  destruct (labels c !! "suna.project_id") as [pid|] eqn:Elabel; [|by apply IH].
  case_bool_decide; [|by apply IH].
  rewrite run_bind, run_try, run_bind.
  pose proof (get_sandbox_total pid w) as Htotal.
  pose proof (get_sandbox_same_engine pid w) as He1.
  pose proof (get_sandbox_same_port_manager pid w) as Hpm1.
  pose proof (get_sandbox_same_workspaces pid w) as Hws1.
  destruct (get_sandbox pid w) as [[view|e|] w1] eqn:Hget; [| |done].
  - unfold same_engine, same_port_manager, same_workspaces in *.
    cbn in He1, Hpm1, Hws1.
    cbn [mret M_ret]. apply IH; [congruence|congruence|congruence|done| |].
    + by apply dict_set_NoDup.
    + apply Forall_forall. intros x [->|Hx]%dict_set_elem.
      * apply get_sandbox_Ok_inv in Hget
          as (entry & _ & _ & Hfind & Hid & Hname & Hstatus & _).
        split; cbn.
        -- exists c. split; [apply Hsub; by left|done].
        -- exists (container entry). rewrite Hid, <- He. by split_and!.
      * rewrite Forall_forall in Hacc. by apply Hacc.
  - unfold same_engine, same_port_manager, same_workspaces in *.
    cbn in He1, Hpm1, Hws1.
    cbn [logger modify]. rewrite run_bind. cbn [mret M_ret].
    apply IH; [cbn; congruence|cbn; congruence|cbn; congruence|done|done|done].
Qed.

(** [list_sandboxes], by cases on how it ends. *)
Lemma list_sandboxes_cases (w : World) :
  match list_sandboxes w with
  | (Ok l, w') =>
      engine w' = engine w ∧ port_manager w' = port_manager w
      ∧ workspaces_cache w' = workspaces_cache w
      ∧ NoDup l.*1
      ∧ Forall (listed w (engine_containers (engine w))) l
  | (Raise e, w') =>
      workspaces_cache w' = workspaces_cache w
      ∧ ∃ msg, fault (env w) (EvList "suna.project_id" :: history w) = Some msg
               ∧ e = DockerAPIError msg
  | (OutOfFuel, _) => False
  end.
Proof.
  unfold list_sandboxes, containers_list. rewrite !run_bind. unfold engine_call.
  destruct (fault _ _) as [msg|] eqn:Hfault; [split; [done|by exists msg]|].
  rewrite run_bind. cbn [gets mret M_ret]. fields.
  set (w1 := set_history _ w).
  destruct (list_sandboxes_loop_spec w (engine_containers (engine w))
              (filter (λ c, is_Some (labels c !! "suna.project_id"))
                 (engine_containers (engine w))) [] w1)
    as (l & w' & -> & He & Hpm & Hws & Hnodup & Hl);
    [done|done|done| |apply NoDup_nil_2|done|].
  { by intros c [_ ?]%list_elem_of_filter. }
  by split_and!.
Qed.

(** X13: [list_sandboxes] raises only when the engine's list call itself
    fails; a project whose lookup fails is logged and left out. The dict
    it returns has each project at most once; every project in it is the
    label of a container the engine holds, and its dict shows the name and
    the status of the container the engine holds under the dict's id. The
    listing changes neither the engine nor the port manager. *)
Theorem list_sandboxes_lists_engine_sandboxes (w : World) :
  match list_sandboxes w with
  | (Ok l, w') =>
      engine w' = engine w ∧ port_manager w' = port_manager w
      ∧ NoDup l.*1
      ∧ ∀ pid view, (pid, view) ∈ l →
          (∃ c, c ∈ engine_containers (engine w)
                ∧ labels c !! "suna.project_id" = Some pid)
          ∧ ∃ c', find_by_id (view_id view) (engine_containers (engine w)) = Some c'
                  ∧ view_name view = name c' ∧ view_status view = status c'
  | (Raise e, w') =>
      ∃ msg, fault (env w) (EvList "suna.project_id" :: history w) = Some msg
             ∧ e = DockerAPIError msg
  | (OutOfFuel, _) => False
  end.
Proof.
  pose proof (list_sandboxes_cases w) as H.
  destruct (list_sandboxes w) as [[l|e|] w']; [|by destruct H|done].
  destruct H as (He & Hpm & _ & Hnodup & Hl).
  split_and!; [done|done|done|].
  intros pid view Hin. rewrite Forall_forall in Hl. exact (Hl _ Hin).
Qed.

End ListingFacts.

(* ===================================================================== *)
(** * Properties of the adapter's lifecycle calls                         *)
(* ===================================================================== *)

Module AdapterLifecycleFacts.
Import Ports Engine Manager Adapter Props CallFacts PortFacts ManagerFacts AdapterFacts.
Import Notions LifecycleFacts ManagerListing ListingFacts AdapterLifecycle.

(** ** [delete_workspace] *)

Lemma delete_sandbox_Raise pid w e w' :
  delete_sandbox pid w = (Raise e, w') → same_manager w w'.
Proof.
  unfold delete_sandbox. intros H.
  apply bind_Raise_inv in H as [H|(cs & w0 & [= <- <-] & H)]; [done|].
  destruct (containers w !! pid) as [info|]; [|by injection H as _ <-].
  apply bind_Raise_inv in H as [H|([] & w1 & _ & H)].
  - by framed same_manager H.
  - apply bind_Raise_inv in H as [H|([] & w2 & _ & H)]; done.
Qed.

Lemma delete_sandbox_same_workspaces pid : preserves same_workspaces (delete_sandbox pid).
Proof. frame. Qed.

Lemma delete_sandbox_total pid : total (delete_sandbox pid).
Proof. total. Qed.

(** X14: [delete_workspace] never raises, and its answer tells what
    happened. [True]: the project was in the manager's cache and is now in
    neither cache, its ports are released and its container is gone from
    the engine. [False]: the manager's cache, the port manager and the
    adapter's cache are exactly what they were. *)
Theorem delete_workspace_tells_the_truth (pid : string) (w : World) :
  ∃ (b : bool) (w' : World),
    delete_workspace pid w = (Ok b, w')
    ∧ if b then
        containers w' !! pid = None ∧ workspaces_cache w' !! pid = None
        ∧ ∃ info,
            containers w !! pid = Some info
            ∧ port_manager w' = release_ports (ports info) (port_manager w)
            ∧ find_by_id (id (container info)) (engine_containers (engine w')) = None
      else
        containers w' = containers w ∧ port_manager w' = port_manager w
        ∧ workspaces_cache w' = workspaces_cache w.
Proof.
  unfold delete_workspace. rewrite run_try, run_bind.
  pose proof (delete_sandbox_total pid w) as Htotal.
  pose proof (delete_sandbox_same_workspaces pid w) as Hws.
  destruct (delete_sandbox pid w) as [[[]|e|] w1] eqn:Hdel; [| |done].
  - apply delete_sandbox_Ok_inv in Hdel as (info & Hinfo & Hc & Hpm & Hgone & _).
    eexists true, _. split; [reflexivity|]. fields.
    rewrite Hc. split_and!; [apply lookup_delete_eq|apply lookup_delete_eq|].
    by exists info.
  - apply delete_sandbox_Raise in Hdel as [Hc Hpm].
    eexists false, _. split; [reflexivity|]. by fields.
Qed.

(** ** [start_workspace] and [stop_workspace] *)

Lemma refresh_cached_Ok pid w u w' :
  refresh_cached pid w = (Ok u, w') →
  is_Some (workspaces_cache w !! pid) →
  ∃ view w1,
    get_sandbox pid w = (Ok view, w1)
    ∧ workspaces_cache w' !! pid = Some (LocalWorkspace_init pid view).
Proof.
  unfold refresh_cached. intros H Hin.
  apply bind_Ok_inv in H as (cache & w0 & [= <- <-] & H).
  rewrite bool_decide_eq_true_2 in H by done.
  apply bind_Ok_inv in H as (view & w1 & Hget & H).
  injection H as H. subst w'. exists view, w1. split; [done|].
  cbn. apply lookup_insert_eq.
Qed.

Lemma container_stop_Ok c w u w' :
  container_stop c w = (Ok u, w') →
  ∃ c0, find_by_id (id c) (engine_containers (engine w')) = Some (with_status "exited" c0)
        ∧ same_manager w w' ∧ same_workspaces w w'.
Proof.
  intros H. framed same_manager H. rename Hframe into Hm.
  framed same_workspaces H. rename Hframe into Hws.
  unfold container_stop in H.
  apply bind_Ok_inv in H as ([] & w1 & ->%engine_call_Ok_inv & H).
  apply bind_Ok_inv in H as ([] & w2 & Hknown & H).
  injection H as H. subst w'. unfold known in Hknown.
  apply bind_Ok_inv in Hknown as (cs & w3 & [= <- <-] & Hknown). fields.
  destruct (find_by_id _ _) as [c0|] eqn:Efind; [|done].
  injection Hknown as <-. exists c0. split_and!; [|done|done].
  cbn. by apply find_by_id_updated.
Qed.

Lemma start_sandbox_same_workspaces pid : preserves same_workspaces (start_sandbox pid).
Proof. frame. Qed.

(** The status [get_sandbox] reports for a cached project is that of the
    container the engine holds under the id of the cached handle. *)
Lemma get_sandbox_cached_status pid w view w' info c :
  containers w !! pid = Some info →
  find_by_id (id (container info)) (engine_containers (engine w)) = Some c →
  get_sandbox pid w = (Ok view, w') →
  view_status view = status c.
Proof.
  intros Hinfo Hfind H. unfold get_sandbox in H.
  apply bind_Ok_inv in H as (cs & w0 & [= <- <-] & H). rewrite Hinfo in H.
  apply get_sandbox_cached_view in H as (c' & Hfind' & _ & _ & _ & _ & Hstatus & _).
  congruence.
Qed.

(** X15: After [start_workspace] or [stop_workspace] answered [True], a
    project that was in the adapter's cache is there with a fresh status:
    [running] after a start, [exited] after a stop. *)
Theorem workspace_cache_follows_start_and_stop (pid : string) (w w1 w2 : World) :
  is_Some (workspaces_cache w !! pid) →
  (start_workspace pid w = (Ok true, w1) →
   ∃ ws, workspaces_cache w1 !! pid = Some ws ∧ ws_status ws = "running")
  ∧ (stop_workspace pid w = (Ok true, w2) →
     ∃ ws, workspaces_cache w2 !! pid = Some ws ∧ ws_status ws = "exited").
Proof.
  intros Hcached. split; intros H.
  - unfold start_workspace in H.
    apply try_Ok_inv in H as [H|(e & w3 & _ & H)]; [|done].
    apply bind_Ok_inv in H as ([] & w3 & Hstart & H).
    framed same_workspaces Hstart. unfold same_workspaces in Hframe.
    apply start_sandbox_Ok_inv in Hstart as (entry & c & Hentry & Hfind & Hrun).
    apply bind_Ok_inv in H as ([] & w4 & Hrefresh & H). injection H as <-.
    apply refresh_cached_Ok in Hrefresh as (view & w5 & Hget & Hws);
      [|by rewrite Hframe].
    eexists. split; [exact Hws|]. cbn [LocalWorkspace_init ws_status].
    rewrite <- Hrun. by eapply get_sandbox_cached_status.
  - unfold stop_workspace in H.
    apply try_Ok_inv in H as [H|(e & w3 & _ & H)]; [|done].
    apply bind_Ok_inv in H as ([] & w3 & Hstop & H).
    unfold stop_sandbox in Hstop.
    apply bind_Ok_inv in Hstop as (cs & w0 & [= <- <-] & Hstop).
    destruct (containers w !! pid) as [info|] eqn:Hinfo; [|done].
    apply container_stop_Ok in Hstop as (c0 & Hfind & [Hc _] & Hframe).
    unfold same_workspaces in Hframe.
    apply bind_Ok_inv in H as ([] & w4 & Hrefresh & H). injection H as <-.
    apply refresh_cached_Ok in Hrefresh as (view & w5 & Hget & Hws);
      [|by rewrite Hframe].
    eexists. split; [exact Hws|]. cbn [LocalWorkspace_init ws_status].
    rewrite (get_sandbox_cached_status pid w3 view w5 info (with_status "exited" c0));
      [done|by rewrite Hc|done|done].
Qed.

Lemma workspace_cache_follows_start_and_stop_witness :
  let w := snd (get_workspace "p1" Scenario.created) in
  (∃ ws, workspaces_cache (snd (start_workspace "p1" w)) !! "p1" = Some ws
         ∧ ws_status ws = "running")
  ∧ (∃ ws, workspaces_cache (snd (stop_workspace "p1" w)) !! "p1" = Some ws
           ∧ ws_status ws = "exited").
Proof.
  intros w.
  assert (is_Some (workspaces_cache w !! "p1")) as Hcached
    by (vm_compute; by eexists).
  assert (fst (start_workspace "p1" w) = Ok true) as E1 by (vm_compute; reflexivity).
  assert (fst (stop_workspace "p1" w) = Ok true) as E2 by (vm_compute; reflexivity).
  destruct (workspace_cache_follows_start_and_stop "p1" w
              (snd (start_workspace "p1" w)) (snd (stop_workspace "p1" w)) Hcached)
    as [H1 H2].
  split; [apply H1|apply H2].
  - rewrite <- E1. by destruct (start_workspace "p1" w).
  - rewrite <- E2. by destruct (stop_workspace "p1" w).
Defined.

(** ** [create_workspace] *)

(** X16: When [create_workspace] returns a workspace, the project had no
    sandbox in the manager's cache, the workspace is the one now cached
    under the project, and for each of the four roles its [ports] and
    [urls] carry the host port [allocate_ports] handed out. *)
Theorem create_workspace_serves_allocated_ports (pid : string) (kwargs : Kwargs)
    (w w' : World) (ws : LocalWorkspace) :
  create_workspace pid kwargs w = (Ok ws, w') →
  containers w !! pid = None
  ∧ workspaces_cache w' !! pid = Some ws
  ∧ ws_project_id ws = pid
  ∧ ∃ ports,
      allocate_ports pid (port_manager w) = (Ok ports, port_manager w')
      ∧ ∀ role, role ∈ roles →
          ∃ p, ports !! role = Some p
               ∧ ws_ports ws !! role = Some (internal_port_of role, p)
               ∧ ws_urls ws !! role = Some (url_of role p).
Proof.
  unfold create_workspace. intros H.
  apply try_Ok_inv in H as [H|(e & w3 & _ & H)]; [|done].
  apply bind_Ok_inv in H as (cid & w1 & Hcreate & H).
  apply bind_Ok_inv in H as (view & w2 & Hget & H).
  injection H as <- <-.
  apply create_sandbox_Ok_inv in Hcreate
    as (ports & pm1 & c & w0 & Hmiss & Halloc & Hlaunch & -> & ->).
  framed same_manager Hlaunch. destruct Hframe as [_ Hpm]. fields.
  framed same_port_manager Hget. unfold same_port_manager in Hframe. fields.
  unfold get_sandbox in Hget.
  apply bind_Ok_inv in Hget as (cs & w4 & [= <- <-] & Hget). fields.
  rewrite lookup_insert_eq in Hget.
  apply get_sandbox_cached_view in Hget as (c' & _ & _ & _ & _ & _ & _ & _ & Hroles).
  cbn [Manager.ports] in Hroles.
  split_and!; [done|cbn; apply lookup_insert_eq|done|].
  exists ports. fields. rewrite Hframe, Hpm. split; [done|].
  intros role Hrole. destruct (Hroles role Hrole) as (p & Hp & Hports & Hurls).
  by exists p.
Qed.

Lemma create_workspace_serves_allocated_ports_witness :
  let r := create_workspace "p1" no_kwargs Scenario.fresh in
  ∃ ws,
    fst r = Ok ws
    ∧ containers Scenario.fresh !! "p1" = None
    ∧ workspaces_cache (snd r) !! "p1" = Some ws
    ∧ ws_project_id ws = "p1"
    ∧ ∃ ports,
        allocate_ports "p1" (port_manager Scenario.fresh)
        = (Ok ports, port_manager (snd r))
        ∧ ∀ role, role ∈ roles →
            ∃ p, ports !! role = Some p
                 ∧ ws_ports ws !! role = Some (internal_port_of role, p)
                 ∧ ws_urls ws !! role = Some (url_of role p).
Proof.
  intros r.
  assert (r = (fst r, snd r)) as Hr by (by destruct r).
  destruct (fst r) as [ws| |] eqn:E;
    [|vm_compute in E; discriminate E|vm_compute in E; discriminate E].
  exists ws. split; [done|].
  exact (create_workspace_serves_allocated_ports "p1" no_kwargs Scenario.fresh
           (snd r) ws Hr).
Defined.

(** ** [list_workspaces] *)

Lemma list_workspaces_loop_spec (sandboxes : list (string * SandboxView)) :
  ∀ (acc : list LocalWorkspace) (w : World),
    NoDup sandboxes.*1 →
    ∃ w', list_workspaces_loop sandboxes acc w
          = (Ok (acc ++ ((λ kv, LocalWorkspace_init kv.1 kv.2) <$> sandboxes)), w')
          ∧ (∀ pid view, (pid, view) ∈ sandboxes →
               workspaces_cache w' !! pid = Some (LocalWorkspace_init pid view))
          ∧ (∀ pid, pid ∉ sandboxes.*1 →
               workspaces_cache w' !! pid = workspaces_cache w !! pid).
Proof.
  induction sandboxes as [|[pid view] rest IH]; intros acc w Hnodup;
    cbn [list_workspaces_loop].
  { exists w. rewrite app_nil_r. split_and!; [done| |done]. by intros ?? ?%elem_of_nil. }
  apply NoDup_cons in Hnodup as [Hfresh Hnodup].
  rewrite run_bind. cbn [modify fst snd].
  destruct (IH (acc ++ [LocalWorkspace_init pid view])
              (set_workspaces_cache (<[pid := LocalWorkspace_init pid view]>) w) Hnodup)
    as (w' & -> & Hin & Hout).
  exists w'. rewrite <- (assoc_L (++)). split_and!; [done| |].
  - intros pid' view' [[= -> ->]|Hrest]%elem_of_cons.
    + rewrite Hout by done. cbn. apply lookup_insert_eq.
    + by apply Hin.
  - intros pid' [Hne Hnot]%not_elem_of_cons. rewrite Hout by done. cbn.
    by apply lookup_insert_ne.
Qed.

(** X17: [list_workspaces] never raises. The workspaces it returns are of
    distinct projects, each the label of a container the engine holds, and
    each is afterwards the cache's entry for its project. No other entry of
    the cache changes: a workspace whose sandbox is gone stays cached. *)
Theorem list_workspaces_caches_what_it_lists (w : World) :
  ∃ (l : list LocalWorkspace) (w' : World),
    list_workspaces w = (Ok l, w')
    ∧ NoDup (ws_project_id <$> l)
    ∧ (∀ ws, ws ∈ l →
         workspaces_cache w' !! ws_project_id ws = Some ws
         ∧ ∃ c, c ∈ engine_containers (engine w)
                ∧ labels c !! "suna.project_id" = Some (ws_project_id ws))
    ∧ (∀ pid, pid ∉ ws_project_id <$> l →
         workspaces_cache w' !! pid = workspaces_cache w !! pid).
Proof.
  unfold list_workspaces. rewrite run_try, run_bind.
  pose proof (list_sandboxes_cases w) as H.
  destruct (list_sandboxes w) as [[sandboxes|e|] w1]; [| |done].
  - destruct H as (_ & _ & Hws & Hnodup & Hlisted).
    destruct (list_workspaces_loop_spec sandboxes [] w1 Hnodup)
      as (w' & -> & Hin & Hout).
    assert (ws_project_id <$> ((λ kv, LocalWorkspace_init kv.1 kv.2) <$> sandboxes)
            = sandboxes.*1) as Hkeys.
    { rewrite <- list_fmap_compose. by apply list_fmap_ext. }
    eexists _, _. split; [reflexivity|]. cbn [app]. rewrite Hkeys.
    split_and!; [done| |].
    + intros ws ([pid view] & -> & Hmem)%list_elem_of_fmap. cbn. split; [by apply Hin|].
      rewrite Forall_forall in Hlisted. by destruct (Hlisted _ Hmem) as [Hc _].
    + intros pid Hnot. rewrite Hout by done. by rewrite Hws.
  - destruct H as [Hws _].
    eexists [], _. split; [reflexivity|]. fields.
    split_and!; [apply NoDup_nil_2| |by intros; rewrite Hws].
    by intros ws ?%elem_of_nil.
Qed.

End AdapterLifecycleFacts.

(* ===================================================================== *)
(** * Properties of the health check                                      *)
(* ===================================================================== *)

Module HealthFacts.
Import Ports Engine Manager Adapter Props CallFacts PortFacts ManagerFacts AdapterFacts.
Import Notions LifecycleFacts ManagerListing ListingFacts AdapterLifecycle.
Import WaitFacts.

Lemma succeeded_quiet e old new c :
  Forall (λ ev, is_exec ev = false) new → succeeded e old new c = false.
Proof.
  induction 1 as [|ev new Hev _ IH]; [done|].
  rewrite succeeded_cons, IH. by destruct ev.
Qed.

Lemma succeeded_app e old n1 n2 c :
  succeeded e old (n2 ++ n1) c = succeeded e (n1 ++ old) n2 c || succeeded e old n1 c.
Proof.
  induction n2 as [|ev n2 IH]; [done|].
  rewrite <- app_comm_cons, !succeeded_cons, IH, <- (assoc_L (++)).
  by rewrite orb_assoc.
Qed.

Lemma inspect_container_same_env pid : preserves same_env (inspect_container pid).
Proof. frame. Qed.

(** One call of [execute_command]: it returns, and of the calls it made
    only an exec of its own command can have come back with 0, which is
    what [success] says. *)
Lemma execute_command_probe pid cmd wd w :
  ∃ r w' new,
    execute_command pid cmd wd w = (Ok r, w')
    ∧ env w' = env w ∧ history w' = new ++ history w
    ∧ ∀ c, succeeded (env w) (history w) new c = bool_decide (cmd = c) && cr_success r.
Proof.
  rewrite execute_command_run. unfold execute_command_try. rewrite run_bind.
  pose proof (inspect_container_total pid w) as Htotal.
  pose proof (inspect_container_no_exec pid w) as (new & Hh & Hquiet).
  pose proof (inspect_container_same_env pid w) as He. unfold same_env in He.
  destruct (inspect_container pid w) as [[c|e|] w1]; cbn [fst snd] in *; [| |done].
  - case_bool_decide.
    + eexists _, _, new. split; [reflexivity|]. fields. split_and!; [done|done|].
      intros c0. rewrite succeeded_quiet by done. cbn. by rewrite andb_false_r.
    + rewrite run_bind. unfold exec_run at 1.
      destruct (exec_reply _ _) as [e|r] eqn:Hreply.
      * eexists _, _, (EvExec (id c) cmd wd :: new). split; [reflexivity|]. fields.
        split_and!; [done|by rewrite Hh|].
        intros c0. rewrite succeeded_cons, succeeded_quiet by done.
        unfold exec_ok. rewrite <- Hh, <- He, Hreply. cbn. by rewrite !andb_false_r.
      * eexists _, _, (EvExec (id c) cmd wd :: new). split; [reflexivity|]. fields.
        split_and!; [done|by rewrite Hh|].
        intros c0. rewrite succeeded_cons, succeeded_quiet by done.
        unfold exec_ok. rewrite <- Hh, <- He, Hreply. cbn. by rewrite orb_false_r.
  - eexists _, _, new. split; [reflexivity|]. fields. split_and!; [done|done|].
    intros c0. rewrite succeeded_quiet by done. cbn. by rewrite andb_false_r.
Qed.

Lemma get_workspace_no_exec pid : preserves no_exec_since (get_workspace pid).
Proof. frame. Qed.

Lemma get_workspace_same_env pid : preserves same_env (get_workspace pid).
Proof. frame. Qed.

Lemma get_workspace_total pid : total (get_workspace pid).
Proof. total. Qed.

Lemma get_workspace_never_raises pid w e : fst (get_workspace pid w) ≠ Raise e.
Proof.
  rewrite get_workspace_run. by destruct (get_sandbox pid w) as [[view|e'|] w1].
Qed.

(** X18: [health_check] always returns a dict, and its [except] branch is never
    taken. A dict with a [reason] says the workspace was not found or
    names a status other than [running], and no command was run in the
    container. Otherwise the status is [running] and each entry of
    [services] tells whether the probe of its port was run by this call and
    came back with exit code 0, in the order vnc, novnc, file_server,
    browser_api; [healthy] is their conjunction. *)
Theorem health_check_reports_its_probes (pid : string) (w : World) :
  ∃ (h : Health) (w' : World) (new : list Event),
    health_check pid w = (Ok h, w')
    ∧ history w' = new ++ history w
    ∧ match h with
      | Unhealthy reason =>
          Forall (λ ev, is_exec ev = false) new
          ∧ (reason = "Workspace not found"
             ∨ ∃ st, st ≠ "running" ∧ reason = "Workspace status: " +:+ st)
      | Checked healthy services st urls =>
          st = "running"
          ∧ services =
            [ ("vnc", succeeded (env w) (history w) new "nc -z localhost 5901");
              ("novnc", succeeded (env w) (history w) new "nc -z localhost 6080");
              ("file_server", succeeded (env w) (history w) new "nc -z localhost 8080");
              ("browser_api", succeeded (env w) (history w) new "nc -z localhost 7788") ]
          ∧ healthy = forallb snd services
      end.
Proof.
  unfold health_check. rewrite run_try, run_bind.
  pose proof (get_workspace_total pid w) as Htotal.
  pose proof (get_workspace_never_raises pid w) as Hnever.
  pose proof (get_workspace_no_exec pid w) as (new0 & Hh0 & Hquiet).
  pose proof (get_workspace_same_env pid w) as He0. unfold same_env in He0.
  destruct (get_workspace pid w) as [[[ws|]|e|] w0]; cbn [fst snd] in *;
    [| |by destruct (Hnever e)|done].
  2:{ eexists _, _, new0. split; [reflexivity|]. split_and!; [done|done|by left]. }
  case_bool_decide as Hst.
  { eexists _, _, new0. split; [reflexivity|]. split_and!; [done|done|].
    right. by exists (ws_status ws). }
  rewrite run_bind.
  destruct (execute_command_probe pid "nc -z localhost 5901" "/workspace" w0)
    as (r1 & w1 & n1 & -> & He1 & Hh1 & H1).
  rewrite run_bind. cbn [fst snd].
  destruct (execute_command_probe pid "nc -z localhost 6080" "/workspace" w1)
    as (r2 & w2 & n2 & -> & He2 & Hh2 & H2).
  rewrite run_bind. cbn [fst snd].
  destruct (execute_command_probe pid "nc -z localhost 8080" "/workspace" w2)
    as (r3 & w3 & n3 & -> & He3 & Hh3 & H3).
  rewrite run_bind. cbn [fst snd].
  destruct (execute_command_probe pid "nc -z localhost 7788" "/workspace" w3)
    as (r4 & w4 & n4 & -> & He4 & Hh4 & H4).
  cbn [mret M_ret].
  eexists _, _, (n4 ++ n3 ++ n2 ++ n1 ++ new0). split; [reflexivity|].
  split; [rewrite Hh4, Hh3, Hh2, Hh1, Hh0; by rewrite <- !(assoc_L (++))|].
  split; [done|]. split; [|done].
  rewrite He3, He2, He1, He0 in H4. rewrite He2, He1, He0 in H3.
  rewrite He1, He0 in H2. rewrite He0 in H1.
  rewrite Hh3, Hh2, Hh1, Hh0 in H4. rewrite Hh2, Hh1, Hh0 in H3.
  rewrite Hh1, Hh0 in H2. rewrite Hh0 in H1.
  rewrite !succeeded_app, <- !(assoc_L (++)), !H1, !H2, !H3, !H4, !succeeded_quiet by done.
  repeat match goal with
         | |- context [bool_decide (?a = ?b)] =>
             let v := eval vm_compute in (bool_decide (a = b)) in
             change (bool_decide (a = b)) with v
         end.
  cbn. by rewrite !orb_false_r.
Qed.

(** X26: [create_directory] never raises, and it answers [True] exactly when
    the command [mkdir -p <path>], the path pasted as it was given, was
    run in the container by this call and came back with exit code 0. *)
Theorem create_directory_runs_mkdir (pid path : string) (w : World) :
  ∃ (b : bool) (w' : World) (new : list Event),
    create_directory pid path w = (Ok b, w')
    ∧ history w' = new ++ history w
    ∧ b = succeeded (env w) (history w) new ("mkdir -p " +:+ path)
    ∧ ∀ command, command ≠ "mkdir -p " +:+ path →
                 succeeded (env w) (history w) new command = false.
Proof.
  unfold create_directory. rewrite run_try, run_bind.
  destruct (execute_command_probe pid ("mkdir -p " +:+ path) "/" w)
    as (r & w' & new & -> & _ & Hh & Hprobe).
  exists (cr_success r), w', new. split_and!; [done|done| |].
  - by rewrite Hprobe, bool_decide_eq_true_2.
  - intros command Hne. by rewrite Hprobe, bool_decide_eq_false_2.
Qed.

End HealthFacts.

(* ===================================================================== *)
(** * Properties of the path guards                                       *)
(* ===================================================================== *)

Module PathGuardFacts.
Import Ports Engine Manager Adapter Paths PathFacts PathGuards Notions.
Import Props CallFacts ManagerFacts AdapterFacts.

Lemma startswith_inv (p s : string) :
  startswith p s = true → ∃ r, s = p +:+ r.
Proof.
  revert s. induction p as [|a p IH]; intros s; simpl; [by exists s|].
  destruct s as [|b s]; [done|].
  intros [->%bool_decide_eq_true [r ->]%IH]%andb_prop. by exists r.
Qed.

Lemma split_head_prefix (sep : ascii) (s x : string) (xs : list string) :
  split sep s = x :: xs → startswith x s = true.
Proof.
  revert x xs. induction s as [|c s IH]; intros x xs; simpl.
  - by intros [= <- <-].
  - case_bool_decide; [by intros [= <- <-]|].
    destruct (split sep s) as [|y ys] eqn:E; intros [= <- <-]; simpl.
    + by rewrite bool_decide_eq_true_2.
    + rewrite bool_decide_eq_true_2 by done. by eapply IH.
Qed.

Lemma split_cons_other (sep c : ascii) (s : string) :
  c ≠ sep →
  split sep (String c s)
  = match split sep s with
    | [] => [String c ""]
    | x :: xs => String c x :: xs
    end.
Proof. intros Hne. simpl. by rewrite bool_decide_eq_false_2. Qed.

(** A [..] component is a [..] substring. *)
Lemma split_dotdot (s : string) :
  ".." ∈ split "/" s → ToolBase.contains ".." s = true.
Proof.
  induction s as [|c s IH]; simpl.
  - by intros [=]%list_elem_of_singleton.
  - case_bool_decide as Hc.
    + intros [[=]|Hin]%elem_of_cons. rewrite (IH Hin). apply orb_true_r.
    + destruct (split "/" s) as [|y ys] eqn:E.
      * by intros [=]%list_elem_of_singleton.
      * intros [[= <- <-]|Hin]%elem_of_cons.
        -- apply split_head_prefix in E. destruct s as [|d s]; [done|].
           simpl in E. apply andb_prop in E as [->%bool_decide_eq_true _].
           by rewrite !bool_decide_eq_true_2.
        -- rewrite IH; [apply orb_true_r|]. by right.
Qed.

Lemma normpath_step_keeps_head (n : nat) (c : string) (acc : list string) (comp : string) :
  comp ≠ ".." → ∃ rest, normpath_step n (c :: acc) comp = c :: rest.
Proof.
  intros Hne. unfold normpath_step. case_bool_decide; [by eexists|].
  rewrite (bool_decide_eq_true_2 (comp ≠ "..")) by done. cbn. by eexists.
Qed.

Lemma normpath_fold_keeps_head (n : nat) (c : string) (comps : list string) :
  ∀ acc, ".." ∉ comps →
         ∃ rest, fold_left (normpath_step n) comps (c :: acc) = c :: rest.
Proof.
  induction comps as [|comp comps IH]; intros acc Hnot; simpl; [by eexists|].
  apply not_elem_of_cons in Hnot as [Hne Hnot].
  destruct (normpath_step_keeps_head n c acc comp) as [rest ->]; [done|].
  by apply IH.
Qed.

(** Without a [..] in it, a path under [/workspace] normalises to a path
    under [/workspace]. *)
Lemma normpath_keeps_workspace (s : string) :
  startswith "/workspace" s = true → ToolBase.contains ".." s = false →
  startswith "/workspace" (normpath s) = true.
Proof.
  intros [r ->]%startswith_inv Hdd.
  assert (".." ∉ split "/" ("/workspace" +:+ r)) as Hnot.
  { intros Hin%split_dotdot. congruence. }
  unfold normpath. rewrite bool_decide_eq_false_2 by done.
  assert (initial_slashes_of ("/workspace" +:+ r) = 1%nat) as -> by done.
  destruct (split "/" r) as [|h tl] eqn:Er; [by destruct (split_not_nil "/" r)|].
  assert (split "/" ("/workspace" +:+ r) = "" :: ("workspace" +:+ h) :: tl) as Hsplit.
  { change ("/workspace" +:+ r) with (String "/" ("workspace" +:+ r)).
    rewrite split_cons_sep. f_equal.
    change ("workspace" +:+ r)
      with (String "w" (String "o" (String "r" (String "k" (String "s"
              (String "p" (String "a" (String "c" (String "e" r))))))))).
    rewrite !split_cons_other, Er by done. done. }
  rewrite Hsplit in *. cbn [fold_left].
  assert (normpath_step 1 [] "" = []) as -> by done.
  assert (normpath_step 1 [] ("workspace" +:+ h) = ["workspace" +:+ h]) as -> by done.
  destruct (normpath_fold_keeps_head 1 ("workspace" +:+ h) tl []) as [rest ->].
  { intros Hin. apply Hnot. by do 2 right. }
  destruct rest as [|x rest]; by rewrite bool_decide_eq_false_2.
Qed.

(** X19: After [clean_path], [validate_path] turns a path down for one reason
    only, two dots in a row somewhere in it: the cleaned path is never
    empty, never begins with a tilde, and without [..] it normalises to
    a path under [/workspace]. So a name such as [a..b] is refused, and
    nothing else is. *)
Theorem validate_path_after_clean_path (p : string) :
  ToolBase.validate_path (ToolBase.clean_path p)
  = negb (ToolBase.contains ".." (ToolBase.clean_path p)).
Proof.
  pose proof (tool_clean_path_workspace p) as Hw.
  destruct (startswith_inv _ _ Hw) as [r Hr].
  unfold ToolBase.validate_path. rewrite bool_decide_eq_false_2 by (by rewrite Hr).
  assert (startswith "~" (ToolBase.clean_path p) = false) as -> by (by rewrite Hr).
  rewrite orb_false_r.
  destruct (ToolBase.contains ".." _) eqn:Hdd; [done|].
  by rewrite normpath_keeps_workspace.
Qed.

(** ** The root guard of [delete_directory] *)

Lemma collapse_slashes_cons_other (c : ascii) (s : string) :
  c ≠ "/"%char → collapse_slashes (String c s) = String c (collapse_slashes s).
Proof. intros Hne. simpl. by rewrite bool_decide_eq_false_2. Qed.

Lemma collapse_slashes_slash_other (c : ascii) (s : string) :
  c ≠ "/"%char →
  collapse_slashes (String "/" (String c s)) = String "/" (collapse_slashes (String c s)).
Proof.
  intros Hne. cbn [collapse_slashes]. rewrite bool_decide_eq_true_2 by done.
  by destruct c as [[] [] [] [] [] [] [] []].
Qed.

Lemma collapse_slashes_nonempty (s : string) : s ≠ "" → collapse_slashes s ≠ "".
Proof.
  induction s as [|c s IH]; [done|]. intros _. cbn [collapse_slashes].
  case_bool_decide; [|done].
  destruct s as [|d s]; [done|].
  destruct d as [[] [] [] [] [] [] [] []]; try done. by apply IH.
Qed.

Lemma collapse_slashes_workspace_app (r : string) :
  collapse_slashes ("/workspace" +:+ r) = "/workspace" +:+ collapse_slashes r.
Proof.
  change ("/workspace" +:+ r)
    with (String "/" (String "w" (String "o" (String "r" (String "k" (String "s"
            (String "p" (String "a" (String "c" (String "e" r)))))))))).
  rewrite collapse_slashes_slash_other by done.
  by rewrite !collapse_slashes_cons_other by done.
Qed.

(** [clean_path] gives the workspace root itself for the empty path and
    for the paths that normalise to [/workspace], and for no other. *)
Lemma clean_path_is_root (p : string) :
  ToolBase.clean_path p = "/workspace"
  ↔ p = "" ∨ normpath (strip_dangerous p) = "/workspace".
Proof.
  unfold ToolBase.clean_path. case_bool_decide as Hp; [by split; [left|]|].
  set (n := normpath (strip_dangerous p)).
  assert (∀ x, "/workspace" +:+ x = "/workspace" → x = "") as Hcancel
    by (intros x [= Hx]; exact Hx).
  unfold reparent. destruct (startswith "/workspace" n) eqn:Hw.
  - destruct (startswith_inv _ _ Hw) as [r Hr]. rewrite Hr.
    rewrite collapse_slashes_workspace_app. split.
    + intros Hx%Hcancel. right.
      destruct r as [|c r]; [done|]. by destruct (collapse_slashes_nonempty (String c r)).
    + intros [?|Hx]; [done|]. apply Hcancel in Hx as ->. done.
  - split; [|intros [?|Hn]; [done|by rewrite Hn in Hw]].
    destruct (startswith "/" n) eqn:Hs.
    + rewrite collapse_slashes_workspace_app. intros Hx%Hcancel.
      destruct n as [|c n']; [done|]. by destruct (collapse_slashes_nonempty (String c n')).
    + change ("/workspace/" +:+ n) with ("/workspace" +:+ String "/" n).
      rewrite collapse_slashes_workspace_app. intros Hx%Hcancel.
      by destruct (collapse_slashes_nonempty (String "/" n)).
Qed.

Lemma try_run {A} (body : M A) (handler : exn → M A) (w : World) :
  try_except body handler w
  = match body w with
    | (Raise e, w') => handler e w'
    | other => other
    end.
Proof. rewrite run_try. by destruct (body w) as [[a|e|] w']. Qed.

(** X20: [delete_directory] refuses to delete the workspace root when the
    directory is empty or normalises to [/workspace] itself. A
    directory that normalises to [/], such as [/] itself, is not refused:
    it is cleaned to [/workspace/], which passes the validation and is not
    the string the guard compares with, and [rm -rf '/workspace/'] is
    run. *)
Theorem delete_directory_root_guard
    (acquire_workspace acquire_sandbox : string → M unit) (pid d : string) (w : World) :
  (d = "" ∨ normpath (strip_dangerous d) = "/workspace" →
   delete_directory acquire_workspace acquire_sandbox pid d w
   = (Ok false, set_log (cons (ERROR, "Cannot delete workspace root directory")) w))
  ∧ (d ≠ "" → normpath (strip_dangerous d) = "/" →
     delete_directory acquire_workspace acquire_sandbox pid d w
     = match execute_command acquire_workspace acquire_sandbox pid
               "rm -rf '/workspace/'" w with
       | (Ok r, w') => (Ok (cr_success r), w')
       | (Raise e, w') =>
           (Ok false,
            set_log (cons (ERROR, "Error deleting directory /workspace/: "
                                  +:+ str_of_exn e)) w')
       | (OutOfFuel, w') => (OutOfFuel, w')
       end).
Proof.
  split.
  - intros Hroot%clean_path_is_root. unfold delete_directory. rewrite Hroot.
    by rewrite try_run.
  - intros Hne Hn. unfold delete_directory.
    assert (ToolBase.clean_path d = "/workspace/") as ->.
    { unfold ToolBase.clean_path. rewrite bool_decide_eq_false_2 by done.
      by rewrite Hn. }
    rewrite try_run.
    assert (ToolBase.validate_path "/workspace/" = true) as -> by done.
    cbn [negb]. rewrite bool_decide_eq_false_2 by done. rewrite run_bind.
    by destruct (execute_command _ _ _ _ w) as [[r|e|] w'].
Qed.

Lemma delete_directory_root_guard_witness :
  delete_directory (λ _, mret tt) (λ _, mret tt) "p1" "/workspace/." Scenario.created
  = (Ok false,
     set_log (cons (ERROR, "Cannot delete workspace root directory")) Scenario.created)
  ∧ delete_directory (λ _, mret tt) (λ _, mret tt) "p1" "/" Scenario.created
    = match execute_command (λ _, mret tt) (λ _, mret tt) "p1"
              "rm -rf '/workspace/'" Scenario.created with
      | (Ok r, w') => (Ok (cr_success r), w')
      | (Raise e, w') =>
          (Ok false,
           set_log (cons (ERROR, "Error deleting directory /workspace/: "
                                 +:+ str_of_exn e)) w')
      | (OutOfFuel, w') => (OutOfFuel, w')
      end.
Proof.
  split.
  - apply (proj1 (delete_directory_root_guard (λ _, mret tt) (λ _, mret tt)
                    "p1" "/workspace/." Scenario.created)).
    right. reflexivity.
  - apply (proj2 (delete_directory_root_guard (λ _, mret tt) (λ _, mret tt)
                    "p1" "/" Scenario.created)).
    + discriminate.
    + reflexivity.
Defined.

(** ** What reaches the shell *)

Lemma collapse_slashes_no_slash (s : string) :
  has_char "/" s = false → collapse_slashes s = s.
Proof.
  induction s as [|c s IH]; [done|]. cbn [has_char].
  intros [Hc Hs]%orb_false_elim. apply bool_decide_eq_false in Hc.
  rewrite collapse_slashes_cons_other by done. by rewrite IH.
Qed.

Lemma contains_dotdot_cons_other (c : ascii) (s : string) :
  c ≠ "."%char → ToolBase.contains ".." (String c s) = ToolBase.contains ".." s.
Proof.
  intros Hne. cbn [ToolBase.contains startswith].
  by rewrite (bool_decide_eq_false_2 ("."%char = c)) by done.
Qed.

Lemma normpath_plain (name : string) : plain_name name → normpath name = name.
Proof.
  intros (Hne & Hdot & Hslash & _ & Hdd).
  assert (name ≠ "..") as Hdotdot by (by intros ->).
  unfold normpath. rewrite bool_decide_eq_false_2 by done.
  assert (initial_slashes_of name = 0%nat) as ->.
  { unfold initial_slashes_of. destruct name as [|c name]; [done|].
    cbn [has_char] in Hslash. apply orb_false_elim in Hslash as [Hc _].
    apply bool_decide_eq_false in Hc. cbn [startswith].
    by rewrite (bool_decide_eq_false_2 ("/"%char = c)) by done. }
  rewrite split_without_sep by done. cbn [fold_left].
  unfold normpath_step.
  rewrite (bool_decide_eq_false_2 (name = "" ∨ name = ".")) by (by intros [?|?]).
  rewrite (bool_decide_eq_true_2 (name ≠ "..")) by done.
  cbn. by rewrite bool_decide_eq_false_2.
Qed.

Lemma clean_path_plain (name : string) :
  plain_name name → ToolBase.clean_path name = "/workspace/" +:+ name.
Proof.
  intros Hplain. pose proof Hplain as (Hne & _ & Hslash & Hstrip & _).
  unfold ToolBase.clean_path. rewrite bool_decide_eq_false_2 by done.
  rewrite Hstrip, normpath_plain by done.
  assert (reparent name = "/workspace/" +:+ name) as ->.
  { unfold reparent. destruct name as [|c name]; [done|].
    cbn [has_char] in Hslash. apply orb_false_elim in Hslash as [Hc _].
    apply bool_decide_eq_false in Hc. cbn [startswith].
    by rewrite !(bool_decide_eq_false_2 ("/"%char = c)) by done. }
  change ("/workspace/" +:+ name) with ("/workspace" +:+ String "/" name).
  rewrite collapse_slashes_workspace_app.
  destruct name as [|c name]; [done|].
  cbn [has_char] in Hslash. apply orb_false_elim in Hslash as [Hc Hrest].
  apply bool_decide_eq_false in Hc.
  rewrite collapse_slashes_slash_other by done.
  rewrite collapse_slashes_no_slash; [done|].
  cbn. by rewrite (bool_decide_eq_false_2 (c = "/"%char)) by done.
Qed.

(** X21: The cleaned path goes between single quotes as it is. For a plain
    name (no slash, no [..], none of the seven stripped characters),
    [delete_file] runs [rm -f '/workspace/<name>'] with the name verbatim:
    a single quote in the name, which [clean_path] does not strip, ends
    the quoting. *)
Theorem delete_file_pastes_name_verbatim
    (acquire_workspace acquire_sandbox : string → M unit) (pid name : string)
    (w : World) :
  plain_name name →
  delete_file acquire_workspace acquire_sandbox pid name w
  = match execute_command acquire_workspace acquire_sandbox pid
            ("rm -f '/workspace/" +:+ name +:+ "'") w with
    | (Ok r, w') => (Ok (cr_success r), w')
    | (Raise e, w') =>
        (Ok false,
         set_log (cons (ERROR, "Error deleting file /workspace/" +:+ name +:+ ": "
                               +:+ str_of_exn e)) w')
    | (OutOfFuel, w') => (OutOfFuel, w')
    end.
Proof.
  intros Hplain. pose proof Hplain as (_ & _ & _ & _ & Hdd).
  unfold delete_file.
  rewrite clean_path_plain by done.
  assert (ToolBase.contains ".." ("/workspace/" +:+ name) = false) as Hclean.
  { change ("/workspace/" +:+ name)
      with (String "/" (String "w" (String "o" (String "r" (String "k" (String "s"
              (String "p" (String "a" (String "c" (String "e"
                 (String "/" name))))))))))).
    by rewrite !contains_dotdot_cons_other by done. }
  assert (ToolBase.validate_path ("/workspace/" +:+ name) = true) as ->.
  { unfold ToolBase.validate_path. rewrite bool_decide_eq_false_2 by done.
    assert (startswith "~" ("/workspace/" +:+ name) = false) as -> by done.
    rewrite Hclean. cbn [orb].
    by rewrite normpath_keeps_workspace. }
  rewrite try_run. cbn [negb]. rewrite run_bind.
  by destruct (execute_command _ _ _ _ w) as [[r|e|] w'].
Qed.

Lemma delete_file_pastes_name_verbatim_witness :
  delete_file (λ _, mret tt) (λ _, mret tt) "p1" "a'; id; echo 'b" Scenario.created
  = match execute_command (λ _, mret tt) (λ _, mret tt) "p1"
            "rm -f '/workspace/a'; id; echo 'b'" Scenario.created with
    | (Ok r, w') => (Ok (cr_success r), w')
    | (Raise e, w') =>
        (Ok false,
         set_log (cons (ERROR, "Error deleting file /workspace/a'; id; echo 'b: "
                               +:+ str_of_exn e)) w')
    | (OutOfFuel, w') => (OutOfFuel, w')
    end.
Proof.
  apply (delete_file_pastes_name_verbatim (λ _, mret tt) (λ _, mret tt) "p1"
           "a'; id; echo 'b" Scenario.created).
  unfold plain_name. split_and!; [discriminate|discriminate|reflexivity..].
Defined.

End PathGuardFacts.

(* ===================================================================== *)
(** * Properties of the router                                            *)
(* ===================================================================== *)

Module RouterFacts.
Import Ports Engine Manager Adapter Props CallFacts PortFacts ManagerFacts AdapterFacts.
Import Notions LifecycleFacts ManagerListing ListingFacts AdapterLifecycle.
Import AdapterLifecycleFacts HealthFacts Router.

Lemma wait_for_services_total c timeout : total (_wait_for_services c timeout).
Proof.
  intros w. destruct (wait_for_services_Ok c timeout w) as [w' ->]. done.
Qed.

#[export] Hint Resolve wait_for_services_total : total.

Lemma start_sandbox_total pid : total (Manager.start_sandbox pid).
Proof. unfold Manager.start_sandbox. total. Qed.

Lemma stop_sandbox_total pid : total (Manager.stop_sandbox pid).
Proof. unfold Manager.stop_sandbox. total. Qed.

Lemma run_lift {A} (m : M A) (w : World) :
  lift m w = match m w with
             | (Ok a, w') => (Returned a, w')
             | (Raise e, w') => (Failed (Uncaught e), w')
             | (OutOfFuel, w') => (Unfinished, w')
             end.
Proof. reflexivity. Qed.

Lemma run_try_ {A} (body : R A) (handler : Raised → R A) (w : World) :
  try_ body handler w = match body w with
                        | (Failed r, w') => handler r w'
                        | other => other
                        end.
Proof. reflexivity. Qed.

Lemma run_rbind {A B} (m : R A) (k : A → R B) (w : World) :
  (m ≫= k) w = match m w with
               | (Returned a, w') => k a w'
               | (Failed r, w') => (Failed r, w')
               | (Unfinished, w') => (Unfinished, w')
               end.
Proof. reflexivity. Qed.

(** X22: The three lifecycle endpoints never answer with their message. Each
    tests the value of a manager method that has no [return]: when the
    manager's call returned, that is, when the sandbox was started,
    stopped or deleted, the endpoint raises [HTTPException] with status
    500 and [Failed to ... sandbox for project <id>], which its own
    [except HTTPException: raise] lets through; when the manager's call
    raised, it raises status 500 with the error's text. *)
Theorem lifecycle_endpoints_always_answer_500 (pid : string) (w : World) :
  match Manager.start_sandbox pid w with
  | (Ok _, w') =>
      Router.start_sandbox pid w
      = (Failed (HTTPException 500 ("Failed to start sandbox for project " +:+ pid)), w')
  | (Raise e, w') =>
      Router.start_sandbox pid w
      = (Failed (HTTPException 500 ("Failed to start sandbox: " +:+ str_of_exn e)),
         set_log (cons (ERROR, "Failed to start sandbox " +:+ pid +:+ ": "
                               +:+ str_of_exn e)) w')
  | (OutOfFuel, _) => False
  end
  ∧ match Manager.stop_sandbox pid w with
    | (Ok _, w') =>
        Router.stop_sandbox pid w
        = (Failed (HTTPException 500 ("Failed to stop sandbox for project " +:+ pid)), w')
    | (Raise e, w') =>
        Router.stop_sandbox pid w
        = (Failed (HTTPException 500 ("Failed to stop sandbox: " +:+ str_of_exn e)),
           set_log (cons (ERROR, "Failed to stop sandbox " +:+ pid +:+ ": "
                                 +:+ str_of_exn e)) w')
    | (OutOfFuel, _) => False
    end
  ∧ match Manager.delete_sandbox pid w with
    | (Ok _, w') =>
        Router.delete_sandbox pid w
        = (Failed (HTTPException 500 ("Failed to delete sandbox for project " +:+ pid)),
           w')
    | (Raise e, w') =>
        Router.delete_sandbox pid w
        = (Failed (HTTPException 500 ("Failed to delete sandbox: " +:+ str_of_exn e)),
           set_log (cons (ERROR, "Failed to delete sandbox " +:+ pid +:+ ": "
                                 +:+ str_of_exn e)) w')
    | (OutOfFuel, _) => False
    end.
Proof.
  split_and!.
  - pose proof (start_sandbox_total pid w) as Htotal.
    unfold Router.start_sandbox. rewrite run_try_, run_rbind, run_lift.
    by destruct (Manager.start_sandbox pid w) as [[[]|e|] w'].
  - pose proof (stop_sandbox_total pid w) as Htotal.
    unfold Router.stop_sandbox. rewrite run_try_, run_rbind, run_lift.
    by destruct (Manager.stop_sandbox pid w) as [[[]|e|] w'].
  - pose proof (delete_sandbox_total pid w) as Htotal.
    unfold Router.delete_sandbox. rewrite run_try_, run_rbind, run_lift.
    by destruct (Manager.delete_sandbox pid w) as [[[]|e|] w'].
Qed.

(** X23: [GET /sandbox/{project_id}] never answers with a [SandboxResponse].
    When the manager finds the sandbox, the endpoint subscripts the dict
    with [project_id], which is none of its keys, and the [KeyError]
    becomes status 500; when the manager raises (a missing sandbox raises
    [ValueError]), the status is 500 as well. The status 404 of its body
    is never sent. *)
Theorem get_endpoint_always_answers_500 (pid : string) (w : World) :
  match Manager.get_sandbox pid w with
  | (Ok _, w') =>
      Router.get_sandbox pid w
      = (Failed (HTTPException 500 "Failed to get sandbox: 'project_id'"),
         set_log (cons (ERROR, "Failed to get sandbox " +:+ pid +:+ ": 'project_id'")) w')
  | (Raise e, w') =>
      Router.get_sandbox pid w
      = (Failed (HTTPException 500 ("Failed to get sandbox: " +:+ str_of_exn e)),
         set_log (cons (ERROR, "Failed to get sandbox " +:+ pid +:+ ": "
                               +:+ str_of_exn e)) w')
  | (OutOfFuel, _) => False
  end.
Proof.
  pose proof (get_sandbox_total pid w) as Htotal.
  unfold Router.get_sandbox. rewrite run_try_, run_rbind, run_lift.
  by destruct (Manager.get_sandbox pid w) as [[view|e|] w'].
Qed.

(** X24: The dependency [get_project_sandbox] never raises status 404. Its
    only handler is [except Exception], which catches the [HTTPException]
    the body raises for a project without sandbox: the caller gets status
    500, with the text of the 404 inside the detail. With a sandbox, it
    returns a [LocalSandbox] that holds the workspace. *)
Theorem get_project_sandbox_never_404 (str_of_HTTPException : Z → string → string)
    (pid : string) (w : World) :
  match get_workspace pid w with
  | (Ok (Some workspace), w') =>
      get_project_sandbox str_of_HTTPException pid w
      = (Returned {| sandbox_project_id := pid; _workspace := Some workspace;
                     _session_started := false |}, w')
  | (Ok None, w') =>
      let text := str_of_HTTPException 404 ("Sandbox not found for project " +:+ pid) in
      get_project_sandbox str_of_HTTPException pid w
      = (Failed (HTTPException 500 ("Failed to get sandbox: " +:+ text)),
         set_log (cons (ERROR, "Failed to get sandbox for project " +:+ pid +:+ ": "
                               +:+ text)) w')
  | (Raise _, _) | (OutOfFuel, _) => False
  end.
Proof.
  pose proof (get_workspace_total pid w) as Htotal.
  pose proof (get_workspace_never_raises pid w) as Hnever.
  unfold get_project_sandbox. rewrite run_try_, run_rbind, run_lift.
  destruct (get_workspace pid w) as [[[workspace|]|e|] w']; cbn in *;
    [done|done|by destruct (Hnever e)|done].
Qed.

(** X25: The endpoint that deletes files refuses the workspace root with
    status 400 when the path is empty or normalises, once URL-decoded, to
    [/workspace] itself. A path that normalises to [/] is not refused: it
    is cleaned to [/workspace/], which is valid and is not the string the
    guard compares with, so [rm -rf '/workspace/'] is run in the
    container, and the endpoint reports success when the command
    succeeds. *)
Theorem delete_file_endpoint_root_guard (unquote : string → string)
    (get_or_start_sandbox : string → M unit) (pid path : string)
    (sandbox : LocalSandbox) (w : World) :
  (path = "" ∨ Paths.normpath (unquote path) = "/workspace" →
   delete_file unquote get_or_start_sandbox pid path sandbox w
   = (Failed (HTTPException 400 "Cannot delete workspace root directory"), w))
  ∧ (path ≠ "" → Paths.normpath (unquote path) = "/" →
     delete_file unquote get_or_start_sandbox pid path sandbox w
     = match sandbox_command get_or_start_sandbox sandbox "rm -rf '/workspace/'" w with
       | (Ok result, w') =>
           if cr_success result
           then (Returned ("File or directory deleted successfully", "/workspace/"), w')
           else (Failed (HTTPException 500 "Failed to delete file or directory"), w')
       | (Raise e, w') =>
           (Failed (HTTPException 500 ("Failed to delete file: " +:+ str_of_exn e)),
            set_log (cons (ERROR, "Failed to delete file in sandbox " +:+ pid +:+ ": "
                                  +:+ str_of_exn e)) w')
       | (OutOfFuel, w') => (Unfinished, w')
       end).
Proof.
  split.
  - intros Hroot. unfold delete_file.
    assert (Paths.Api.clean_path unquote path = "/workspace") as ->.
    { unfold Paths.Api.clean_path. case_bool_decide; [done|].
      destruct Hroot as [?|Hn]; [done|]. by rewrite Hn. }
    done.
  - intros Hne Hn. unfold delete_file.
    assert (Paths.Api.clean_path unquote path = "/workspace/") as ->.
    { unfold Paths.Api.clean_path. rewrite bool_decide_eq_false_2 by done.
      by rewrite Hn. }
    rewrite run_try_.
    assert (PathGuards.Api.validate_path "/workspace/" = true) as -> by done.
    cbn [negb]. rewrite bool_decide_eq_false_2 by done. rewrite run_rbind, run_lift.
    destruct (sandbox_command _ _ _ w) as [[result|e|] w']; [|done|done].
    by destruct (cr_success result).
Qed.

Lemma delete_file_endpoint_root_guard_witness :
  let sandbox := {| sandbox_project_id := "p1"; _workspace := None;
                    _session_started := false |} in
  delete_file (λ s, s) (λ _, mret tt) "p1" "/workspace/./" sandbox Scenario.created
  = (Failed (HTTPException 400 "Cannot delete workspace root directory"),
     Scenario.created)
  ∧ delete_file (λ s, s) (λ _, mret tt) "p1" "/" sandbox Scenario.created
    = match sandbox_command (λ _, mret tt) sandbox "rm -rf '/workspace/'"
              Scenario.created with
      | (Ok result, w') =>
          if cr_success result
          then (Returned ("File or directory deleted successfully", "/workspace/"), w')
          else (Failed (HTTPException 500 "Failed to delete file or directory"), w')
      | (Raise e, w') =>
          (Failed (HTTPException 500 ("Failed to delete file: " +:+ str_of_exn e)),
           set_log (cons (ERROR, "Failed to delete file in sandbox p1: "
                                 +:+ str_of_exn e)) w')
      | (OutOfFuel, w') => (Unfinished, w')
      end.
Proof.
  intros sandbox. split.
  - apply (proj1 (delete_file_endpoint_root_guard (λ s, s) (λ _, mret tt)
                    "p1" "/workspace/./" sandbox Scenario.created)).
    right. reflexivity.
  - apply (proj2 (delete_file_endpoint_root_guard (λ s, s) (λ _, mret tt)
                    "p1" "/" sandbox Scenario.created)).
    + discriminate.
    + reflexivity.
Defined.

End RouterFacts.
